(** * Terrarium monitor: ingestion, queries, summary and the polling agent

    A shallow embedding of [backend/api.py], [backend/db.py],
    [backend/utils.py], [backend/seed.py], [backend/models.py] and of the
    scheduler of [agent/agent.py], with the properties of the telemetry
    pipeline stated over it.

    Conventions of the embedding.
    - A JSON/Python string is a [string]; [None] (a missing key or a JSON
      null) is [None] of an [option].
    - An instant is a number of microseconds since the epoch, in UTC ([Z]).
    - A Python float is a [pyfloat]: a rational for a finite value, the two
      infinities and NaN.  A stored value is the float the request carried.
      The arithmetic of the scheduler on clock readings, which rounds and
      can overflow, is in the class [FloatOps].
    - The two tables are lists of rows in insertion order.  A session works
      on a copy of the tables; [session_scope] decides which copy survives.
    - A string is the sequence of the bytes of its UTF-8 encoding.
    - Python builtins whose code is not part of the repository
      ([float] and [int] on text, [float] on ints,
      [datetime.fromisoformat], [str.title] beyond ASCII) are the fields
      of the class [Builtins]. *)

From Stdlib Require Import ZArith QArith String Ascii DecimalString.
From stdpp Require Import base tactics option numbers list sorting gmap strings.

Local Open Scope string_scope.
Local Open Scope list_scope.
Local Open Scope Z_scope.

(** ** Values *)

Inductive pyfloat : Type :=
| FNum (q : Q)
| FInf (negative : bool)
| FNaN.


Definition is_nan (f : pyfloat) : bool :=
  match f with FNaN => true | _ => false end.

(** What [reading.get("value")] can be after [request.get_json]:
    [json.loads] also accepts the literals [NaN], [Infinity] and
    [-Infinity], which arrive as floats. *)
Inductive jvalue : Type :=
| JNull
| JBool (b : bool)
| JInt (n : Z)
| JFloat (f : pyfloat)
| JStr (s : string)
| JContainer.

(** A [datetime] as [fromisoformat] returns it: the wall-clock reading in
    microseconds and the UTC offset when the string carried one. *)
Record datetime : Type := {
  dt_wall : Z;
  dt_utcoffset : option Z
}.

(** Python truthiness of an optional string: [None] and [""] are falsy. *)
Definition truthy (o : option string) : bool :=
  match o with
  | Some s => negb (String.eqb s "")
  | None => false
  end.

(** [str.replace(old, new)] for one-character [old] and [new]. *)
Fixpoint replace_char (old new : ascii) (s : string) : string :=
  match s with
  | EmptyString => EmptyString
  | String c rest =>
      String (if Ascii.eqb c old then new else c) (replace_char old new rest)
  end.

(** [str.replace("Z", "+00:00")]. *)
Fixpoint replace_Z (s : string) : string :=
  match s with
  | EmptyString => EmptyString
  | String c rest =>
      if Ascii.eqb c "Z"%char then "+00:00" +:+ replace_Z rest
      else String c (replace_Z rest)
  end.

Definition is_upper (c : ascii) : bool :=
  let n := nat_of_ascii c in (65 <=? n)%nat && (n <=? 90)%nat.
Definition is_lower (c : ascii) : bool :=
  let n := nat_of_ascii c in (97 <=? n)%nat && (n <=? 122)%nat.
Definition to_upper (c : ascii) : ascii :=
  if is_lower c then ascii_of_nat (nat_of_ascii c - 32) else c.
Definition to_lower (c : ascii) : ascii :=
  if is_upper c then ascii_of_nat (nat_of_ascii c + 32) else c.

(** The Python builtins the program calls, whose code is not part of the
    repository: [float(n)] for an int ([None]: OverflowError), [float(s)]
    for a string ([None]: ValueError), [datetime.fromisoformat]
    ([None]: ValueError), [int(s)] for a string ([None]: ValueError) and
    [str.title], which follows the Unicode character database. *)
Class Builtins : Type := {
  float_of_int : Z -> option pyfloat;
  float_of_str : string -> option pyfloat;
  fromisoformat : string -> option datetime;
  int_of_str : string -> option Z;
  str_title : string -> string
}.

(** [str.title()] on ASCII text: a cased character is upper-cased when the
    one before it is not cased and lower-cased otherwise. *)
Fixpoint title_from (previous_is_cased : bool) (s : string) : string :=
  match s with
  | EmptyString => EmptyString
  | String c rest =>
      if is_lower c then
        String (if previous_is_cased then c else to_upper c) (title_from true rest)
      else if is_upper c then
        String (if previous_is_cased then to_lower c else c) (title_from true rest)
      else String c (title_from false rest)
  end.

Definition is_ascii (s : string) : bool :=
  forallb (fun c => (nat_of_ascii c <? 128)%nat) (list_ascii_of_string s).

(** [s.title()]: by the rule above on ASCII text, by the builtin on text
    with other characters. *)
Definition title `{Builtins} (s : string) : string :=
  if is_ascii s then title_from false s else str_title s.

(** ** Tables ([backend/models.py]) *)

(** [created_at] and [updated_at] are left out: no modelled operation reads
    them and no UPDATE is ever issued. *)
Record Sensor : Type := {
  s_id : Z;
  s_key : string;
  s_name : string;
  s_model : option string;
  s_location : option string;
  s_enabled : bool;
  s_poll_interval_sec : Z;
  s_unit_preference : string
}.

Record Measurement : Type := {
  m_id : Z;
  m_sensor_id : Z;
  m_metric : string;
  m_value : pyfloat;
  m_unit : string;
  m_recorded_at : Z
}.

Record Store : Type := {
  sensors : list Sensor;
  measurements : list Measurement
}.

(** The rowid SQLite gives to an inserted row: one more than the largest. *)
Definition next_id (ids : list Z) : Z := 1 + foldr Z.max 0 ids.

(** ** Control flow *)

(** The exceptions of the model, all of them subclasses of [Exception]. *)
Inductive pyexn : Type :=
| ValueError (msg : string)
| TypeError
| OverflowError
| IntegrityError
| MultipleResultsFound
| AttributeError
| OtherException (name : string).

(** The result of a call: a value or a raised exception. *)
Inductive result (A : Type) : Type :=
| Ret (a : A)
| Exn (e : pyexn).
Arguments Ret {A} a.
Arguments Exn {A} e.

(** How a block of statements ends: it runs to its end ([Next], with the
    block's local state), a [return] leaves it, or an exception that the
    block does not catch leaves it. *)
Inductive flow (R A : Type) : Type :=
| Next (a : A)
| Return (r : R)
| Raise (e : pyexn).
Arguments Next {R A} a.
Arguments Return {R A} r.
Arguments Raise {R A} e.

(** [session_scope] of [backend/db.py].  The body of the [with] block runs
    on the session's copy of the tables.  When control leaves the block
    without an exception -- at its end or through a [return] inside it --
    the generator resumes after [yield] and [session.commit()] runs; on an
    exception [session.rollback()] runs and the exception is raised
    again. *)
Definition session_scope {R A} (db : Store) (body : Store -> flow R A * Store)
  : flow R A * Store :=
  match body db with
  | (Raise e, _) => (Raise e, db)
  | (out, session) => (out, session)
  end.

(** What the client gets: a 200 with a payload, a 400 with an error
    message, or the framework's 500 for an exception the view let out. *)
Inductive response (A : Type) : Type :=
| Ok200 (payload : A)
| BadRequest400 (error : string)
| ServerError500.
Arguments Ok200 {A} payload.
Arguments BadRequest400 {A} error.
Arguments ServerError500 {A}.

(** ** Requests *)

(** One element of ["readings"], with the fields [normalize_reading]
    reads.  Each field has the type the agent's [SensorReading] gives it;
    [None] stands for a missing key or a null.  [r_value] keeps every JSON
    shape, since the code coerces it. *)
Record Reading : Type := {
  r_sensor_key : option string;
  r_sensor_name : option string;
  r_sensor_model : option string;
  r_sensor_location : option string;
  r_poll_interval_sec : option Z;
  r_metric : option string;
  r_value : jvalue;
  r_unit : option string;
  r_recorded_at : option string
}.

(** The dictionary [normalize_reading] returns. *)
Record ReadingData : Type := {
  d_sensor_key : string;
  d_sensor_name : option string;
  d_sensor_model : option string;
  d_sensor_location : option string;
  d_poll_interval_sec : option Z;
  d_metric : string;
  d_value : pyfloat;
  d_unit : string;
  d_recorded_at : Z
}.

(** The range SQLite's INTEGER holds; binding an int outside it raises. *)
Definition sqlite_int_ok (z : Z) : bool :=
  (- 2 ^ 63 <=? z) && (z <? 2 ^ 63).

Section Backend.

Context `{Builtins}.

(** [float(value)]. *)
Definition py_float (value : jvalue) : result pyfloat :=
  match value with
  | JNull => Exn TypeError
  | JBool b => Ret (FNum (if b then 1%Q else 0%Q))
  | JInt n =>
      match float_of_int n with
      | Some f => Ret f
      | None => Exn OverflowError
      end
  | JFloat f => Ret f
  | JStr s =>
      match float_of_str s with
      | Some f => Ret f
      | None =>
          Exn (ValueError ("could not convert string to float: '" +:+ s +:+ "'"))
      end
  | JContainer => Exn TypeError
  end.

(** [datetime.min] and [datetime.max], as instants: the first microsecond
    of the year 1 and the last one of the year 9999. *)
Definition datetime_min : Z := -62135596800000000.
Definition datetime_max : Z := 253402300799999999.

Definition in_datetime_range (t : Z) : bool :=
  (datetime_min <=? t) && (t <=? datetime_max).

(** [parsed.astimezone(timezone.utc)] for an aware [parsed]: a datetime
    that is in UTC already is returned as it is; for another offset the
    method computes [parsed - offset], which raises OverflowError outside
    the years 1 to 9999. *)
Definition astimezone_utc (wall offset : Z) : result Z :=
  if (offset =? 0) || in_datetime_range (wall - offset)
  then Ret (wall - offset)
  else Exn OverflowError.

(** [parse_iso8601] of [backend/utils.py]: the instant, in UTC. *)
Definition parse_iso8601 (value : string) : result Z :=
  if String.eqb value "" then Exn (ValueError "Timestamp value is required")
  else
    let normalized := replace_Z value in
    match fromisoformat normalized with
    | None =>
        Exn (ValueError ("Invalid isoformat string: '" +:+ normalized +:+ "'"))
    | Some parsed =>
        let offset := match dt_utcoffset parsed with
                      | None => 0
                      | Some off => off
                      end in
        astimezone_utc (dt_wall parsed) offset
    end.

(** [parse_optional_datetime] of [backend/api.py]. *)
Definition parse_optional_datetime (value : option string) : result (option Z) :=
  if negb (truthy value) then Ret None
  else match parse_iso8601 (default "" value) with
       | Ret t => Ret (Some t)
       | Exn e => Exn e
       end.

(** [x is None], for the value and for an optional string. *)
Definition value_is_None (v : jvalue) : bool :=
  match v with JNull => true | _ => false end.
Definition is_None {A} (o : option A) : bool :=
  match o with None => true | Some _ => false end.

(** [normalize_reading] of [backend/api.py]; [utcnow] is what [utcnow()]
    returns if this call reaches it. *)
Definition normalize_reading (utcnow : Z) (reading : Reading) : result ReadingData :=
  let sensor_key := r_sensor_key reading in
  let metric := r_metric reading in
  let value := r_value reading in
  let unit := r_unit reading in
  if negb (truthy sensor_key) || negb (truthy metric)
     || value_is_None value || is_None unit
  then Exn (ValueError "sensor_key, metric, value, and unit are required")
  else
    match py_float value with
    | Exn TypeError | Exn (ValueError _) =>
        Exn (ValueError "value must be a number")
    | Exn e => Exn e
    | Ret value_float =>
        let recorded_at := r_recorded_at reading in
        let recorded :=
          if truthy recorded_at then parse_iso8601 (default "" recorded_at)
          else Ret utcnow in
        match recorded with
        | Exn e => Exn e
        | Ret recorded_dt =>
            Ret {| d_sensor_key := default "" sensor_key;
                   d_sensor_name := r_sensor_name reading;
                   d_sensor_model := r_sensor_model reading;
                   d_sensor_location := r_sensor_location reading;
                   d_poll_interval_sec := r_poll_interval_sec reading;
                   d_metric := default "" metric;
                   d_value := value_float;
                   d_unit := default "" unit;
                   d_recorded_at := recorded_dt |}
        end
    end.

(** [session.query(Sensor).filter(Sensor.key == key).one_or_none()]. *)
Definition one_or_none (key : string) (rows : list Sensor) : result (option Sensor) :=
  match filter (fun s => s_key s = key) rows with
  | [] => Ret None
  | [s] => Ret (Some s)
  | _ => Exn MultipleResultsFound
  end.

(** [x or 60] on an optional int: [None] and [0] are falsy. *)
Definition or_default (x : option Z) (default : Z) : Z :=
  match x with
  | Some n => if n =? 0 then default else n
  | None => default
  end.

(** [get_or_create_sensor] of [backend/api.py].  [session.flush()] sends
    the INSERT, which gives the row its id; an int that does not fit
    SQLite's INTEGER makes it raise. *)
Definition get_or_create_sensor (session : Store) (data : ReadingData)
  : result (Sensor * Store) :=
  match one_or_none (d_sensor_key data) (sensors session) with
  | Exn e => Exn e
  | Ret (Some sensor) => Ret (sensor, session)
  | Ret None =>
      let name :=
        if truthy (d_sensor_name data)
        then default "" (d_sensor_name data)
        else title (replace_char "_" " " (d_sensor_key data)) in
      let poll := or_default (d_poll_interval_sec data) 60 in
      if sqlite_int_ok poll then
        let sensor := {| s_id := next_id (s_id <$> sensors session);
                         s_key := d_sensor_key data;
                         s_name := name;
                         s_model := d_sensor_model data;
                         s_location := d_sensor_location data;
                         s_enabled := true;
                         s_poll_interval_sec := poll;
                         s_unit_preference := "f" |} in
        Ret (sensor, {| sensors := sensors session ++ [sensor];
                        measurements := measurements session |})
      else Exn OverflowError
  end.

(** [session.add(Measurement(...))].  The row is sent at the next flush,
    at the latest by [commit]; SQLite binds a NaN as NULL and the column
    [value] is NOT NULL, so that flush raises and the request ends with a
    rollback.  The model raises at the [add]: between the two points the
    view can only reach the commit or raise itself. *)
Definition add_measurement (session : Store) (sensor : Sensor) (data : ReadingData)
  : result Store :=
  if is_nan (d_value data) then Exn IntegrityError
  else
    Ret {| sensors := sensors session;
           measurements :=
             measurements session ++
               [ {| m_id := next_id (m_id <$> measurements session);
                    m_sensor_id := s_id sensor;
                    m_metric := d_metric data;
                    m_value := d_value data;
                    m_unit := d_unit data;
                    m_recorded_at := d_recorded_at data |} ] |}.

(** The [for] loop of [post_measurements].  [clock i] is the time
    [utcnow()] returns while the record at position [i] is normalised. *)
Fixpoint ingest_loop (clock : nat -> Z) (i : nat) (created : nat)
    (readings : list Reading) (session : Store)
  : flow (response nat) nat * Store :=
  match readings with
  | [] => (Next created, session)
  | reading :: rest =>
      match normalize_reading (clock i) reading with
      | Exn (ValueError msg) => (Return (BadRequest400 msg), session)
      | Exn e => (Raise e, session)
      | Ret data =>
          match get_or_create_sensor session data with
          | Exn e => (Raise e, session)
          | Ret (sensor, session1) =>
              match add_measurement session1 sensor data with
              | Exn e => (Raise e, session1)
              | Ret session2 =>
                  ingest_loop clock (S i) (S created) rest session2
              end
          end
      end
  end.

(** [post_measurements] of [backend/api.py].  [readings] is
    [payload.get("readings")] when that is a list, [None] otherwise. *)
Definition post_measurements (clock : nat -> Z) (db : Store)
    (readings : option (list Reading)) : response nat * Store :=
  match readings with
  | None | Some [] => (BadRequest400 "readings must be a non-empty list", db)
  | Some rs =>
      match session_scope db (ingest_loop clock 0 0 rs) with
      | (Next created, db') => (Ok200 created, db')
      | (Return r, db') => (r, db')
      | (Raise _, db') => (ServerError500, db')
      end
  end.

(** *** Queries *)

(** A [Measurement] entity as a query returns it, with its [sensor]
    relationship loaded. *)
Definition MeasurementObj : Type := (Measurement * Sensor)%type.

(** [session.query(Measurement).join(Sensor)]: the inner join on
    [measurements.sensor_id = sensors.id], in table order. *)
Definition join_sensor (db : Store) : list MeasurementObj :=
  m ← measurements db;
  (fun s => (m, s)) <$> filter (fun s => s_id s = m_sensor_id m) (sensors db).

(** The many-to-one [sensor] relationship of a row, loaded by primary key. *)
Definition load_sensor (db : Store) (m : Measurement) : option Sensor :=
  snd <$> list_find (fun s => s_id s = m_sensor_id m) (sensors db).

(** [ORDER BY recorded_at] and [ORDER BY recorded_at DESC].  SQL leaves the
    order of rows with equal keys open; the model sorts with a merge sort. *)
Definition recorded_le {A} (recorded_at : A -> Z) : relation A :=
  fun a b => recorded_at a <= recorded_at b.
Definition recorded_ge {A} (recorded_at : A -> Z) : relation A :=
  fun a b => recorded_at b <= recorded_at a.

#[export] Instance recorded_le_dec {A} (f : A -> Z) : RelDecision (recorded_le f).
Proof. intros a b. unfold recorded_le. apply _. Defined.
#[export] Instance recorded_ge_dec {A} (f : A -> Z) : RelDecision (recorded_ge f).
Proof. intros a b. unfold recorded_ge. apply _. Defined.

Definition order_by {A} (recorded_at : A -> Z) (descending : bool) (rows : list A)
  : list A :=
  if descending then merge_sort (recorded_ge recorded_at) rows
  else merge_sort (recorded_le recorded_at) rows.

(** [LIMIT n] in SQLite, for the integer [n] bound to it: a negative [n]
    puts no bound on the rows. *)
Definition limit_rows {A} (n : Z) (rows : list A) : list A :=
  if n <? 0 then rows else take (Z.to_nat n) rows.

(** [query.limit(n).all()]: [n] is bound as a parameter of the statement,
    and an int outside SQLite's INTEGER raises OverflowError there. *)
Definition sql_limit {A} (n : Z) (rows : list A) : result (list A) :=
  if sqlite_int_ok n then Ret (limit_rows n rows) else Exn OverflowError.

(** [int(request.args.get(name, default))]: the parameter is text when it
    is given, and [int] raises ValueError on text that is no integer. *)
Definition int_arg (param : option string) (default : Z) : result Z :=
  match param with
  | None => Ret default
  | Some text =>
      match int_of_str text with
      | Some n => Ret n
      | None =>
          Exn (ValueError ("invalid literal for int() with base 10: '"
                           +:+ text +:+ "'"))
      end
  end.

(** The dictionary [serialize_measurement] builds; [p_sensor_key] is
    there when [include_sensor] is set. *)
Record MeasurementPayload : Type := {
  p_metric : string;
  p_value : pyfloat;
  p_unit : string;
  p_recorded_at : Z;
  p_sensor_key : option string
}.

Definition serialize_measurement (measurement : MeasurementObj)
    (include_sensor : bool) : MeasurementPayload :=
  {| p_metric := m_metric measurement.1;
     p_value := m_value measurement.1;
     p_unit := m_unit measurement.1;
     p_recorded_at := m_recorded_at measurement.1;
     p_sensor_key :=
       if include_sensor then Some (s_key measurement.2) else None |}.

(** The rows the query of [get_measurements] selects, before ORDER BY and
    LIMIT. *)
Definition in_range (start_dt end_dt : option Z) (t : Z) : Prop :=
  match start_dt with Some lo => lo <= t | None => True end
  /\ match end_dt with Some hi => t <= hi | None => True end.

#[export] Instance in_range_dec lo hi t : Decision (in_range lo hi t).
Proof. unfold in_range. destruct lo, hi; apply _. Defined.

Definition select_measurements (db : Store) (sensor_key metric : string)
    (start_dt end_dt : option Z) : list MeasurementObj :=
  filter (fun x => in_range start_dt end_dt (m_recorded_at x.1))
    (filter (fun x => s_key x.2 = sensor_key /\ m_metric x.1 = metric)
       (join_sensor db)).

(** [get_measurements] of [backend/api.py].  The arguments are the query
    parameters.  The [int] of the limit is outside the [try]: its
    ValueError is not caught, and neither is an exception of the query. *)
Definition get_measurements (db : Store)
    (sensor_key metric start_param end_param : option string)
    (limit_param : option string) (order_param : option string)
  : response (list MeasurementPayload) :=
  if negb (truthy sensor_key) || negb (truthy metric)
  then BadRequest400 "sensor_key and metric are required"
  else
    match int_arg limit_param 1440 with
    | Exn _ => ServerError500
    | Ret n =>
        let limit := Z.min n 10000 in
        let order := default "asc" order_param in
        match parse_optional_datetime start_param with
        | Exn (ValueError msg) => BadRequest400 msg
        | Exn _ => ServerError500
        | Ret start_dt =>
            match parse_optional_datetime end_param with
            | Exn (ValueError msg) => BadRequest400 msg
            | Exn _ => ServerError500
            | Ret end_dt =>
                let query :=
                  select_measurements db (default "" sensor_key)
                    (default "" metric) start_dt end_dt in
                let query :=
                  order_by (fun x => m_recorded_at x.1)
                    (String.eqb order "desc") query in
                match sql_limit limit query with
                | Exn _ => ServerError500
                | Ret measurements =>
                    Ok200 ((fun m => serialize_measurement m true)
                             <$> measurements)
                end
            end
        end
    end.

(** One element of the list [build_summary_payload] returns. *)
Record SummaryEntry : Type := {
  e_key : string;
  e_name : string;
  e_model : option string;
  e_location : option string;
  e_metrics : list MeasurementPayload
}.

(** [dict.setdefault] on a dictionary kept in insertion order. *)
Definition setdefault {V} (k : string) (v : V) (d : list (string * V))
  : list (string * V) :=
  match list_find (fun kv => kv.1 = k) d with
  | Some _ => d
  | None => d ++ [(k, v)]
  end.

(** The entry stored under [k], changed in place. *)
Definition update_entry {V} (k : string) (f : V -> V) (d : list (string * V))
  : list (string * V) :=
  (fun kv => if decide (kv.1 = k) then (kv.1, f kv.2) else kv) <$> d.

Definition append_metric (p : MeasurementPayload) (e : SummaryEntry) : SummaryEntry :=
  {| e_key := e_key e; e_name := e_name e; e_model := e_model e;
     e_location := e_location e; e_metrics := e_metrics e ++ [p] |}.

(** One turn of the loop of [build_summary_payload], on the two
    dictionaries [summary_map] and [metrics_seen]. *)
Definition summary_step
    (st : list (string * SummaryEntry) * gmap string (gset string))
    (measurement : MeasurementObj)
  : list (string * SummaryEntry) * gmap string (gset string) :=
  let sensor := measurement.2 in
  let summary_map :=
    setdefault (s_key sensor)
      {| e_key := s_key sensor; e_name := s_name sensor;
         e_model := s_model sensor; e_location := s_location sensor;
         e_metrics := [] |} st.1 in
  let seen := default ∅ (st.2 !! s_key sensor) in
  if decide (m_metric measurement.1 ∈ seen)
  then (summary_map, <[s_key sensor := seen]> st.2)
  else
    (update_entry (s_key sensor)
       (append_metric (serialize_measurement measurement false)) summary_map,
     <[s_key sensor := {[m_metric measurement.1]} ∪ seen]> st.2).

(** [build_summary_payload] of [backend/api.py]. *)
Definition build_summary_payload (measurements : list MeasurementObj)
  : list SummaryEntry :=
  snd <$> (foldl summary_step ([], ∅) measurements).1.

(** The entities of a query on [Measurement] alone: each row with its
    [sensor].  A row whose sensor is missing would have [sensor = None],
    and [build_summary_payload] raises on [sensor.key]. *)
Fixpoint load_all (db : Store) (rows : list Measurement) : result (list MeasurementObj) :=
  match rows with
  | [] => Ret []
  | m :: rest =>
      match load_sensor db m with
      | None => Exn AttributeError
      | Some s =>
          match load_all db rest with
          | Ret objs => Ret ((m, s) :: objs)
          | Exn e => Exn e
          end
      end
  end.

(** The rows [get_summary] scans: the [int] of the limit, then the query
    on [Measurement]. *)
Definition summary_scan (db : Store) (limit_param : option string)
  : result (list Measurement) :=
  match int_arg limit_param 400 with
  | Exn e => Exn e
  | Ret n =>
      let limit := Z.min n 2000 in
      sql_limit limit (order_by m_recorded_at true (measurements db))
  end.

(** [get_summary] of [backend/api.py], without [generated_at]; no
    exception is caught. *)
Definition get_summary (db : Store) (limit_param : option string)
  : response (list SummaryEntry) :=
  match summary_scan db limit_param with
  | Exn _ => ServerError500
  | Ret rows =>
      match load_all db rows with
      | Ret measurements => Ok200 (build_summary_payload measurements)
      | Exn _ => ServerError500
      end
  end.

(** [seed_default_sensors] of [backend/seed.py] with [DEFAULT_SENSORS]. *)
Definition DEFAULT_SENSORS : list (string * string * string * string * Z) :=
  [ ("ambient_bme280", "Ambient Air", "BME280", "Upper canopy", 60);
    ("uv_ltr390", "UV + Light", "LTR390", "Basking zone", 60);
    ("probe_ds18b20", "Warm Hide Probe", "DS18B20", "Warm hide", 60);
    ("ambient_bh1750", "Ambient Light", "BH1750", "Mid canopy", 60) ].

Definition seed_default_sensors (db : Store) : Store :=
  match sensors db with
  | _ :: _ => db
  | [] =>
      {| sensors :=
           imap (fun i '(key, name, model, location, poll) =>
                   {| s_id := Z.of_nat (S i); s_key := key; s_name := name;
                      s_model := Some model; s_location := Some location;
                      s_enabled := true; s_poll_interval_sec := poll;
                      s_unit_preference := "f" |}) DEFAULT_SENSORS;
         measurements := measurements db |}
  end.

End Backend.

(** ** The polling agent ([agent/agent.py]) *)

(** A reading of [time.time()] and a [next_run] are finite floats, in
    seconds: rationals.  Comparing two of them is exact; adding and
    subtracting is not, and is left to the class [FloatOps]. *)

(** The float arithmetic of [poll_loop] and [time.sleep], whose code is
    not part of the repository.  [float_add now interval_sec] is the float
    [now + interval_sec] for a clock reading and an int: the int is
    converted and the sum is rounded ([None]: OverflowError, for an int
    too large for a float).  [float_sub a b] is the float [a - b].
    [sleep_overflows seconds] tells whether [time.sleep(seconds)] raises
    OverflowError, as it does when the length does not fit its 64-bit
    count of nanoseconds.  The results of the first two are finite: the
    clock readings of [time.time()] are far from the end of the range of
    a float, where a sum could round to infinity. *)
Class FloatOps : Type := {
  float_add : Q -> Z -> option Q;
  float_sub : Q -> Q -> Q;
  sleep_overflows : Q -> bool
}.

Record SensorReading : Type := {
  sr_sensor_key : string;
  sr_metric : string;
  sr_value : pyfloat;
  sr_unit : string;
  sr_recorded_at : string;
  sr_sensor_name : option string;
  sr_sensor_model : option string;
  sr_sensor_location : option string;
  sr_poll_interval_sec : option Z
}.

(** The part of a sensor adapter the scheduler uses; what [read] does is
    given by the [World]. *)
Record SensorBase : Type := {
  key : string;
  interval_sec : Z
}.

Record SensorTask : Type := {
  sensor : SensorBase;
  next_run : Q
}.

(** What the outside does during a run of [poll_loop]: in iteration [n] of
    the [while] loop, for the task at position [i], the result of
    [task.sensor.read()] and of [post_readings]; the two values
    [time.time()] returns in iteration [n].  A [read] that returns
    something that is no list of readings makes [post_readings] raise. *)
Record World : Type := {
  read : nat -> nat -> result (list SensorReading);
  post : nat -> nat -> list SensorReading -> result unit;
  time_at_start : nat -> Q;
  time_at_sleep : nat -> Q
}.

(** What the scheduler does to the outside. *)
Inductive event : Type :=
| Read (i : nat)
| Post (i : nat) (batch : list SensorReading)
| Logged (i : nat) (exc : pyexn)
| Sleep (seconds : Q).

(** The body of the [try]: [readings = task.sensor.read()], then
    [post_readings] when [readings] is not empty. *)
Definition read_and_post (w : World) (n i : nat) : result unit * list event :=
  match read w n i with
  | Exn e => (Exn e, [Read i])
  | Ret readings =>
      match readings with
      | [] => (Ret (), [Read i])
      | _ :: _ =>
          match post w n i readings with
          | Exn e => (Exn e, [Read i; Post i readings])
          | Ret _ => (Ret (), [Read i; Post i readings])
          end
      end
  end.

(** [try: ... except Exception as exc: logging.exception(...)]. *)
Definition try_read_and_post (w : World) (n i : nat) : list event :=
  match read_and_post w n i with
  | (Ret _, events) => events
  | (Exn e, events) => events ++ [Logged i e]
  end.

(** [now >= task.next_run]. *)
Definition due (now : Q) (task : SensorTask) : bool := Qle_bool (next_run task) now.

Section Scheduler.

Context `{FloatOps}.

(** One turn of [for task in tasks], for the task at position [i].  The
    assignment to [task.next_run] is after the [try]: an OverflowError of
    the sum is not caught. *)
Definition poll_task (w : World) (n : nat) (now : Q) (i : nat) (task : SensorTask)
  : result SensorTask * list event :=
  if due now task then
    let events := try_read_and_post w n i in
    match float_add now (interval_sec (sensor task)) with
    | None => (Exn OverflowError, events)
    | Some next => (Ret {| sensor := sensor task; next_run := next |}, events)
    end
  else (Ret task, []).

(** [for task in tasks: ...], from position [i] on: the tasks as the loop
    leaves them, or the exception that ends it. *)
Fixpoint poll_tasks (w : World) (n : nat) (now : Q) (i : nat) (tasks : list SensorTask)
  : result (list SensorTask) * list event :=
  match tasks with
  | [] => (Ret [], [])
  | task :: rest =>
      match poll_task w n now i task with
      | (Exn e, events) => (Exn e, events)
      | (Ret task', events) =>
          match poll_tasks w n now (S i) rest with
          | (Exn e, events') => (Exn e, events ++ events')
          | (Ret rest', events') => (Ret (task' :: rest'), events ++ events')
          end
      end
  end.

(** [max(a, b)] and [min(list)] of Python: the first of the largest,
    the first of the smallest. *)
Definition py_max (a b : Q) : Q := if Qlt_le_dec a b then b else a.
Fixpoint py_min (first : Q) (rest : list Q) : Q :=
  match rest with
  | [] => first
  | x :: rest' => py_min (if Qlt_le_dec x first then x else first) rest'
  end.

(** [time.sleep]: a negative length raises ValueError, one that is too
    long raises OverflowError. *)
Definition py_sleep (seconds : Q) : result unit :=
  if Qlt_le_dec seconds 0
  then Exn (ValueError "sleep length must be non-negative")
  else if sleep_overflows seconds then Exn OverflowError
  else Ret ().

Definition sleep_for (next_times : list Q) (time : Q) : Q :=
  match next_times with
  | [] => 1%Q
  | t :: ts => py_max (1 # 2) (float_sub (py_min t ts) time)
  end.

(** The body of [while True] in [poll_loop], in iteration [n]: the tasks
    after it, or the exception that leaves the loop. *)
Definition poll_once (w : World) (n : nat) (tasks : list SensorTask)
  : result (list SensorTask) * list event :=
  let now := time_at_start w n in
  match poll_tasks w n now 0 tasks with
  | (Exn e, events) => (Exn e, events)
  | (Ret tasks', events) =>
      let next_times := next_run <$> tasks' in
      let seconds := sleep_for next_times (time_at_sleep w n) in
      match py_sleep seconds with
      | Exn e => (Exn e, events)
      | Ret _ => (Ret tasks', events ++ [Sleep seconds])
      end
  end.

(** [poll_loop], for [fuel] iterations starting with iteration [n]:
    [Ret] with the tasks when all of them ran, [Exn] when an exception
    left the loop. *)
Fixpoint poll_loop (w : World) (fuel : nat) (n : nat) (tasks : list SensorTask)
  : result (list SensorTask) * list event :=
  match fuel with
  | O => (Ret tasks, [])
  | S fuel' =>
      match poll_once w n tasks with
      | (Exn e, events) => (Exn e, events)
      | (Ret tasks', events) =>
          let '(r, events') := poll_loop w fuel' (S n) tasks' in
          (r, events ++ events')
      end
  end.

End Scheduler.

(** * Properties *)

(** ** The scheduler *)

(** The positions read in a trace, in order, and the sleeps. *)
Definition reads_of (events : list event) : list nat :=
  omap (fun e => match e with Read i => Some i | _ => None end) events.


(** The positions, counted from [i], of the tasks that are due. *)
Fixpoint due_positions (now : Q) (i : nat) (tasks : list SensorTask) : list nat :=
  match tasks with
  | [] => []
  | task :: rest =>
      if due now task then i :: due_positions now (S i) rest
      else due_positions now (S i) rest
  end.


Lemma reads_of_app e1 e2 : reads_of (e1 ++ e2) = reads_of e1 ++ reads_of e2.
Proof. unfold reads_of. apply omap_app. Qed.


Lemma try_read_and_post_reads w n i : reads_of (try_read_and_post w n i) = [i].
Proof.
  unfold try_read_and_post, read_and_post.
  destruct (read w n i) as [[|r rs]|e]; simpl; try done.
  destruct (post w n i (r :: rs)); done.
Qed.


Lemma py_max_lower a b : (a <= py_max a b)%Q.
Proof.
  unfold py_max. destruct (Qlt_le_dec a b).
  - by apply Qlt_le_weak.
  - apply Qle_refl.
Qed.

Section SchedulerProperties.

Context `{FloatOps}.

(** The sum [now + task.sensor.interval_sec] can be computed when the
    task is due. *)
Definition convertible (now : Q) (task : SensorTask) : Prop :=
  due now task = true -> is_Some (float_add now (interval_sec (sensor task))).

(** What the assignment after the [try] makes of a task, whatever its
    read and its post did. *)
Definition reschedule (now : Q) (task : SensorTask) : result SensorTask :=
  if due now task then
    match float_add now (interval_sec (sensor task)) with
    | Some next => Ret {| sensor := sensor task; next_run := next |}
    | None => Exn OverflowError
    end
  else Ret task.

Fixpoint reschedule_all (now : Q) (tasks : list SensorTask)
  : result (list SensorTask) :=
  match tasks with
  | [] => Ret []
  | task :: rest =>
      match reschedule now task with
      | Exn e => Exn e
      | Ret task' =>
          match reschedule_all now rest with
          | Exn e => Exn e
          | Ret rest' => Ret (task' :: rest')
          end
      end
  end.

(** The positions, counted from [i], of the tasks an iteration gets to:
    the due ones, up to the first whose sum cannot be computed. *)
Fixpoint attempted (now : Q) (i : nat) (tasks : list SensorTask) : list nat :=
  match tasks with
  | [] => []
  | task :: rest =>
      if due now task then
        i :: match float_add now (interval_sec (sensor task)) with
             | Some _ => attempted now (S i) rest
             | None => []
             end
      else attempted now (S i) rest
  end.

Lemma poll_task_fst w n now i task :
  (poll_task w n now i task).1 = reschedule now task.
Proof.
  unfold poll_task, reschedule. destruct (due now task); [|done].
  by destruct (float_add now _).
Qed.

Lemma poll_tasks_fst w n now tasks :
  forall i, (poll_tasks w n now i tasks).1 = reschedule_all now tasks.
Proof.
  induction tasks as [|task rest IH]; intros i; simpl; [done|].
  pose proof (poll_task_fst w n now i task) as Ht.
  destruct (poll_task w n now i task) as [[task'|e] events]; simpl in Ht;
    rewrite <- Ht; [|done].
  specialize (IH (S i)).
  destruct (poll_tasks w n now (S i) rest) as [[rest'|e] events'];
    simpl in IH; by rewrite <- IH.
Qed.

Lemma poll_tasks_reads w n now tasks :
  forall i, reads_of (poll_tasks w n now i tasks).2 = attempted now i tasks.
Proof.
  induction tasks as [|task rest IH]; intros i; simpl; [done|].
  unfold poll_task. specialize (IH (S i)).
  destruct (due now task); simpl.
  - destruct (float_add now _); simpl.
    + destruct (poll_tasks w n now (S i) rest) as [[rest'|e] events']; simpl in *.
      * by rewrite reads_of_app, try_read_and_post_reads, IH.
      * by rewrite reads_of_app, try_read_and_post_reads, IH.
    + by rewrite try_read_and_post_reads.
  - by destruct (poll_tasks w n now (S i) rest) as [[rest'|e] events'].
Qed.


Lemma attempted_due now tasks :
  Forall (convertible now) tasks ->
  forall i, attempted now i tasks = due_positions now i tasks.
Proof.
  induction 1 as [|task rest Htask _ IH]; intros i; simpl; [done|].
  unfold convertible in Htask. destruct (due now task); [|apply IH].
  destruct (Htask eq_refl) as [next ->]. by rewrite IH.
Qed.

Lemma reschedule_all_Ret now tasks :
  Forall (convertible now) tasks ->
  exists tasks',
    reschedule_all now tasks = Ret tasks'
    /\ Forall2 (fun task task' => reschedule now task = Ret task') tasks tasks'.
Proof.
  induction 1 as [|task rest Htask _ (rest' & Hrest & Hall)]; simpl.
  - exists []. split; [done|constructor].
  - assert (exists task', reschedule now task = Ret task') as [task' Htask'].
    { unfold reschedule, convertible in *. destruct (due now task); [|by eexists].
      destruct (Htask eq_refl) as [next ->]. by eexists. }
    rewrite Htask', Hrest. exists (task' :: rest'). split; [done|].
    by constructor.
Qed.


Lemma sleep_for_floor next_times time : (1 # 2 <= sleep_for next_times time)%Q.
Proof.
  unfold sleep_for. destruct next_times; [done|]. apply py_max_lower.
Qed.

(** The sleep of an iteration is never negative: [time.sleep] raises
    nothing but its OverflowError. *)
Lemma py_sleep_sleep_for next_times time :
  py_sleep (sleep_for next_times time)
  = if sleep_overflows (sleep_for next_times time)
    then Exn OverflowError else Ret ().
Proof.
  unfold py_sleep. destruct (Qlt_le_dec _ 0) as [Hlt|]; [|done].
  pose proof (sleep_for_floor next_times time) as Hfloor.
  exfalso. apply (Qlt_not_le _ _ Hlt).
  eapply Qle_trans; [|exact Hfloor]. done.
Qed.

(** An iteration, by what the assignments and the sleep do. *)
Lemma poll_once_run w n tasks :
  let now := time_at_start w n in
  let events := (poll_tasks w n now 0 tasks).2 in
  poll_once w n tasks =
    match reschedule_all now tasks with
    | Exn e => (Exn e, events)
    | Ret tasks' =>
        let seconds := sleep_for (next_run <$> tasks') (time_at_sleep w n) in
        if sleep_overflows seconds then (Exn OverflowError, events)
        else (Ret tasks', events ++ [Sleep seconds])
    end.
Proof.
  intros now events. unfold poll_once. fold now.
  pose proof (poll_tasks_fst w n now tasks 0%nat) as Hfst. unfold events.
  destruct (poll_tasks w n now 0 tasks) as [[tasks'|e] evs]; simpl in *;
    rewrite <- Hfst; [|done].
  rewrite py_sleep_sleep_for. by destruct (sleep_overflows _).
Qed.


Lemma poll_once_reads w n tasks :
  reads_of (poll_once w n tasks).2 = attempted (time_at_start w n) 0 tasks.
Proof.
  rewrite poll_once_run. simpl.
  destruct (reschedule_all _ tasks) as [tasks'|e']; simpl.
  - destruct (sleep_overflows _); simpl.
    + apply poll_tasks_reads.
    + rewrite reads_of_app, poll_tasks_reads. simpl. by rewrite app_nil_r.
  - apply poll_tasks_reads.
Qed.







End SchedulerProperties.

(** ** Ingestion *)

Section Ingestion.

Context `{Builtins}.

(** The constraints the schema of [backend/models.py] puts on the tables:
    [id] is the primary key, [key] is unique, and [sensor_id] is a foreign
    key. *)
Definition schema_ok (db : Store) : Prop :=
  NoDup (s_id <$> sensors db)
  /\ NoDup (s_key <$> sensors db)
  /\ Forall (fun m => m_sensor_id m ∈ (s_id <$> sensors db)) (measurements db).

(** What the storage layer takes of a batch, on a sensors table with the
    keys [keys]: no NaN in the NOT NULL column [value]; and, for a record
    that makes the loop create its sensor -- the first one with a key the
    table does not have --, a [poll_interval_sec] that fits SQLite's
    INTEGER.  The [poll_interval_sec] of a record whose sensor exists is
    not used. *)
Fixpoint batch_storable (keys : list string) (ds : list ReadingData) : Prop :=
  match ds with
  | [] => True
  | d :: rest =>
      is_nan (d_value d) = false
      /\ (d_sensor_key d ∉ keys ->
          sqlite_int_ok (or_default (d_poll_interval_sec d) 60) = true)
      /\ batch_storable (d_sensor_key d :: keys) rest
  end.

(** The row [post_measurements] builds for a normalised reading. *)
Definition row_of (id : Z) (sensor : Sensor) (d : ReadingData) : Measurement :=
  {| m_id := id; m_sensor_id := s_id sensor; m_metric := d_metric d;
     m_value := d_value d; m_unit := d_unit d; m_recorded_at := d_recorded_at d |}.

(** The sensor row [get_or_create_sensor] builds for an unseen key. *)
Definition new_sensor (id : Z) (d : ReadingData) : Sensor :=
  {| s_id := id;
     s_key := d_sensor_key d;
     s_name := if truthy (d_sensor_name d) then default "" (d_sensor_name d)
               else title (replace_char "_" " " (d_sensor_key d));
     s_model := d_sensor_model d;
     s_location := d_sensor_location d;
     s_enabled := true;
     s_poll_interval_sec := or_default (d_poll_interval_sec d) 60;
     s_unit_preference := "f" |}.

(** The part of the loop of [post_measurements] after [normalize_reading],
    on readings that are already normalised. *)
Fixpoint ingest_data (session : Store) (ds : list ReadingData) : result Store :=
  match ds with
  | [] => Ret session
  | d :: rest =>
      match get_or_create_sensor session d with
      | Exn e => Exn e
      | Ret (sensor, session1) =>
          match add_measurement session1 sensor d with
          | Exn e => Exn e
          | Ret session2 => ingest_data session2 rest
          end
      end
  end.

Lemma next_id_above ids x : x ∈ ids -> x < next_id ids.
Proof.
  unfold next_id. induction ids as [|y ids IH]; intros Hx; simpl.
  - by apply elem_of_nil in Hx.
  - apply elem_of_cons in Hx as [->|Hx]; [lia|]. specialize (IH Hx). lia.
Qed.

Lemma next_id_fresh ids : next_id ids ∉ ids.
Proof. intros Hin. apply next_id_above in Hin. lia. Qed.

Lemma filter_key_absent key (rows : list Sensor) :
  key ∉ (s_key <$> rows) -> filter (fun s => s_key s = key) rows = [].
Proof.
  induction rows as [|s rows IH]; intros Hkey; [done|].
  rewrite fmap_cons, not_elem_of_cons in Hkey. destruct Hkey as [Hne Hkey].
  rewrite filter_cons_False by congruence. by apply IH.
Qed.

Lemma filter_key_present (rows : list Sensor) s :
  NoDup (s_key <$> rows) -> s ∈ rows ->
  filter (fun s' => s_key s' = s_key s) rows = [s].
Proof.
  induction rows as [|s0 rows IH]; intros Hnd Hin.
  - by apply elem_of_nil in Hin.
  - rewrite fmap_cons in Hnd. apply NoDup_cons in Hnd as [Hfresh Hnd].
    apply elem_of_cons in Hin as [->|Hin].
    + rewrite filter_cons_True by done. by rewrite filter_key_absent.
    + rewrite filter_cons_False.
      * by apply IH.
      * intros Heq. apply Hfresh. rewrite Heq. by apply list_elem_of_fmap_2.
Qed.

Lemma filter_id_absent id (rows : list Sensor) :
  id ∉ (s_id <$> rows) -> filter (fun s => s_id s = id) rows = [].
Proof.
  induction rows as [|s rows IH]; intros Hid; [done|].
  rewrite fmap_cons, not_elem_of_cons in Hid. destruct Hid as [Hne Hid].
  rewrite filter_cons_False by congruence. by apply IH.
Qed.

Lemma filter_id_present (rows : list Sensor) s :
  NoDup (s_id <$> rows) -> s ∈ rows ->
  filter (fun s' => s_id s' = s_id s) rows = [s].
Proof.
  induction rows as [|s0 rows IH]; intros Hnd Hin.
  - by apply elem_of_nil in Hin.
  - rewrite fmap_cons in Hnd. apply NoDup_cons in Hnd as [Hfresh Hnd].
    apply elem_of_cons in Hin as [->|Hin].
    + rewrite filter_cons_True by done. by rewrite filter_id_absent.
    + rewrite filter_cons_False.
      * by apply IH.
      * intros Heq. apply Hfresh. rewrite Heq. by apply list_elem_of_fmap_2.
Qed.

Lemma one_or_none_absent key rows :
  key ∉ (s_key <$> rows) -> one_or_none key rows = Ret None.
Proof. intros Hkey. unfold one_or_none. by rewrite filter_key_absent. Qed.

Lemma one_or_none_present rows s :
  NoDup (s_key <$> rows) -> s ∈ rows -> one_or_none (s_key s) rows = Ret (Some s).
Proof. intros Hnd Hin. unfold one_or_none. by rewrite filter_key_present. Qed.

(** Whatever [one_or_none] finds is a row of the table with that key. *)
Lemma one_or_none_found key rows s :
  one_or_none key rows = Ret (Some s) -> s ∈ rows /\ s_key s = key.
Proof.
  unfold one_or_none. intros Hone.
  destruct (filter _ rows) as [|s0 [|s1 rest]] eqn:Hf; simplify_eq.
  assert (s ∈ filter (fun s' => s_key s' = key) rows) as Hin
    by (rewrite Hf; apply list_elem_of_here).
  apply list_elem_of_filter in Hin. tauto.
Qed.

Lemma one_or_none_missing key rows :
  one_or_none key rows = Ret None -> key ∉ (s_key <$> rows).
Proof.
  unfold one_or_none. intros Hone.
  destruct (filter _ rows) as [|s0 [|s1 rest]] eqn:Hf; simplify_eq.
  intros Hin. apply list_elem_of_fmap in Hin as (s & -> & Hin).
  by apply (filter_nil_not_elem_of _ _ s Hf).
Qed.

(** [get_or_create_sensor], by cases. *)
Lemma get_or_create_sensor_existing session d s :
  NoDup (s_key <$> sensors session) -> s ∈ sensors session ->
  s_key s = d_sensor_key d ->
  get_or_create_sensor session d = Ret (s, session).
Proof.
  intros Hnd Hin Hkey. unfold get_or_create_sensor.
  by rewrite <- Hkey, one_or_none_present.
Qed.

Lemma get_or_create_sensor_unseen session d :
  d_sensor_key d ∉ (s_key <$> sensors session) ->
  sqlite_int_ok (or_default (d_poll_interval_sec d) 60) = true ->
  let sensor := new_sensor (next_id (s_id <$> sensors session)) d in
  get_or_create_sensor session d =
    Ret (sensor, {| sensors := sensors session ++ [sensor];
                    measurements := measurements session |}).
Proof.
  intros Hkey Hfit. unfold get_or_create_sensor.
  rewrite one_or_none_absent by done. by rewrite Hfit.
Qed.

(** The sensors table only grows at its end, and only by rows with unseen
    keys. *)
Lemma get_or_create_sensor_grows session d sensor session1 :
  get_or_create_sensor session d = Ret (sensor, session1) ->
  measurements session1 = measurements session
  /\ s_key sensor = d_sensor_key d
  /\ sensor ∈ sensors session1
  /\ ((sensors session1 = sensors session /\ sensor ∈ sensors session)
      \/ (sensors session1 = sensors session ++ [sensor]
          /\ (d_sensor_key d ∉ (s_key <$> sensors session))
          /\ sensor = new_sensor (next_id (s_id <$> sensors session)) d)).
Proof.
  unfold get_or_create_sensor.
  destruct (one_or_none _ _) as [[s|]|e] eqn:Hone; [| |done].
  - intros [= <- <-]. apply one_or_none_found in Hone as [Hin Hkey].
    split; [done|]. split; [done|]. split; [done|]. by left.
  - destruct (sqlite_int_ok _); [|done]. intros [= <- <-]. simpl.
    apply one_or_none_missing in Hone.
    split; [done|]. split; [done|]. split; [set_solver|].
    right. by repeat split.
Qed.

(** The inner join, on lists of rows. *)
Definition join_rows (ms : list Measurement) (ss : list Sensor) : list MeasurementObj :=
  m ← ms; (fun s => (m, s)) <$> filter (fun s => s_id s = m_sensor_id m) ss.

Lemma join_sensor_rows db : join_sensor db = join_rows (measurements db) (sensors db).
Proof. done. Qed.

Lemma join_rows_app ms ms' ss :
  join_rows (ms ++ ms') ss = join_rows ms ss ++ join_rows ms' ss.
Proof. unfold join_rows. apply bind_app. Qed.

Lemma join_rows_one m ss s :
  NoDup (s_id <$> ss) -> s ∈ ss -> m_sensor_id m = s_id s ->
  join_rows [m] ss = [(m, s)].
Proof.
  intros Hnd Hin Hid. unfold join_rows. simpl. rewrite app_nil_r, Hid.
  by rewrite filter_id_present.
Qed.

Lemma join_rows_new_sensor ms ss s :
  Forall (fun m => m_sensor_id m ∈ (s_id <$> ss)) ms ->
  s_id s ∉ (s_id <$> ss) ->
  join_rows ms (ss ++ [s]) = join_rows ms ss.
Proof.
  intros Hfk Hfresh. induction Hfk as [|m ms Hm Hfk IH]; [done|].
  change (m :: ms) with ([m] ++ ms). rewrite !join_rows_app, IH. f_equal.
  unfold join_rows. simpl. rewrite !app_nil_r, filter_app.
  rewrite (filter_cons_False _ s); [by rewrite filter_nil, app_nil_r|].
  intros Heq. apply Hfresh. by rewrite Heq.
Qed.

Lemma prefix_elem_of {A} (l1 l2 : list A) x : l1 `prefix_of` l2 -> x ∈ l1 -> x ∈ l2.
Proof. intros [k ->] Hx. apply elem_of_app. by left. Qed.

(** One turn of the loop on a store that meets the schema. *)
Lemma batch_storable_keys ds :
  forall keys keys',
    (forall k, k ∈ keys <-> k ∈ keys') ->
    batch_storable keys ds -> batch_storable keys' ds.
Proof.
  induction ds as [|d ds IH]; intros keys keys' Hsame; simpl; [done|].
  intros (Hnan & Hfit & Hrest). split; [done|]. split.
  - intros Hk. apply Hfit. by rewrite Hsame.
  - apply (IH (d_sensor_key d :: keys)); [|done].
    intros k. rewrite !elem_of_cons. by rewrite Hsame.
Qed.

Lemma ingest_step_ok s d :
  schema_ok s ->
  is_nan (d_value d) = false ->
  (d_sensor_key d ∉ (s_key <$> sensors s) ->
   sqlite_int_ok (or_default (d_poll_interval_sec d) 60) = true) ->
  exists sensor s2,
    ingest_data s [d] = Ret s2
    /\ schema_ok s2
    /\ sensors s `prefix_of` sensors s2
    /\ sensor ∈ sensors s2
    /\ s_key sensor = d_sensor_key d
    /\ measurements s2 =
         measurements s ++ [row_of (next_id (m_id <$> measurements s)) sensor d]
    /\ join_sensor s2 =
         join_sensor s ++ [(row_of (next_id (m_id <$> measurements s)) sensor d, sensor)]
    /\ (forall k, k ∈ (s_key <$> sensors s2)
                  <-> k ∈ d_sensor_key d :: (s_key <$> sensors s)).
Proof.
  intros (Hids & Hkeys & Hfk) Hnan Hfit. simpl.
  destruct (decide (d_sensor_key d ∈ (s_key <$> sensors s))) as [Hseen|Hunseen].
  - apply list_elem_of_fmap in Hseen as (sensor & Hkey & Hin).
    rewrite (get_or_create_sensor_existing s d sensor) by done.
    unfold add_measurement. rewrite Hnan. eexists sensor, _.
    split; [done|]. simpl.
    split; [|split; [done|split; [done|split; [done|split; [done|split]]]]].
    + split; [done|]. split; [done|]. simpl. apply Forall_app. split; [done|].
      apply Forall_singleton. simpl. by apply list_elem_of_fmap_2.
    + rewrite !join_sensor_rows. simpl. rewrite join_rows_app. f_equal.
      by apply join_rows_one.
    + intros k. rewrite elem_of_cons. split; [by right|].
      intros [->|Hk]; [|done]. rewrite Hkey. by apply list_elem_of_fmap_2.
  - rewrite get_or_create_sensor_unseen by (by auto).
    unfold add_measurement. rewrite Hnan. simpl.
    set (sensor := new_sensor (next_id (s_id <$> sensors s)) d).
    assert (s_id sensor ∉ (s_id <$> sensors s)) as Hfresh by apply next_id_fresh.
    assert (NoDup (s_id <$> sensors s ++ [sensor])) as Hids'.
    { rewrite fmap_app. apply NoDup_app. split; [done|]. split.
      - intros x Hx Hx'. apply list_elem_of_singleton in Hx'. by subst x.
      - apply NoDup_singleton. }
    eexists sensor, _. split; [done|]. simpl.
    split; [|split; [by apply prefix_app_r|split; [set_solver|split; [done|split; [done|split]]]]].
    + split; [done|]. split; simpl.
      * rewrite fmap_app. apply NoDup_app. split; [done|]. split.
        -- intros x Hx Hx'. apply list_elem_of_singleton in Hx'. by subst x.
        -- apply NoDup_singleton.
      * apply Forall_app. split.
        -- eapply Forall_impl; [exact Hfk|]. intros m Hm. simpl in Hm.
           rewrite fmap_app. apply elem_of_app. by left.
        -- apply Forall_singleton. simpl. rewrite fmap_app. set_solver.
    + rewrite !join_sensor_rows. simpl. rewrite join_rows_app. f_equal.
      * by apply join_rows_new_sensor.
      * apply join_rows_one; [done|set_solver|done].
    + intros k. rewrite fmap_app, elem_of_app, elem_of_cons. simpl.
      rewrite list_elem_of_singleton. tauto.
Qed.

Lemma ingest_data_cons s d ds :
  ingest_data s (d :: ds) =
    match ingest_data s [d] with
    | Ret s2 => ingest_data s2 ds
    | Exn e => Exn e
    end.
Proof.
  simpl. destruct (get_or_create_sensor s d) as [[sensor s1]|e]; [|done].
  by destruct (add_measurement s1 sensor d).
Qed.

(** What a loop over storable readings does to a store that meets the
    schema: it ends, the schema still holds, the sensors table has grown
    at its end, and the join has grown by one row per reading, each with
    the reading's fields under the sensor of the reading's key. *)
Lemma ingest_data_ok ds :
  forall s, schema_ok s -> batch_storable (s_key <$> sensors s) ds ->
  exists s' objs,
    ingest_data s ds = Ret s'
    /\ schema_ok s'
    /\ sensors s `prefix_of` sensors s'
    /\ measurements s' = measurements s ++ objs.*1
    /\ join_sensor s' = join_sensor s ++ objs
    /\ Forall2 (fun obj d => obj.1 = row_of (m_id obj.1) obj.2 d
                             /\ s_key obj.2 = d_sensor_key d) objs ds.
Proof.
  induction ds as [|d ds IH]; intros s Hs Hds.
  - exists s, []. simpl. rewrite !app_nil_r.
    split; [done|]. split; [done|]. split; [done|]. split; [done|].
    split; [done|]. constructor.
  - destruct Hds as (Hnan & Hfit & Hds).
    destruct (ingest_step_ok s d Hs Hnan Hfit)
      as (sensor & s2 & Hstep & Hs2 & Hpre & Hin & Hkey & Hms & Hjoin & Hkeys2).
    assert (batch_storable (s_key <$> sensors s2) ds) as Hds2.
    { eapply batch_storable_keys; [|exact Hds]. intros k. by rewrite Hkeys2. }
    destruct (IH s2 Hs2 Hds2) as (s' & objs & Hrun & Hs' & Hpre' & Hms' & Hjoin' & Hobjs).
    exists s', ((row_of (next_id (m_id <$> measurements s)) sensor d, sensor) :: objs).
    rewrite ingest_data_cons, Hstep.
    split; [done|]. split; [done|]. split; [by etrans|].
    split; [by rewrite Hms', Hms, <- app_assoc|].
    split; [by rewrite Hjoin', Hjoin, <- app_assoc|].
    by constructor.
Qed.

(** [normalize_reading] on each record of a batch, the record at position
    [i] with the clock of that position. *)
Fixpoint normalize_from (clock : nat -> Z) (i : nat) (rs : list Reading)
  : list (result ReadingData) :=
  match rs with
  | [] => []
  | r :: rest => normalize_reading (clock i) r :: normalize_from clock (S i) rest
  end.

Lemma normalize_from_app clock i rs rs' :
  normalize_from clock i (rs ++ rs') =
    normalize_from clock i rs ++ normalize_from clock (i + length rs) rs'.
Proof.
  revert i. induction rs as [|r rs IH]; intros i; simpl.
  - by rewrite Nat.add_0_r.
  - rewrite IH. do 3 f_equal. lia.
Qed.

(** The loop of [post_measurements] on a batch whose records all pass
    [normalize_reading]. *)
Lemma ingest_loop_valid clock rs :
  forall i created ds s,
    normalize_from clock i rs = Ret <$> ds ->
    match ingest_data s ds with
    | Ret s' => ingest_loop clock i created rs s = (Next (created + length ds)%nat, s')
    | Exn e => exists sx, ingest_loop clock i created rs s = (Raise e, sx)
    end.
Proof.
  induction rs as [|r rs IH]; intros i created ds s Hnorm.
  - destruct ds; [|done]. simpl. by rewrite Nat.add_0_r.
  - destruct ds as [|d ds]; [done|]. simpl in Hnorm.
    injection Hnorm as Hr Hrest. simpl. rewrite Hr.
    destruct (get_or_create_sensor s d) as [[sensor s1]|e]; [|by eexists].
    destruct (add_measurement s1 sensor d) as [s2|e]; [|by eexists].
    specialize (IH (S i) (S created) ds s2 Hrest).
    destruct (ingest_data s2 ds); [|done].
    rewrite IH. do 2 f_equal. lia.
Qed.


(** What a reading that passes [normalize_reading] looks like, and what
    the normalised reading takes from it. *)
Lemma normalize_reading_Ret now r d :
  normalize_reading now r = Ret d ->
  r_sensor_key r = Some (d_sensor_key d) /\ d_sensor_key d <> ""
  /\ r_metric r = Some (d_metric d) /\ d_metric d <> ""
  /\ r_unit r = Some (d_unit d)
  /\ py_float (r_value r) = Ret (d_value d)
  /\ d_sensor_name d = r_sensor_name r
  /\ d_sensor_model d = r_sensor_model r
  /\ d_sensor_location d = r_sensor_location r
  /\ d_poll_interval_sec d = r_poll_interval_sec r
  /\ (if truthy (r_recorded_at r)
      then exists s, r_recorded_at r = Some s /\ parse_iso8601 s = Ret (d_recorded_at d)
      else d_recorded_at d = now).
Proof.
  unfold normalize_reading.
  destruct (r_sensor_key r) as [key|] eqn:Hkey; [|done].
  destruct (r_metric r) as [met|] eqn:Hmet; simpl;
    [|by destruct (String.eqb key "")].
  destruct (String.eqb_spec key "") as [|Hk]; [done|].
  destruct (String.eqb_spec met "") as [|Hm]; [done|]. simpl.
  destruct (value_is_None (r_value r)); [done|]. simpl.
  destruct (r_unit r) as [un|] eqn:Hun; [|done]. simpl.
  destruct (py_float (r_value r)) as [fl|e] eqn:Hfl; [|by destruct e].
  destruct (r_recorded_at r) as [ts|] eqn:Hts; simpl.
  - destruct (String.eqb ts ""); simpl.
    + intros [= <-]. simpl. by repeat split.
    + destruct (parse_iso8601 ts) as [t|e] eqn:Hp; [|done].
      intros [= <-]. simpl. repeat split; try done. by exists ts.
  - intros [= <-]. simpl. by repeat split.
Qed.

(** A loop that reaches its end has normalised every record. *)
Lemma ingest_loop_Next_inv clock rs :
  forall i created s n s',
    ingest_loop clock i created rs s = (Next n, s') ->
    exists ds, normalize_from clock i rs = Ret <$> ds
               /\ ingest_data s ds = Ret s'
               /\ n = (created + length rs)%nat.
Proof.
  induction rs as [|r rs IH]; intros i created s n s' Hloop; simpl in Hloop.
  - injection Hloop as <- <-. exists []. simpl. by rewrite Nat.add_0_r.
  - destruct (normalize_reading (clock i) r) as [d|e] eqn:Hr;
      [|by destruct e].
    destruct (get_or_create_sensor s d) as [[sensor s1]|e] eqn:Hget; [|done].
    destruct (add_measurement s1 sensor d) as [s2|e] eqn:Hadd; [|done].
    apply IH in Hloop as (ds & Hnorm & Hdata & ->).
    exists (d :: ds). simpl. rewrite Hr, Hnorm, Hget, Hadd.
    split; [done|]. split; [done|]. lia.
Qed.

(** The only [return] in the loop answers 400. *)
Lemma ingest_loop_Return_inv clock rs :
  forall i created s resp s',
    ingest_loop clock i created rs s = (Return resp, s') ->
    exists msg, resp = BadRequest400 msg.
Proof.
  induction rs as [|r rs IH]; intros i created s resp s' Hloop;
    simpl in Hloop; [done|].
  destruct (normalize_reading (clock i) r) as [d|e].
  - destruct (get_or_create_sensor s d) as [[sensor s1]|e]; [|done].
    destruct (add_measurement s1 sensor d) as [s2|e]; [|done].
    by apply IH in Hloop.
  - destruct e; simplify_eq. by eexists.
Qed.

(** Whatever the loop does, the session's sensors table has grown at its
    end, by rows built by [new_sensor] from readings of the batch whose
    keys the table did not have. *)
Lemma ingest_loop_sensors clock rs :
  forall i created s out s',
    ingest_loop clock i created rs s = (out, s') ->
    exists added,
      sensors s' = sensors s ++ added
      /\ Forall (fun sensor => exists j r d id,
                   rs !! j = Some r
                   /\ normalize_reading (clock (i + j)%nat) r = Ret d
                   /\ (d_sensor_key d ∉ (s_key <$> sensors s))
                   /\ sensor = new_sensor id d) added.
Proof.
  induction rs as [|r rs IH]; intros i created s out s' Hloop; simpl in Hloop.
  - injection Hloop as <- <-. exists []. by rewrite app_nil_r.
  - destruct (normalize_reading (clock i) r) as [d|e] eqn:Hr.
    2:{ exists []. rewrite app_nil_r. split; [|done].
        by destruct e; injection Hloop as <- <-. }
    destruct (get_or_create_sensor s d) as [[sensor s1]|e] eqn:Hget.
    2:{ injection Hloop as <- <-. exists []. by rewrite app_nil_r. }
    apply get_or_create_sensor_grows in Hget as (Hms & Hkey & Hin & Hcases).
    assert (exists added1, sensors s1 = sensors s ++ added1
              /\ Forall (fun sensor => exists j r0 d0 id,
                   (r :: rs) !! j = Some r0
                   /\ normalize_reading (clock (i + j)%nat) r0 = Ret d0
                   /\ (d_sensor_key d0 ∉ (s_key <$> sensors s))
                   /\ sensor = new_sensor id d0) added1) as (added1 & Hs1 & Hadded1).
    { destruct Hcases as [[Heq _]|(Heq & Hunseen & Hnew)].
      - exists []. by rewrite app_nil_r.
      - exists [sensor]. split; [done|]. apply Forall_singleton.
        exists 0%nat, r, d, (next_id (s_id <$> sensors s)).
        by rewrite Nat.add_0_r. }
    destruct (add_measurement s1 sensor d) as [s2|e] eqn:Hadd.
    2:{ injection Hloop as <- <-. by exists added1. }
    assert (sensors s2 = sensors s1) as Hs2.
    { unfold add_measurement in Hadd. destruct (is_nan _); [done|].
      by injection Hadd as <-. }
    apply IH in Hloop as (added & Hs' & Hadded).
    exists (added1 ++ added). split.
    + by rewrite Hs', Hs2, Hs1, <- app_assoc.
    + apply Forall_app. split; [done|].
      eapply Forall_impl; [exact Hadded|].
      intros sensor' (j & r0 & d0 & id & Hj & Hnorm & Hunseen & ->).
      exists (S j), r0, d0, id. split; [done|]. split; [by rewrite Nat.add_succ_r|].
      split; [|done]. intros Hold. apply Hunseen.
      rewrite Hs2, Hs1, fmap_app. apply elem_of_app. by left.
Qed.

(** The same for the whole view: whatever the answer, the sensors table
    of the store has grown at its end, by rows with keys it did not
    have. *)
Lemma post_measurements_sensors clock db readings :
  exists added,
    sensors (post_measurements clock db readings).2 = sensors db ++ added
    /\ Forall (fun sensor => exists r now d id,
                 r ∈ default [] readings
                 /\ normalize_reading now r = Ret d
                 /\ (d_sensor_key d ∉ (s_key <$> sensors db))
                 /\ sensor = new_sensor id d) added.
Proof.
  unfold post_measurements, session_scope.
  destruct readings as [[|r rs]|]; try (exists []; by rewrite app_nil_r).
  destruct (ingest_loop clock 0 0 (r :: rs) db) as [out s'] eqn:Hloop.
  apply ingest_loop_sensors in Hloop as (added & Hs' & Hadded).
  assert (Forall (fun sensor => exists r0 now d id,
                 r0 ∈ r :: rs
                 /\ normalize_reading now r0 = Ret d
                 /\ (d_sensor_key d ∉ (s_key <$> sensors db))
                 /\ sensor = new_sensor id d) added) as Hadded'.
  { eapply Forall_impl; [exact Hadded|].
    intros sensor (j & r0 & d0 & id & Hj & Hnorm & Hunseen & ->).
    exists r0, (clock (0 + j)%nat), d0, id. split; [|done].
    by eapply list_elem_of_lookup_2. }
  destruct out; simpl; try by exists added.
  exists []. by rewrite app_nil_r.
Qed.

Lemma normalize_from_lookup clock rs :
  forall i j, normalize_from clock i rs !! j
              = (fun r => normalize_reading (clock (i + j)%nat) r) <$> rs !! j.
Proof.
  induction rs as [|r rs IH]; intros i j; [done|].
  destruct j as [|j]; simpl.
  - by rewrite Nat.add_0_r.
  - rewrite IH. by rewrite Nat.add_succ_r.
Qed.

Lemma length_normalize_from clock rs :
  forall i, length (normalize_from clock i rs) = length rs.
Proof. induction rs as [|r rs IH]; intros i; simpl; [done|]. by rewrite IH. Qed.

Lemma normalize_from_length clock i rs ds :
  normalize_from clock i rs = Ret <$> ds -> length ds = length rs.
Proof.
  intros Hnorm. apply (f_equal length) in Hnorm.
  by rewrite length_fmap, length_normalize_from in Hnorm.
Qed.

Lemma add_measurement_sensors s1 sensor d s2 :
  add_measurement s1 sensor d = Ret s2 -> sensors s2 = sensors s1.
Proof.
  unfold add_measurement. destruct (is_nan _); [done|]. by intros [= <-].
Qed.

Lemma ingest_data_prefix ds :
  forall s s', ingest_data s ds = Ret s' -> sensors s `prefix_of` sensors s'.
Proof.
  induction ds as [|d ds IH]; intros s s' Hrun; simpl in Hrun.
  - by injection Hrun as <-.
  - destruct (get_or_create_sensor s d) as [[sensor s1]|e] eqn:Hget; [|done].
    destruct (add_measurement s1 sensor d) as [s2|e] eqn:Hadd; [|done].
    apply get_or_create_sensor_grows in Hget as (_ & _ & _ & Hcases).
    apply add_measurement_sensors in Hadd. apply IH in Hrun.
    rewrite Hadd in Hrun. etrans; [|exact Hrun].
    destruct Hcases as [[-> _]|[-> _]]; [done|]. by apply prefix_app_r.
Qed.

(** Readings for sensors that all exist: the sensors table stays as it
    is, and each reading adds its row under the sensor found. *)
Lemma ingest_data_existing ds :
  forall s,
    NoDup (s_key <$> sensors s) ->
    Forall (fun d => d_sensor_key d ∈ (s_key <$> sensors s)) ds ->
    Forall (fun d => is_nan (d_value d) = false) ds ->
    exists rows,
      ingest_data s ds =
        Ret {| sensors := sensors s; measurements := measurements s ++ rows |}
      /\ Forall2 (fun row d => exists sensor,
                    sensor ∈ sensors s /\ s_key sensor = d_sensor_key d
                    /\ row = row_of (m_id row) sensor d) rows ds.
Proof.
  induction ds as [|d ds IH]; intros s Hnd Hkeys Hnan.
  - exists []. simpl. rewrite app_nil_r. split; [by destruct s|constructor].
  - apply Forall_cons in Hkeys as [Hkey Hkeys].
    apply Forall_cons in Hnan as [Hd Hnan].
    apply list_elem_of_fmap in Hkey as (sensor & Hkey & Hin).
    simpl. rewrite (get_or_create_sensor_existing s d sensor) by done.
    unfold add_measurement. rewrite Hd.
    set (row := {| m_id := next_id (m_id <$> measurements s);
                   m_sensor_id := s_id sensor; m_metric := d_metric d;
                   m_value := d_value d; m_unit := d_unit d;
                   m_recorded_at := d_recorded_at d |}).
    destruct (IH {| sensors := sensors s; measurements := measurements s ++ [row] |})
      as (rows & Hrun & Hrows); [done..|].
    exists (row :: rows). simpl in *. rewrite Hrun, <- app_assoc.
    split; [done|]. constructor; [|done]. by exists sensor.
Qed.

(** C10: whatever the batch and the answer, every sensor row of the
    store stays as it was and where it was, and no row is added under a
    key the store has.  A batch whose records all name sensors that exist
    leaves the sensors table as it was -- the name, model, location and
    poll_interval_sec the records carry are not used -- and appends one
    measurement per record, under the sensor that has the record's key. *)
Theorem ingest_for_existing_sensor_leaves_row
    (clock : nat -> Z) (db : Store) (batch : list Reading) (ds : list ReadingData) :
  batch <> [] ->
  NoDup (s_key <$> sensors db) ->
  normalize_from clock 0 batch = Ret <$> ds ->
  Forall (fun d => d_sensor_key d ∈ (s_key <$> sensors db)) ds ->
  Forall (fun d => is_nan (d_value d) = false) ds ->
  (forall readings, exists added,
     sensors (post_measurements clock db readings).2 = sensors db ++ added
     /\ Forall (fun sensor => s_key sensor ∉ (s_key <$> sensors db)) added)
  /\ exists rows,
       post_measurements clock db (Some batch) =
         (Ok200 (length batch),
          {| sensors := sensors db; measurements := measurements db ++ rows |})
       /\ Forall2 (fun row d => exists sensor,
                     sensor ∈ sensors db /\ s_key sensor = d_sensor_key d
                     /\ row = row_of (m_id row) sensor d) rows ds.
Proof.
  intros Hne Hnd Hnorm Hkeys Hnan. split.
  { intros readings.
    destruct (post_measurements_sensors clock db readings) as (added & Hs & Hadded).
    exists added. split; [done|]. eapply Forall_impl; [exact Hadded|].
    by intros sensor (r & now & d & id & _ & _ & Hunseen & ->). }
  destruct (ingest_data_existing ds db Hnd Hkeys Hnan) as (rows & Hrun & Hrows).
  exists rows. split; [|done].
  pose proof (ingest_loop_valid clock batch 0 0 ds db Hnorm) as Hloop.
  rewrite Hrun in Hloop. unfold post_measurements, session_scope.
  destruct batch as [|r rs]; [done|]. rewrite Hloop.
  by rewrite (normalize_from_length _ _ _ _ Hnorm).
Qed.



(** The first reading of a run that names an unseen key makes the
    session create the sensor with [new_sensor]. *)
Lemma ingest_data_creates pre :
  forall s s' d post,
    ingest_data s (pre ++ d :: post) = Ret s' ->
    d_sensor_key d ∉ (s_key <$> sensors s) ->
    Forall (fun d' => d_sensor_key d' <> d_sensor_key d) pre ->
    exists id, new_sensor id d ∈ sensors s'.
Proof.
  induction pre as [|d0 pre IH]; intros s s' d post Hrun Hunseen Hpre;
    simpl in Hrun.
  - destruct (get_or_create_sensor s d) as [[sensor s1]|e] eqn:Hget; [|done].
    destruct (add_measurement s1 sensor d) as [s2|e] eqn:Hadd; [|done].
    apply get_or_create_sensor_grows in Hget as (_ & Hkey & Hin & Hcases).
    apply add_measurement_sensors in Hadd. apply ingest_data_prefix in Hrun.
    destruct Hcases as [[_ Hold]|(_ & _ & Hnew)].
    + exfalso. apply Hunseen. rewrite <- Hkey. by apply list_elem_of_fmap_2.
    + exists (next_id (s_id <$> sensors s)). rewrite <- Hnew.
      eapply prefix_elem_of; [exact Hrun|]. by rewrite Hadd.
  - apply Forall_cons in Hpre as [Hd0 Hpre].
    destruct (get_or_create_sensor s d0) as [[sensor s1]|e] eqn:Hget; [|done].
    destruct (add_measurement s1 sensor d0) as [s2|e] eqn:Hadd; [|done].
    apply get_or_create_sensor_grows in Hget as (_ & Hkey & Hin & Hcases).
    apply add_measurement_sensors in Hadd.
    apply (IH s2 s' d post Hrun); [|done]. rewrite Hadd.
    destruct Hcases as [[-> _]|(-> & _ & _)]; [done|].
    rewrite fmap_app. intros Hin'. apply elem_of_app in Hin' as [Hin'|Hin'].
    + by apply Hunseen.
    + apply list_elem_of_singleton in Hin'. apply Hd0. congruence.
Qed.

(** C6: when a request is ingested, the first record of the batch that
    names a key the store does not have makes the store hold a sensor with
    that key whose name is the record's [sensor_name] when that is there
    and not empty, and else the key with ["_"] replaced by [" "] and
    title-cased; whose model and location are the record's; and whose
    [poll_interval_sec] is the record's, 60 standing in for a missing one
    (and for 0). *)
Theorem unseen_key_creates_sensor
    (clock : nat -> Z) (db db' : Store) (batch : list Reading) (n i : nat)
    (r : Reading) (key : string) :
  post_measurements clock db (Some batch) = (Ok200 n, db') ->
  batch !! i = Some r ->
  r_sensor_key r = Some key ->
  key ∉ (s_key <$> sensors db) ->
  (forall j r', (j < i)%nat -> batch !! j = Some r' -> r_sensor_key r' <> Some key) ->
  exists sensor,
    sensor ∈ sensors db' /\ (sensor ∉ sensors db)
    /\ s_key sensor = key
    /\ (forall name, r_sensor_name r = Some name -> name <> "" -> s_name sensor = name)
    /\ (r_sensor_name r = None \/ r_sensor_name r = Some "" ->
          s_name sensor = title (replace_char "_" " " key))
    /\ s_model sensor = r_sensor_model r
    /\ s_location sensor = r_sensor_location r
    /\ (r_poll_interval_sec r = None -> s_poll_interval_sec sensor = 60)
    /\ s_poll_interval_sec sensor = or_default (r_poll_interval_sec r) 60.
Proof.
  intros Hpost Hi Hkey Hunseen Hfirst.
  unfold post_measurements, session_scope in Hpost.
  destruct batch as [|r0 rs]; [done|].
  destruct (ingest_loop clock 0 0 (r0 :: rs) db) as [out s'] eqn:Hloop.
  destruct out as [c|resp|e]; simplify_eq.
  2:{ by apply ingest_loop_Return_inv in Hloop as [msg ?]. }
  apply ingest_loop_Next_inv in Hloop as (ds & Hnorm & Hrun & _).
  pose proof (normalize_from_lookup clock (r0 :: rs) 0 i) as Hlook.
  rewrite Hnorm, list_lookup_fmap, Hi in Hlook. simpl in Hlook.
  destruct (ds !! i) as [d|] eqn:Hd; [|done]. simpl in Hlook.
  injection Hlook as Hr. symmetry in Hr.
  pose proof (normalize_reading_Ret _ _ _ Hr)
    as (Hk & _ & _ & _ & _ & _ & Hname & Hmodel & Hloc & Hpoll & _).
  rewrite Hkey in Hk. injection Hk as Hk.
  rewrite <- (take_drop_middle ds i d Hd) in Hrun.
  apply ingest_data_creates in Hrun as [id Hin].
  - exists (new_sensor id d). simpl. rewrite Hname, Hmodel, Hloc, Hpoll, <- Hk.
    split; [done|]. split.
    { intros Hold. apply Hunseen. rewrite Hk.
      change (d_sensor_key d) with (s_key (new_sensor id d)).
      by apply list_elem_of_fmap_2. }
    split; [done|]. split.
    { intros name -> Hne. simpl.
      by destruct (String.eqb_spec name ""). }
    split; [by intros [->| ->]|]. split; [done|]. split; [done|].
    split; [by intros ->|done].
  - by rewrite <- Hk.
  - apply Forall_forall. intros d' Hd'.
    apply list_elem_of_lookup in Hd' as [j Hj].
    apply lookup_take_Some in Hj as [Hj Hlt].
    pose proof (normalize_from_lookup clock (r0 :: rs) 0 j) as Hlook.
    rewrite Hnorm, list_lookup_fmap, Hj in Hlook. simpl in Hlook.
    destruct ((r0 :: rs) !! j) as [r'|] eqn:Hr'; [|done].
    injection Hlook as Hn. symmetry in Hn.
    apply normalize_reading_Ret in Hn as (Hk' & _).
    intros Heq. apply (Hfirst j r' Hlt Hr'). rewrite Hk'. congruence.
Qed.




Lemma parse_iso8601_cases s :
  (exists t, parse_iso8601 s = Ret t)
  \/ (exists msg, parse_iso8601 s = Exn (ValueError msg))
  \/ parse_iso8601 s = Exn OverflowError.
Proof.
  unfold parse_iso8601, astimezone_utc.
  destruct (String.eqb s ""); [right; left; by eexists|].
  destruct (fromisoformat _); [|right; left; by eexists].
  destruct (_ || _); [left; by eexists|by do 2 right].
Qed.





Lemma ingest_data_measurements ds :
  forall s s', ingest_data s ds = Ret s' ->
  exists rows, measurements s' = measurements s ++ rows /\ length rows = length ds.
Proof.
  induction ds as [|d ds IH]; intros s s' Hrun; simpl in Hrun.
  - injection Hrun as <-. exists []. by rewrite app_nil_r.
  - destruct (get_or_create_sensor s d) as [[sensor s1]|e] eqn:Hget; [|done].
    destruct (add_measurement s1 sensor d) as [s2|e] eqn:Hadd; [|done].
    apply get_or_create_sensor_grows in Hget as (Hms & _).
    unfold add_measurement in Hadd. destruct (is_nan _); [done|].
    injection Hadd as <-. apply IH in Hrun as (rows & Hrows & Hlen).
    simpl in Hrows. eexists (_ :: rows).
    split; [by rewrite Hrows, Hms, <- app_assoc|]. simpl. by rewrite Hlen.
Qed.


(** The records of the batch of C1: a reading of a sensor the store does
    not have, and a record with no field. *)
Definition first_reading : Reading :=
  {| r_sensor_key := Some "new_sensor"; r_sensor_name := None;
     r_sensor_model := None; r_sensor_location := None;
     r_poll_interval_sec := None; r_metric := Some "temperature";
     r_value := JFloat (FNum (43 # 2)); r_unit := Some "c";
     r_recorded_at := None |}.

Definition empty_record : Reading :=
  {| r_sensor_key := None; r_sensor_name := None; r_sensor_model := None;
     r_sensor_location := None; r_poll_interval_sec := None;
     r_metric := None; r_value := JNull; r_unit := None;
     r_recorded_at := None |}.

Definition empty_store : Store := {| sensors := []; measurements := [] |}.

(** C1, the code at the failing input: on an empty store, the batch of a
    valid reading followed by an empty record is answered with the 400 of
    the second record, and the sensor and the measurement of the first
    record are in the store.  The [return] inside the [with] block leaves
    it without an exception, so [session_scope] commits. *)
Theorem invalid_batch_commits_earlier_records (clock : nat -> Z) :
  post_measurements clock empty_store (Some [first_reading; empty_record]) =
    (BadRequest400 "sensor_key, metric, value, and unit are required",
     {| sensors :=
          [ {| s_id := 1; s_key := "new_sensor"; s_name := "New Sensor";
               s_model := None; s_location := None; s_enabled := true;
               s_poll_interval_sec := 60; s_unit_preference := "f" |} ];
        measurements :=
          [ {| m_id := 1; m_sensor_id := 1; m_metric := "temperature";
               m_value := FNum (43 # 2); m_unit := "c";
               m_recorded_at := clock 0%nat |} ] |}).
Proof. reflexivity. Qed.

End Ingestion.

(** ** Queries *)

#[export] Instance recorded_le_total {A} (f : A -> Z) : Total (recorded_le f).
Proof. intros a b. unfold recorded_le. lia. Qed.
#[export] Instance recorded_ge_total {A} (f : A -> Z) : Total (recorded_ge f).
Proof. intros a b. unfold recorded_ge. lia. Qed.
#[export] Instance recorded_le_trans {A} (f : A -> Z) : Transitive (recorded_le f).
Proof. intros a b c. unfold recorded_le. lia. Qed.
#[export] Instance recorded_ge_trans {A} (f : A -> Z) : Transitive (recorded_ge f).
Proof. intros a b c. unfold recorded_ge. lia. Qed.


Lemma order_by_Permutation {A} (f : A -> Z) descending (rows : list A) :
  order_by f descending rows ≡ₚ rows.
Proof. unfold order_by. destruct descending; apply merge_sort_Permutation. Qed.


(** [LIMIT] keeps the first rows and drops the rest. *)
Definition rest_rows {A} (n : Z) (rows : list A) : list A :=
  if n <? 0 then [] else drop (Z.to_nat n) rows.

Lemma limit_rows_rest {A} n (rows : list A) : limit_rows n rows ++ rest_rows n rows = rows.
Proof.
  unfold limit_rows, rest_rows. destruct (n <? 0); [apply app_nil_r|apply take_drop].
Qed.



Lemma limit_rows_all {A} n (rows : list A) :
  n < 0 \/ (length rows <= Z.to_nat n)%nat -> limit_rows n rows = rows.
Proof.
  unfold limit_rows. intros [Hn|Hn].
  - by destruct (Z.ltb_spec n 0); [|lia].
  - destruct (n <? 0); [done|]. by apply take_ge.
Qed.

Lemma sql_limit_Ret {A} n (rows : list A) :
  sqlite_int_ok n = true -> sql_limit n rows = Ret (limit_rows n rows).
Proof. intros Hn. unfold sql_limit. by rewrite Hn. Qed.

Lemma sql_limit_inv {A} n (rows kept : list A) :
  sql_limit n rows = Ret kept -> sqlite_int_ok n = true /\ kept = limit_rows n rows.
Proof.
  unfold sql_limit. destruct (sqlite_int_ok n); [|done]. by intros [= <-].
Qed.

(** After the [min] with its ceiling, a limit is within SQLite's INTEGER
    when it is not below [-2^63]. *)
Lemma sqlite_int_ok_min n ceiling :
  0 <= ceiling < 2 ^ 63 ->
  sqlite_int_ok (Z.min n ceiling) = bool_decide (- 2 ^ 63 <= n).
Proof.
  intros Hc. unfold sqlite_int_ok.
  destruct (Z.leb_spec (- 2 ^ 63) (Z.min n ceiling)) as [Hle|Hgt];
    destruct (Z.ltb_spec (Z.min n ceiling) (2 ^ 63)) as [Hlt|Hge];
    case_bool_decide; simpl; lia.
Qed.

(** The rows the query selects: those of the join with the sensor key and
    the metric asked for, recorded at or after [start] and at or before
    [end]. *)
Lemma elem_of_select_measurements db key metric lo hi x :
  x ∈ select_measurements db key metric lo hi <->
    x ∈ join_sensor db /\ s_key x.2 = key /\ m_metric x.1 = metric
    /\ (forall t, lo = Some t -> t <= m_recorded_at x.1)
    /\ (forall t, hi = Some t -> m_recorded_at x.1 <= t).
Proof.
  unfold select_measurements. rewrite !list_elem_of_filter. unfold in_range.
  split.
  - intros ([Hlo Hhi] & [Hk Hm] & Hin). repeat split; try done.
    + by intros t ->.
    + by intros t ->.
  - intros (Hin & Hk & Hm & Hlo & Hhi). repeat split; try done.
    + destruct lo; [by apply Hlo|done].
    + destruct hi; [by apply Hhi|done].
Qed.

Section Queries.

Context `{Builtins}.


Lemma filter_unbounded {A} (f : A -> Z) (l : list A) :
  filter (fun x => in_range None None (f x)) l = l.
Proof.
  induction l as [|x l IH]; [done|].
  rewrite filter_cons_True by done. by rewrite IH.
Qed.

Lemma select_measurements_unbounded db key metric :
  select_measurements db key metric None None =
    filter (fun x => s_key x.2 = key /\ m_metric x.1 = metric) (join_sensor db).
Proof.
  unfold select_measurements.
  apply (filter_unbounded (fun x : MeasurementObj => m_recorded_at x.1)).
Qed.

(** C2, as the code has it: a batch of N records that all pass
    [normalize_reading] and that the storage layer takes is answered with
    [ingested = N] and adds one row per record, with the record's fields,
    under the sensor of the record's key.  After it the range query for a
    sensor key and a metric, without bounds and with a limit that is an
    integer not below [-2^63], answers with the rows it had for them
    before and the rows of the batch for them, and no others, when the
    limit does not cut them off. *)
Theorem valid_batch_ingested_and_queried
    (clock : nat -> Z) (db : Store) (batch : list Reading) (ds : list ReadingData)
    (key metric : string) (limit_param order_param : option string) (limit : Z) :
  schema_ok db ->
  batch <> [] ->
  normalize_from clock 0 batch = Ret <$> ds ->
  batch_storable (s_key <$> sensors db) ds ->
  key <> "" -> metric <> "" ->
  int_arg limit_param 1440 = Ret limit ->
  - 2 ^ 63 <= limit ->
  exists db' objs,
    post_measurements clock db (Some batch) = (Ok200 (length batch), db')
    /\ length objs = length batch
    /\ Forall2 (fun obj d => obj.1 = row_of (m_id obj.1) obj.2 d
                             /\ s_key obj.2 = d_sensor_key d) objs ds
    /\ let before := select_measurements db key metric None None in
       let added := filter (fun x => s_key x.2 = key /\ m_metric x.1 = metric) objs in
       let cap := Z.min limit 10000 in
       (cap < 0 \/ (length before + length added <= Z.to_nat cap)%nat) ->
       exists rows,
         get_measurements db' (Some key) (Some metric) None None
             limit_param order_param
           = Ok200 ((fun m => serialize_measurement m true) <$> rows)
         /\ rows ≡ₚ before ++ added.
Proof.
  intros Hdb Hne Hnorm Hds Hkey Hmetric Hlimit Hfits.
  destruct (ingest_data_ok ds db Hdb Hds)
    as (db' & objs & Hrun & Hdb' & Hpre & Hms & Hjoin & Hobjs).
  exists db', objs. split; [|split; [|split; [done|]]].
  - pose proof (ingest_loop_valid clock batch 0 0 ds db Hnorm) as Hloop.
    rewrite Hrun in Hloop. unfold post_measurements, session_scope.
    destruct batch as [|r rs]; [done|]. rewrite Hloop.
    by rewrite (normalize_from_length _ _ _ _ Hnorm).
  - rewrite (Forall2_length _ _ _ Hobjs).
    by apply (normalize_from_length clock 0).
  - intros before added cap Hcap.
    set (descending := String.eqb (default "asc" order_param) "desc").
    assert (select_measurements db' key metric None None = before ++ added) as Hsel.
    { unfold before, added. rewrite !select_measurements_unbounded, Hjoin.
      apply filter_app. }
    exists (limit_rows cap
              (order_by (fun x : MeasurementObj => m_recorded_at x.1) descending
                 (before ++ added))).
    split.
    + unfold get_measurements. simpl.
      destruct (String.eqb_spec key "") as [|_]; [done|].
      destruct (String.eqb_spec metric "") as [|_]; [done|]. simpl.
      rewrite Hlimit, Hsel. fold cap. rewrite sql_limit_Ret; [done|].
      unfold cap. rewrite sqlite_int_ok_min by lia. by apply bool_decide_eq_true_2.
    + rewrite limit_rows_all; [apply order_by_Permutation|].
      destruct Hcap as [?|Hcap]; [by left|right].
      by rewrite order_by_Permutation, length_app.
Qed.

End Queries.

(** ** Summary *)

(** The first element of a list that has a property. *)
Fixpoint find_first {A} (P : A -> Prop) `{forall x, Decision (P x)} (l : list A)
  : option A :=
  match l with
  | [] => None
  | x :: rest => if decide (P x) then Some x else find_first P rest
  end.


Section FindFirst.

Context {A : Type} (P : A -> Prop) `{forall x, Decision (P x)}.

Lemma find_first_app l1 l2 :
  find_first P (l1 ++ l2) =
    match find_first P l1 with
    | Some x => Some x
    | None => find_first P l2
    end.
Proof.
  induction l1 as [|x l1 IH]; simpl; [done|]. by destruct (decide (P x)).
Qed.

Lemma find_first_None l : find_first P l = None <-> forall x, x ∈ l -> ~ P x.
Proof.
  induction l as [|x l IH]; simpl.
  - split; [|done]. intros _ x Hx. by apply elem_of_nil in Hx.
  - destruct (decide (P x)) as [Hx|Hx].
    + split; [done|]. intros Hall. exfalso. apply (Hall x); [left|done].
    + rewrite IH. split.
      * intros Hall y Hy. apply elem_of_cons in Hy as [->|Hy]; auto.
      * intros Hall y Hy. apply Hall. by right.
Qed.

Lemma find_first_Some l x : find_first P l = Some x -> x ∈ l /\ P x.
Proof.
  induction l as [|y l IH]; simpl; [done|].
  destruct (decide (P y)) as [Hy|Hy].
  - intros [= <-]. split; [left|done].
  - intros Hx. apply IH in Hx as [Hin HP]. split; [by right|done].
Qed.

Lemma find_first_is_Some l x : x ∈ l -> P x -> is_Some (find_first P l).
Proof.
  intros Hin HP. destruct (find_first P l) eqn:Hf; [done|].
  exfalso. by apply (proj1 (find_first_None l) Hf x).
Qed.

End FindFirst.


Lemma setdefault_present {V} k (v : V) d :
  k ∈ d.*1 -> setdefault k v d = d.
Proof.
  intros Hk. unfold setdefault.
  destruct (list_find (fun kv => kv.1 = k) d) eqn:Hfind; [done|].
  apply list_find_None in Hfind. apply list_elem_of_fmap in Hk as ([k' v'] & -> & Hin).
  rewrite Forall_forall in Hfind. by destruct (Hfind _ Hin).
Qed.

Lemma setdefault_absent {V} k (v : V) d :
  k ∉ d.*1 -> setdefault k v d = d ++ [(k, v)].
Proof.
  intros Hk. unfold setdefault.
  destruct (list_find (fun kv => kv.1 = k) d) as [[i [k' v']]|] eqn:Hfind; [|done].
  apply list_find_Some in Hfind as (Hi & Hkv & _). simpl in Hkv. subst k'.
  exfalso. apply Hk. apply list_elem_of_fmap. exists (k, v').
  split; [done|]. by eapply list_elem_of_lookup_2.
Qed.

Lemma update_entry_keys {V} k (f : V -> V) d : (update_entry k f d).*1 = d.*1.
Proof.
  unfold update_entry. induction d as [|[k' v'] d IH]; simpl; [done|].
  f_equal; [|exact IH]. by destruct (decide (k' = k)).
Qed.

Lemma elem_of_update_entry {V} k (f : V -> V) d k' v' :
  (k', v') ∈ update_entry k f d <->
    exists v, (k', v) ∈ d /\ v' = if decide (k' = k) then f v else v.
Proof.
  unfold update_entry. rewrite list_elem_of_fmap. split.
  - intros ([k0 v0] & Heq & Hin). simpl in Heq.
    destruct (decide (k0 = k)) as [->|Hne]; simplify_eq.
    + exists v0. split; [done|]. by destruct (decide (k = k)).
    + exists v0. split; [done|]. by destruct (decide (k0 = k)).
  - intros (v & Hin & ->). exists (k', v). split; [|done]. simpl.
    by destruct (decide (k' = k)).
Qed.

(** A scanned measurement is of the sensor [key] and the metric [metric]. *)
Definition matches (key metric : string) (x : MeasurementObj) : Prop :=
  s_key x.2 = key /\ m_metric x.1 = metric.

#[export] Instance matches_dec key metric x : Decision (matches key metric x).
Proof. unfold matches. apply _. Defined.

(** What the two dictionaries of [build_summary_payload] hold after the
    measurements [done], when the keys of [summary_map] are those with
    [K]: the keys are distinct; [metrics_seen] has nothing for other keys;
    and the entry of a key has that key, lists the metrics
    [metrics_seen] has for the key, each once, and has for each metric
    the first measurement of [done] of that key and metric. *)
Definition summary_inv (K : string -> Prop) (done : list MeasurementObj)
    (st : list (string * SummaryEntry) * gmap string (gset string)) : Prop :=
  NoDup st.1.*1
  /\ (forall k, k ∈ st.1.*1 <-> K k)
  /\ (forall k, k ∉ st.1.*1 -> st.2 !! k = None)
  /\ (forall k e, (k, e) ∈ st.1 ->
        e_key e = k
        /\ (forall m, m ∈ default ∅ (st.2 !! k) <-> m ∈ p_metric <$> e_metrics e)
        /\ NoDup (p_metric <$> e_metrics e)
        /\ (forall m, find_first (fun p => p_metric p = m) (e_metrics e)
                      = (fun x => serialize_measurement x false)
                          <$> find_first (matches k m) done)).

Definition has_key (done : list MeasurementObj) (k : string) : Prop :=
  exists x, x ∈ done /\ s_key x.2 = k.

Definition fresh_entry (sensor : Sensor) : SummaryEntry :=
  {| e_key := s_key sensor; e_name := s_name sensor; e_model := s_model sensor;
     e_location := s_location sensor; e_metrics := [] |}.

(** The two [setdefault] calls. *)
Lemma summary_inv_setdefault done sm sd (x : MeasurementObj) :
  summary_inv (has_key done) done (sm, sd) ->
  let kx := s_key x.2 in
  let seen := default ∅ (sd !! kx) in
  summary_inv (fun k => has_key done k \/ k = kx) done
    (setdefault kx (fresh_entry x.2) sm, <[kx := seen]> sd)
  /\ kx ∈ (setdefault kx (fresh_entry x.2) sm).*1.
Proof.
  intros (Hnd & Hkeys & Hnone & Hentries) kx seen. simpl in *.
  destruct (decide (kx ∈ sm.*1)) as [Hin|Hnotin].
  - rewrite setdefault_present by done. split; [|done].
    split; [done|]. split; [|split]; simpl.
    + intros k. rewrite Hkeys. split; [by left|].
      intros [?| ->]; [done|]. by apply Hkeys.
    + intros k Hk. rewrite lookup_insert_ne; [by apply Hnone|]. by intros <-.
    + intros k e Hke. destruct (Hentries k e Hke) as (He & Hseen & Hnd' & Hfirst).
      split; [done|]. split; [|done]. intros m. rewrite <- Hseen.
      destruct (decide (kx = k)) as [<-|Hne].
      * by rewrite lookup_insert_eq.
      * by rewrite lookup_insert_ne.
  - rewrite setdefault_absent by done.
    assert (seen = ∅) as Hseen by (unfold seen; by rewrite Hnone).
    split; [|rewrite fmap_app; apply elem_of_app; right; apply list_elem_of_here].
    split; [|split; [|split]]; simpl.
    + rewrite fmap_app. apply NoDup_app. split; [done|]. split.
      * intros k Hk Hk'. apply list_elem_of_singleton in Hk'. by subst k.
      * apply NoDup_singleton.
    + intros k. rewrite fmap_app, elem_of_app, Hkeys. simpl.
      by rewrite list_elem_of_singleton.
    + intros k Hk. rewrite fmap_app, elem_of_app in Hk.
      rewrite lookup_insert_ne.
      * apply Hnone. tauto.
      * intros <-. apply Hk. right. simpl. by apply list_elem_of_singleton.
    + intros k e Hke. apply elem_of_app in Hke as [Hke|Hke].
      * destruct (Hentries k e Hke) as (He & Hs & Hnd' & Hfirst).
        split; [done|]. split; [|done]. intros m. rewrite <- Hs.
        rewrite lookup_insert_ne; [done|]. intros <-. apply Hnotin.
        apply list_elem_of_fmap. by exists (kx, e).
      * apply list_elem_of_singleton in Hke. injection Hke as -> ->.
        split; [done|]. split; [|split; [constructor|]].
        -- intros m. rewrite lookup_insert_eq, Hseen. simpl.
           split; [by intros ?%not_elem_of_empty|by intros ?%elem_of_nil].
        -- intros m. simpl. symmetry.
           replace (find_first (matches kx m) done) with (@None MeasurementObj); [done|].
           symmetry. apply find_first_None. intros y Hy [Hk _].
           apply Hnotin. apply Hkeys. by exists y.
Qed.

(** One turn of the loop keeps the invariant. *)
Lemma summary_inv_step done st (x : MeasurementObj) :
  summary_inv (has_key done) done st ->
  summary_inv (has_key (done ++ [x])) (done ++ [x]) (summary_step st x).
Proof.
  intros Hinv. destruct st as [sm sd].
  destruct (summary_inv_setdefault done sm sd x Hinv) as [Hinv1 Hkx].
  unfold summary_step. simpl in *.
  set (kx := s_key x.2) in *. set (mx := m_metric x.1).
  set (seen := default ∅ (sd !! kx)) in *.
  set (sm1 := setdefault kx _ sm) in *.
  destruct Hinv1 as (Hnd & Hkeys & Hnone & Hentries). simpl in *.
  assert (forall k, (has_key done k \/ k = kx) <-> has_key (done ++ [x]) k) as HK.
  { intros k. unfold has_key. split.
    - intros [(y & Hy & Hk)| ->].
      + exists y. split; [|done]. apply elem_of_app. by left.
      + exists x. split; [|done]. apply elem_of_app. right. apply list_elem_of_here.
    - intros (y & Hy & Hk). apply elem_of_app in Hy as [Hy|Hy].
      + left. by exists y.
      + right. apply list_elem_of_singleton in Hy. by subst y. }
  assert (forall k m, k <> kx \/ m <> mx ->
            find_first (matches k m) (done ++ [x]) = find_first (matches k m) done)
    as Hother.
  { intros k m Hne. rewrite find_first_app.
    destruct (find_first (matches k m) done); [done|]. simpl.
    destruct (decide (matches k m x)) as [[Hk Hm]|]; [|done].
    destruct Hne; done. }
  destruct (decide (mx ∈ seen)) as [Hseen|Hunseen].
  - (* the metric was seen: [continue] *)
    split; [done|]. split; [|split; [done|]]; simpl.
    { intros k. by rewrite Hkeys. }
    intros k e Hke. destruct (Hentries k e Hke) as (He & Hs & Hnd' & Hfirst).
    split; [done|]. split; [done|]. split; [done|].
    intros m. rewrite Hfirst.
    destruct (decide (k = kx /\ m = mx)) as [[-> ->]|Hne].
    + rewrite find_first_app.
      destruct (find_first (matches kx mx) done) eqn:Hdone; [done|].
      exfalso. specialize (Hfirst mx). rewrite Hdone in Hfirst. simpl in Hfirst.
      assert (mx ∈ p_metric <$> e_metrics e) as Hin.
      { apply Hs. by rewrite lookup_insert_eq. }
      apply list_elem_of_fmap in Hin as (p & Hp & Hin).
      destruct (find_first_is_Some (fun p => p_metric p = mx) (e_metrics e) p Hin)
        as [? Hsome]; [done|congruence].
    + rewrite Hother; [done|].
      destruct (decide (k = kx)); [|by left].
      destruct (decide (m = mx)); [|by right]. tauto.
  - (* a new metric of the sensor *)
    split; [|split; [|split]]; simpl.
    + by rewrite update_entry_keys.
    + intros k. by rewrite update_entry_keys, Hkeys.
    + intros k. rewrite update_entry_keys. intros Hk.
      rewrite lookup_insert_ne; [|by intros <-].
      rewrite <- (Hnone k Hk). rewrite lookup_insert_ne; [done|by intros <-].
    + intros k e' Hke'. apply elem_of_update_entry in Hke' as (e & Hke & ->).
      destruct (Hentries k e Hke) as (He & Hs & Hnd' & Hfirst).
      destruct (decide (k = kx)) as [->|Hne].
      * rewrite lookup_insert_eq in Hs. simpl in Hs.
        assert (mx ∉ p_metric <$> e_metrics e) as Hfresh by (by rewrite <- Hs).
        split; [done|]. simpl. split; [|split].
        -- intros m. rewrite lookup_insert_eq. simpl.
           rewrite fmap_app, elem_of_app, elem_of_union, elem_of_singleton.
           rewrite Hs. simpl. rewrite list_elem_of_singleton. tauto.
        -- rewrite fmap_app. apply NoDup_app. split; [done|]. split.
           ++ intros m Hm Hm'. apply list_elem_of_singleton in Hm'. simpl in Hm'.
              by subst m.
           ++ apply NoDup_singleton.
        -- intros m. rewrite !find_first_app, Hfirst.
           destruct (find_first (matches kx m) done); [done|]. simpl.
           destruct (decide (m_metric x.1 = m)) as [Hm|Hm];
             destruct (decide (matches kx m x)) as [[_ Hm']|Hm']; try done.
           exfalso. by apply Hm'.
      * split; [done|]. split; [|split; [done|]].
        -- intros m. rewrite lookup_insert_ne by done. rewrite <- Hs.
           by rewrite lookup_insert_ne.
        -- intros m. rewrite Hfirst. rewrite Hother; [done|by left].
Qed.

Lemma summary_inv_fold (measurements : list MeasurementObj) :
  summary_inv (has_key measurements) measurements
    (foldl summary_step ([], ∅) measurements).
Proof.
  induction measurements as [|x done IH] using rev_ind.
  - split; [constructor|]. split; [|split]; simpl.
    + intros k. split; [by intros ?%elem_of_nil|].
      intros (x & Hx & _). by apply elem_of_nil in Hx.
    + done.
    + intros k e Hke. by apply elem_of_nil in Hke.
  - rewrite foldl_app. simpl. by apply summary_inv_step.
Qed.



#[export] Instance recorded_ge_refl {A} (f : A -> Z) : Reflexive (recorded_ge f).
Proof. intros a. unfold recorded_ge. lia. Qed.


Lemma entries_keys (d : list (string * SummaryEntry)) :
  (forall k e, (k, e) ∈ d -> e_key e = k) -> e_key <$> d.*2 = d.*1.
Proof.
  induction d as [|[k e] d IH]; intros Hd; simpl; [done|].
  f_equal.
  - apply Hd. apply list_elem_of_here.
  - apply IH. intros k' e' Hin. apply Hd. by right.
Qed.


Section SummaryQuery.

Context `{Builtins}.


End SummaryQuery.

(** * Concrete runs *)

(** A plain decimal numeral, with or without a minus sign. *)
Definition decimal_int (s : string) : option Z :=
  if String.eqb s "" || String.eqb s "-" then None
  else Z.of_int <$> NilEmpty.int_of_string s.

(** Builtins for the runs below: every int converts exactly, no string
    converts to a float, [fromisoformat] knows the four timestamps the
    runs use, [int] knows the plain decimal numerals, and [str.title]
    is not asked about text beyond ASCII. *)
Definition example_builtins : Builtins :=
  {| float_of_int := fun n => Some (FNum (inject_Z n));
     float_of_str := fun _ => None;
     fromisoformat := fun s =>
       if String.eqb s "1970-01-01T00:00:01+00:00"
       then Some {| dt_wall := 1000000; dt_utcoffset := Some 0 |}
       else if String.eqb s "1970-01-01T00:00:02+00:00"
       then Some {| dt_wall := 2000000; dt_utcoffset := Some 0 |}
       else if String.eqb s "1970-01-01T01:00:03+01:00"
       then Some {| dt_wall := 3603000000; dt_utcoffset := Some 3600000000 |}
       else if String.eqb s "0001-01-01T00:00:00+01:00"
       then Some {| dt_wall := datetime_min; dt_utcoffset := Some 3600000000 |}
       else None;
     int_of_str := decimal_int;
     str_title := fun s => s |}.

Definition example_clock : nat -> Z := fun i => 5000000 + Z.of_nat i.

Definition seeded_store : Store := seed_default_sensors empty_store.

Definition reading (key metric : string) (value : jvalue) (unit : string)
    (recorded_at : option string) : Reading :=
  {| r_sensor_key := Some key; r_sensor_name := None; r_sensor_model := None;
     r_sensor_location := None; r_poll_interval_sec := None;
     r_metric := Some metric; r_value := value; r_unit := Some unit;
     r_recorded_at := recorded_at |}.

(** Three readings of one sensor and metric at the instants 1 s, 2 s and
    3 s, sent out of order, and one of another metric. *)
Definition three_readings : list Reading :=
  [ reading "ambient_bme280" "temperature" (JFloat (FNum 24)) "c"
      (Some "1970-01-01T00:00:02Z");
    reading "ambient_bme280" "temperature" (JFloat (FNum (51 # 2))) "c"
      (Some "1970-01-01T01:00:03+01:00");
    reading "ambient_bme280" "temperature" (JInt 23) "c"
      (Some "1970-01-01T00:00:01+00:00");
    reading "ambient_bme280" "humidity" (JFloat (FNum 55)) "pct"
      (Some "1970-01-01T00:00:02+00:00") ].

Definition three_normalised : list ReadingData :=
  [ {| d_sensor_key := "ambient_bme280"; d_sensor_name := None;
       d_sensor_model := None; d_sensor_location := None;
       d_poll_interval_sec := None; d_metric := "temperature";
       d_value := FNum 24; d_unit := "c"; d_recorded_at := 2000000 |};
    {| d_sensor_key := "ambient_bme280"; d_sensor_name := None;
       d_sensor_model := None; d_sensor_location := None;
       d_poll_interval_sec := None; d_metric := "temperature";
       d_value := FNum (51 # 2); d_unit := "c"; d_recorded_at := 3000000 |};
    {| d_sensor_key := "ambient_bme280"; d_sensor_name := None;
       d_sensor_model := None; d_sensor_location := None;
       d_poll_interval_sec := None; d_metric := "temperature";
       d_value := FNum (inject_Z 23); d_unit := "c"; d_recorded_at := 1000000 |};
    {| d_sensor_key := "ambient_bme280"; d_sensor_name := None;
       d_sensor_model := None; d_sensor_location := None;
       d_poll_interval_sec := None; d_metric := "humidity";
       d_value := FNum 55; d_unit := "pct"; d_recorded_at := 2000000 |} ].

Definition store_with_three : Store :=
  (post_measurements (H := example_builtins) example_clock seeded_store
     (Some three_readings)).2.

Definition values_of (r : response (list MeasurementPayload)) : option (list pyfloat) :=
  match r with
  | Ok200 rows => Some (p_value <$> rows)
  | _ => None
  end.

Definition row_count (r : response (list MeasurementPayload)) : option nat :=
  match r with
  | Ok200 rows => Some (length rows)
  | _ => None
  end.

Lemma schema_ok_seeded : schema_ok seeded_store.
Proof.
  split; [|split]; simpl.
  - apply (bool_decide_unpack _). by vm_compute.
  - apply (bool_decide_unpack _). by vm_compute.
  - constructor.
Qed.


Example ingest_three :
  (post_measurements (H := example_builtins) example_clock seeded_store
     (Some three_readings)).1 = Ok200 4%nat.
Proof. reflexivity. Qed.

Example query_ascending :
  values_of (get_measurements (H := example_builtins) store_with_three
               (Some "ambient_bme280") (Some "temperature") None None None None)
  = Some [FNum (inject_Z 23); FNum 24; FNum (51 # 2)].
Proof. reflexivity. Qed.

Example query_descending :
  values_of (get_measurements (H := example_builtins) store_with_three
               (Some "ambient_bme280") (Some "temperature") None None None
               (Some "desc"))
  = Some [FNum (51 # 2); FNum 24; FNum (inject_Z 23)].
Proof. reflexivity. Qed.

Example query_at_one_instant :
  values_of (get_measurements (H := example_builtins) store_with_three
               (Some "ambient_bme280") (Some "temperature")
               (Some "1970-01-01T00:00:02Z") (Some "1970-01-01T00:00:02+00:00")
               None None)
  = Some [FNum 24].
Proof. reflexivity. Qed.

Example query_bad_timestamp :
  get_measurements (H := example_builtins) store_with_three
    (Some "ambient_bme280") (Some "temperature") (Some "not-a-timestamp") None
    None None
  = BadRequest400 "Invalid isoformat string: 'not-a-timestamp'".
Proof. reflexivity. Qed.

Definition latest_of (r : response (list SummaryEntry))
  : option (list (string * list (string * pyfloat))) :=
  match r with
  | Ok200 entries =>
      Some ((fun e : SummaryEntry =>
               (e_key e,
                (fun p : MeasurementPayload => (p_metric p, p_value p))
                  <$> e_metrics e)) <$> entries)
  | _ => None
  end.

Example summary_latest :
  latest_of (get_summary (H := example_builtins) store_with_three None)
  = Some [("ambient_bme280",
           [("temperature", FNum (51 # 2)); ("humidity", FNum 55)])].
Proof. reflexivity. Qed.

(** With a scan window of one row only the latest reading is seen. *)
Example summary_window_of_one :
  latest_of (get_summary (H := example_builtins) store_with_three (Some "1"))
  = Some [("ambient_bme280", [("temperature", FNum (51 # 2))])].
Proof. reflexivity. Qed.

(** ** Ingestion: runs of the theorems *)










(** The record of [test_sensor_auto_create]. *)
Definition reading_custom_sensor : Reading :=
  {| r_sensor_key := Some "new_sensor"; r_sensor_name := Some "Custom Sensor";
     r_sensor_model := Some "Custom"; r_sensor_location := None;
     r_poll_interval_sec := None; r_metric := Some "temperature";
     r_value := JFloat (FNum (43 # 2)); r_unit := Some "c";
     r_recorded_at := None |}.

Lemma unseen_key_creates_sensor_witness :
  exists sensor,
    sensor ∈ sensors (post_measurements (H := example_builtins) example_clock
                        seeded_store (Some [reading_custom_sensor])).2
    /\ s_key sensor = "new_sensor"
    /\ s_name sensor = "Custom Sensor"
    /\ s_model sensor = Some "Custom"
    /\ s_poll_interval_sec sensor = 60.
Proof.
  destruct (unseen_key_creates_sensor (H := example_builtins) example_clock
              seeded_store
              (post_measurements (H := example_builtins) example_clock
                 seeded_store (Some [reading_custom_sensor])).2
              [reading_custom_sensor] 1 0 reading_custom_sensor "new_sensor")
    as (sensor & Hin & _ & Hkey & Hname & _ & Hmodel & _ & Hpoll & _).
  - reflexivity.
  - reflexivity.
  - reflexivity.
  - apply (bool_decide_unpack _). by vm_compute.
  - intros j r' Hj. lia.
  - exists sensor. split; [done|]. split; [done|].
    split; [by apply Hname|]. split; [done|]. by apply Hpoll.
Defined.

(** A record of a seeded sensor that carries other metadata. *)
Definition reading_other_metadata : Reading :=
  {| r_sensor_key := Some "ambient_bme280"; r_sensor_name := Some "Renamed";
     r_sensor_model := Some "Other"; r_sensor_location := Some "Elsewhere";
     r_poll_interval_sec := Some 5; r_metric := Some "temperature";
     r_value := JFloat (FNum 21); r_unit := Some "c"; r_recorded_at := None |}.

Lemma ingest_for_existing_sensor_leaves_row_witness :
  exists rows,
    post_measurements (H := example_builtins) example_clock seeded_store
      (Some [reading_other_metadata])
    = (Ok200 1%nat,
       {| sensors := sensors seeded_store;
          measurements := measurements seeded_store ++ rows |})
    /\ length rows = 1%nat.
Proof.
  destruct (ingest_for_existing_sensor_leaves_row (H := example_builtins)
              example_clock seeded_store [reading_other_metadata]
              [ {| d_sensor_key := "ambient_bme280";
                   d_sensor_name := Some "Renamed";
                   d_sensor_model := Some "Other";
                   d_sensor_location := Some "Elsewhere";
                   d_poll_interval_sec := Some 5; d_metric := "temperature";
                   d_value := FNum 21; d_unit := "c";
                   d_recorded_at := 5000000 |} ])
    as (_ & rows & Hpost & Hrows).
  - done.
  - apply (bool_decide_unpack _). by vm_compute.
  - reflexivity.
  - constructor; [|constructor]. apply (bool_decide_unpack _). by vm_compute.
  - by constructor.
  - exists rows. split; [exact Hpost|]. by apply Forall2_length in Hrows.
Defined.

(** ** Queries: runs of the theorems *)

Lemma three_readings_storable :
  batch_storable (s_key <$> sensors seeded_store) three_normalised.
Proof. simpl. repeat (split; [done|]). repeat (split; [by intros _|]). done. Qed.

Lemma valid_batch_ingested_and_queried_witness :
  exists db' rows,
    post_measurements (H := example_builtins) example_clock seeded_store
      (Some three_readings) = (Ok200 4%nat, db')
    /\ get_measurements (H := example_builtins) db' (Some "ambient_bme280")
         (Some "temperature") None None None None
       = Ok200 ((fun m => serialize_measurement m true) <$> rows)
    /\ length rows = 3%nat.
Proof.
  destruct (valid_batch_ingested_and_queried (H := example_builtins)
              example_clock seeded_store three_readings three_normalised
              "ambient_bme280" "temperature" None None 1440)
    as (db' & objs & Hpost & Hlen & Hobjs & Hquery).
  - exact schema_ok_seeded.
  - done.
  - reflexivity.
  - exact three_readings_storable.
  - done.
  - done.
  - reflexivity.
  - lia.
  - assert (db' = store_with_three) as ->.
    { unfold store_with_three. by rewrite Hpost. }
    destruct Hquery as (rows & Hget & Hperm).
    { right. simpl.
      change (length three_readings) with 4%nat in Hlen.
      change (Z.to_nat (1440 `min` 10000)) with 1440%nat.
      transitivity (length objs); [apply length_filter|lia]. }
    exists store_with_three, rows. split; [exact Hpost|]. split; [exact Hget|].
    assert (values_of (Ok200 ((fun m => serialize_measurement m true) <$> rows))
            = Some [FNum (inject_Z 23); FNum 24; FNum (51 # 2)]) as Hvalues.
    { rewrite <- Hget. reflexivity. }
    simpl in Hvalues. injection Hvalues as Hvalues.
    apply (f_equal length) in Hvalues. by rewrite !length_fmap in Hvalues.
Defined.

(** A batch of 1441 readings of one sensor and one metric, and a reading
    whose value is the JSON literal [NaN]. *)
Definition large_batch : list Reading := replicate 1441 first_reading.

Definition reading_nan : Reading :=
  reading "new_sensor" "temperature" (JFloat FNaN) "c" None.

(** C2 as stated fails.  The 1441 readings all pass and are ingested, and
    the range query for their sensor and metric answers with 1440 rows.
    The reading with the value NaN passes [normalize_reading], and the
    request is answered with a 500 and stores nothing. *)
Lemma large_batch_and_nan_not_returned :
  ((post_measurements (H := example_builtins) example_clock empty_store
      (Some large_batch)).1 = Ok200 1441%nat
   /\ row_count
        (get_measurements (H := example_builtins)
           (post_measurements (H := example_builtins) example_clock empty_store
              (Some large_batch)).2
           (Some "new_sensor") (Some "temperature") None None None None)
      = Some 1440%nat)
  /\ ((exists d, normalize_reading (H := example_builtins) (example_clock 0) reading_nan
                 = Ret d)
      /\ post_measurements (H := example_builtins) example_clock empty_store
           (Some [reading_nan])
         = (ServerError500, empty_store)).
Proof.
  split; [split|split].
  - by vm_compute.
  - by vm_compute.
  - by eexists.
  - reflexivity.
Qed.








(** The answers for a limit that is no integer, for a limit below
    [-2^63], and for a bound whose instant in UTC is before the year 1:
    exceptions that nothing catches. *)
Example query_limit_not_an_integer :
  get_measurements (H := example_builtins) store_with_three
    (Some "ambient_bme280") (Some "temperature") None None (Some "abc") None
  = ServerError500.
Proof. reflexivity. Qed.

Example query_limit_below_sqlite_integer :
  get_measurements (H := example_builtins) store_with_three
    (Some "ambient_bme280") (Some "temperature") None None
    (Some "-9223372036854775809") None
  = ServerError500
  /\ get_summary (H := example_builtins) store_with_three
       (Some "-9223372036854775809")
     = ServerError500.
Proof. split; reflexivity. Qed.

Example query_bound_out_of_range :
  parse_iso8601 (H := example_builtins) "0001-01-01T00:00:00+01:00"
  = Exn OverflowError
  /\ get_measurements (H := example_builtins) store_with_three
       (Some "ambient_bme280") (Some "temperature")
       (Some "0001-01-01T00:00:00+01:00") None None None
     = ServerError500.
Proof. split; reflexivity. Qed.

Example reading_timestamp_out_of_range :
  post_measurements (H := example_builtins) example_clock seeded_store
    (Some [reading "ambient_bme280" "temperature" (JFloat (FNum 21)) "c"
             (Some "0001-01-01T00:00:00+01:00")])
  = (ServerError500, seeded_store).
Proof. reflexivity. Qed.

(** ** The scheduler: a run *)

(** Two tasks, with intervals of 10 s and 30 s, both due at time 0; the
    sensor of the first one raises at every read, the second one returns
    a reading. *)
Definition two_tasks : list SensorTask :=
  [ {| sensor := {| key := "probe"; interval_sec := 10 |}; next_run := 0%Q |};
    {| sensor := {| key := "ambient"; interval_sec := 30 |}; next_run := 0%Q |} ].

Definition ambient_reading : SensorReading :=
  {| sr_sensor_key := "ambient"; sr_metric := "temperature";
     sr_value := FNum 25; sr_unit := "c";
     sr_recorded_at := "1970-01-01T00:00:00+00:00";
     sr_sensor_name := Some "Ambient"; sr_sensor_model := None;
     sr_sensor_location := None; sr_poll_interval_sec := Some 30 |}.

Definition failing_world : World :=
  {| read := fun n i =>
       match i with
       | O => Exn (OtherException "RuntimeError")
       | _ => Ret [ambient_reading]
       end;
     post := fun n i batch => Ret ();
     time_at_start := fun n => inject_Z (10 * Z.of_nat n);
     time_at_sleep := fun n => inject_Z (10 * Z.of_nat n) |}.

(** Float arithmetic for the runs below: the sums and the differences of
    the runs are exact (they are small whole numbers of seconds), an int
    of the size of [2^1024] cannot be made a float, and a sleep of [2^63]
    nanoseconds or more overflows. *)
Definition example_floats : FloatOps :=
  {| float_add := fun now interval_sec =>
       if Z.abs interval_sec <? 2 ^ 1024 - 2 ^ 970
       then Some (now + inject_Z interval_sec)%Q
       else None;
     float_sub := fun a b => (a - b)%Q;
     sleep_overflows := fun seconds =>
       Qle_bool (inject_Z (2 ^ 63) / inject_Z (10 ^ 9)) seconds |}.

(** In four iterations, at the times 0, 10, 20 and 30, the first task is
    read four times and the second one twice, at 0 and at 30. *)
Example poll_loop_two_tasks :
  reads_of (poll_loop (H := example_floats) failing_world 4 0 two_tasks).2
  = [0; 1; 0; 0; 0; 1]%nat.
Proof. reflexivity. Qed.

Example poll_once_two_tasks :
  (poll_once (H := example_floats) failing_world 0 two_tasks).1
  = Ret [ {| sensor := {| key := "probe"; interval_sec := 10 |};
             next_run := (inject_Z 0 + inject_Z 10)%Q |};
          {| sensor := {| key := "ambient"; interval_sec := 30 |};
             next_run := (inject_Z 0 + inject_Z 30)%Q |} ].
Proof. reflexivity. Qed.





(** * Further properties of the backend *)

(** ** Ingestion: what every request keeps *)

(** The schema constraints together with the primary key of the
    measurements table. *)
Definition store_ok (db : Store) : Prop :=
  schema_ok db /\ NoDup (m_id <$> measurements db).

Section IngestionKeeps.

Context `{Builtins}.

Lemma get_or_create_sensor_store_ok s d sensor s1 :
  store_ok s -> get_or_create_sensor s d = Ret (sensor, s1) ->
  store_ok s1 /\ sensor ∈ sensors s1.
Proof.
  intros [(Hids & Hkeys & Hfk) Hmids] Hget.
  apply get_or_create_sensor_grows in Hget as (Hms & Hkey & Hin & Hcases).
  split; [|done].
  destruct Hcases as [[Hs _]|(Hs & Hunseen & Hnew)].
  - unfold store_ok, schema_ok. by rewrite Hs, Hms.
  - unfold store_ok, schema_ok. rewrite Hs, Hms, !fmap_app. simpl.
    split; [split; [|split]|done].
    + apply NoDup_app. split; [done|]. split; [|apply NoDup_singleton].
      intros x Hx Hx'. apply list_elem_of_singleton in Hx'. subst x.
      rewrite Hnew in Hx. simpl in Hx. by apply next_id_fresh in Hx.
    + apply NoDup_app. split; [done|]. split; [|apply NoDup_singleton].
      intros x Hx Hx'. apply list_elem_of_singleton in Hx'. subst x.
      by rewrite Hkey in Hx.
    + eapply Forall_impl; [exact Hfk|]. intros m Hm. simpl in Hm.
      apply elem_of_app. by left.
Qed.

Lemma add_measurement_store_ok s1 sensor d s2 :
  store_ok s1 -> sensor ∈ sensors s1 -> add_measurement s1 sensor d = Ret s2 ->
  store_ok s2
  /\ measurements s2 =
       measurements s1 ++ [row_of (next_id (m_id <$> measurements s1)) sensor d].
Proof.
  intros [(Hids & Hkeys & Hfk) Hmids] Hin. unfold add_measurement.
  destruct (is_nan _); [done|]. intros [= <-]. split; [|done].
  split; [split; [done|split; [done|]]|]; simpl.
  - apply Forall_app. split; [done|]. apply Forall_singleton. simpl.
    by apply list_elem_of_fmap_2.
  - rewrite fmap_app. apply NoDup_app. split; [done|].
    split; [|apply NoDup_singleton].
    intros x Hx Hx'. apply list_elem_of_singleton in Hx'. subst x.
    by apply next_id_fresh in Hx.
Qed.

(** Whatever the loop does, it leaves a session that meets the
    constraints, with the measurements it had and new ones after them. *)
Lemma ingest_loop_keeps clock rs :
  forall i created s out s',
    ingest_loop clock i created rs s = (out, s') ->
    measurements s `prefix_of` measurements s'
    /\ (store_ok s -> store_ok s').
Proof.
  induction rs as [|r rs IH]; intros i created s out s' Hloop; simpl in Hloop.
  - by injection Hloop as <- <-.
  - destruct (normalize_reading (clock i) r) as [d|e] eqn:Hr.
    2:{ by destruct e; injection Hloop as <- <-. }
    destruct (get_or_create_sensor s d) as [[sensor s1]|e] eqn:Hget.
    2:{ by injection Hloop as <- <-. }
    pose proof (get_or_create_sensor_grows _ _ _ _ Hget) as (Hms & _).
    destruct (add_measurement s1 sensor d) as [s2|e] eqn:Hadd.
    2:{ injection Hloop as <- <-. rewrite Hms. split; [done|].
        intros Hs. by apply (get_or_create_sensor_store_ok s d sensor s1). }
    apply IH in Hloop as [Hpre Hok].
    assert (measurements s2 =
              measurements s1 ++ [row_of (next_id (m_id <$> measurements s1)) sensor d])
      as Hs2.
    { unfold add_measurement in Hadd. destruct (is_nan _); [done|].
      by injection Hadd as <-. }
    split.
    + etrans; [|exact Hpre]. rewrite Hs2, Hms. by apply prefix_app_r.
    + intros Hs. apply Hok.
      destruct (get_or_create_sensor_store_ok s d sensor s1 Hs Hget) as [Hs1 Hin].
      by destruct (add_measurement_store_ok s1 sensor d s2 Hs1 Hin Hadd).
Qed.

(** The message of the 400 the loop returns is the ValueError of a
    record that all records before it precede without failing. *)
Lemma ingest_loop_Return_record clock rs :
  forall i created s msg s',
    ingest_loop clock i created rs s = (Return (BadRequest400 msg), s') ->
    exists j r,
      rs !! j = Some r
      /\ normalize_reading (clock (i + j)%nat) r = Exn (ValueError msg)
      /\ forall k r', (k < j)%nat -> rs !! k = Some r' ->
           exists d, normalize_reading (clock (i + k)%nat) r' = Ret d.
Proof.
  induction rs as [|r rs IH]; intros i created s msg s' Hloop;
    simpl in Hloop; [done|].
  destruct (normalize_reading (clock i) r) as [d|e] eqn:Hr.
  - destruct (get_or_create_sensor s d) as [[sensor s1]|e]; [|done].
    destruct (add_measurement s1 sensor d) as [s2|e]; [|done].
    apply IH in Hloop as (j & r0 & Hj & Hbad & Hbefore).
    exists (S j), r0. split; [done|]. split; [by rewrite Nat.add_succ_r|].
    intros k r' Hk Hk'. destruct k as [|k].
    + simpl in Hk'. injection Hk' as <-. exists d. by rewrite Nat.add_0_r.
    + rewrite Nat.add_succ_r. apply (Hbefore k r'); [lia|done].
  - destruct e; simplify_eq. exists 0%nat, r. rewrite Nat.add_0_r.
    split; [done|]. split; [done|]. intros k r' Hk. lia.
Qed.

(** X1: no request removes or changes a row: after [post_measurements],
    whatever the batch and the answer, the sensors table and the
    measurements table begin with the rows they had, in the same order. *)
Theorem post_measurements_append_only
    (clock : nat -> Z) (db : Store) (readings : option (list Reading)) :
  sensors db `prefix_of` sensors (post_measurements clock db readings).2
  /\ measurements db `prefix_of` measurements (post_measurements clock db readings).2.
Proof.
  split.
  - destruct (post_measurements_sensors clock db readings) as (added & -> & _).
    by apply prefix_app_r.
  - unfold post_measurements, session_scope.
    destruct readings as [[|r rs]|]; [done| |done].
    destruct (ingest_loop clock 0 0 (r :: rs) db) as [out s'] eqn:Hloop.
    apply ingest_loop_keeps in Hloop as [Hpre _].
    by destruct out.
Qed.

(** X2: the error answers of [post_measurements].  A 500 leaves the store
    as it was.  A 400 is either the one for a missing or empty list, with
    the store as it was, or carries the ValueError message of the first
    record of the batch that [normalize_reading] rejects. *)
Theorem post_measurements_error_answers
    (clock : nat -> Z) (db : Store) (readings : option (list Reading)) :
  ((post_measurements clock db readings).1 = ServerError500 ->
     (post_measurements clock db readings).2 = db)
  /\ (forall msg,
        (post_measurements clock db readings).1 = BadRequest400 msg ->
        (default [] readings = []
         /\ msg = "readings must be a non-empty list"
         /\ (post_measurements clock db readings).2 = db)
        \/ (exists j r,
              default [] readings !! j = Some r
              /\ normalize_reading (clock j) r = Exn (ValueError msg)
              /\ forall k r', (k < j)%nat -> default [] readings !! k = Some r' ->
                   exists d, normalize_reading (clock k) r' = Ret d)).
Proof.
  unfold post_measurements, session_scope.
  destruct readings as [[|r rs]|].
  1,3: simpl; split; [done|]; intros msg [= <-]; by left.
  change (default [] (Some (r :: rs))) with (r :: rs).
  destruct (ingest_loop clock 0 0 (r :: rs) db) as [out s'] eqn:Hloop.
  destruct out as [n|resp|e]; cbn [fst snd].
  - split; [done|]. by intros msg.
  - pose proof (ingest_loop_Return_inv _ _ _ _ _ _ _ Hloop) as [msg0 ->].
    split; [done|]. intros msg [= <-]. right.
    apply ingest_loop_Return_record in Hloop as (j & r0 & Hj & Hbad & Hbefore).
    by exists j, r0.
  - split; [done|]. by intros msg.
Qed.

(** X3: the count of a 200.  When [post_measurements] answers
    [{"ingested": n}], [n] is the number of records of the batch, every
    record passed [normalize_reading], and the measurements table has
    grown by exactly [n] rows. *)
Theorem post_measurements_count
    (clock : nat -> Z) (db db' : Store) (readings : option (list Reading)) (n : nat) :
  post_measurements clock db readings = (Ok200 n, db') ->
  exists batch ds rows,
    readings = Some batch /\ batch <> [] /\ n = length batch
    /\ normalize_from clock 0 batch = Ret <$> ds
    /\ measurements db' = measurements db ++ rows
    /\ length rows = n.
Proof.
  unfold post_measurements, session_scope.
  destruct readings as [[|r rs]|]; [done| |done].
  destruct (ingest_loop clock 0 0 (r :: rs) db) as [out s'] eqn:Hloop.
  destruct out as [c|resp|e]; [| |done].
  - intros [= <- <-].
    apply ingest_loop_Next_inv in Hloop as (ds & Hnorm & Hrun & ->).
    apply ingest_data_measurements in Hrun as (rows & Hrows & Hlen).
    exists (r :: rs), ds, rows. split; [done|]. split; [done|]. split; [done|].
    split; [done|]. split; [done|].
    by rewrite Hlen, (normalize_from_length _ _ _ _ Hnorm).
  - by apply ingest_loop_Return_inv in Hloop as [msg ->].
Qed.

(** X4: the constraints of the schema are kept.  On a store in which
    sensor ids, sensor keys and measurement ids are distinct and every
    measurement names a sensor that exists, every request -- whatever
    the batch and the answer -- and the seeding leave such a store. *)
Theorem store_constraints_kept
    (clock : nat -> Z) (db : Store) (readings : option (list Reading)) :
  store_ok db ->
  store_ok (post_measurements clock db readings).2
  /\ store_ok (seed_default_sensors db).
Proof.
  intros Hdb. split.
  - unfold post_measurements, session_scope.
    destruct readings as [[|r rs]|]; [done| |done].
    destruct (ingest_loop clock 0 0 (r :: rs) db) as [out s'] eqn:Hloop.
    apply ingest_loop_keeps in Hloop as [_ Hok].
    destruct out; simpl; auto.
  - unfold seed_default_sensors. destruct (sensors db) eqn:Hs; [|done].
    destruct Hdb as [(_ & _ & Hfk) Hmids]. rewrite Hs in Hfk.
    split; [split; [|split]|done]; simpl.
    + apply (bool_decide_unpack _). by vm_compute.
    + apply (bool_decide_unpack _). by vm_compute.
    + eapply Forall_impl; [exact Hfk|]. intros m Hm. by apply elem_of_nil in Hm.
Qed.

End IngestionKeeps.

(** ** Seeding ([backend/seed.py]) *)

(** X5: [seed_default_sensors] writes only into an empty sensors table.
    A table with any row is left as it is, whether or not it has the
    default sensors; seeding twice is seeding once; the measurements are
    never touched; and an empty table gets the four default keys, with
    the ids 1 to 4. *)
Theorem seed_default_sensors_once (db : Store) :
  seed_default_sensors (seed_default_sensors db) = seed_default_sensors db
  /\ measurements (seed_default_sensors db) = measurements db
  /\ (sensors db <> [] -> seed_default_sensors db = db)
  /\ (sensors db = [] ->
        (fun s => (s_id s, s_key s)) <$> sensors (seed_default_sensors db)
        = [ (1, "ambient_bme280"); (2, "uv_ltr390"); (3, "probe_ds18b20");
            (4, "ambient_bh1750") ]).
Proof.
  unfold seed_default_sensors.
  destruct (sensors db) as [|s l] eqn:Hs; simpl.
  - split; [done|]. split; [done|]. split; [done|]. by intros _.
  - rewrite Hs. split; [done|]. split; [done|]. split; [done|]. done.
Qed.

(** ** The sensor listing ([get_sensors]) *)

(** The dictionary [serialize_sensor] builds. *)
Record SensorPayload : Type := {
  sp_id : Z;
  sp_key : string;
  sp_name : string;
  sp_model : option string;
  sp_location : option string;
  sp_enabled : bool;
  sp_poll_interval_sec : Z;
  sp_unit_preference : string
}.

(** [serialize_sensor] of [backend/api.py]. *)
Definition serialize_sensor (sensor : Sensor) : SensorPayload :=
  {| sp_id := s_id sensor;
     sp_key := s_key sensor;
     sp_name := s_name sensor;
     sp_model := s_model sensor;
     sp_location := s_location sensor;
     sp_enabled := s_enabled sensor;
     sp_poll_interval_sec := s_poll_interval_sec sensor;
     sp_unit_preference := s_unit_preference sensor |}.

(** [ORDER BY] on a text column: SQLite compares the bytes. *)
Definition text_le {A} (column : A -> string) : relation A :=
  fun a b => String.leb (column a) (column b) = true.

#[export] Instance text_le_dec {A} (column : A -> string) : RelDecision (text_le column).
Proof. intros a b. unfold text_le. apply _. Defined.

#[export] Instance text_le_total {A} (column : A -> string) : Total (text_le column).
Proof. intros a b. unfold text_le. apply String.leb_total. Qed.

(** [get_sensors] of [backend/api.py]. *)
Definition get_sensors (db : Store) : response (list SensorPayload) :=
  let sensors := merge_sort (text_le s_name) (sensors db) in
  Ok200 (serialize_sensor <$> sensors).

Definition listed (db : Store) : list SensorPayload :=
  match get_sensors db with
  | Ok200 payload => payload
  | _ => []
  end.

(** X6: the listing has every sensor of the table exactly once, with all
    its columns, in ascending order of the names. *)
Theorem get_sensors_lists_all_by_name (db : Store) :
  exists rows,
    get_sensors db = Ok200 (serialize_sensor <$> rows)
    /\ rows ≡ₚ sensors db
    /\ Sorted (text_le s_name) rows
    /\ Sorted (text_le sp_name) (serialize_sensor <$> rows).
Proof.
  exists (merge_sort (text_le s_name) (sensors db)).
  split; [done|]. split; [apply merge_sort_Permutation|].
  assert (Sorted (text_le s_name) (merge_sort (text_le s_name) (sensors db)))
    as Hsorted by (apply Sorted_merge_sort; apply _).
  split; [done|]. by apply (Sorted_fmap serialize_sensor (text_le s_name)).
Qed.

Lemma elem_of_listed db p :
  p ∈ listed db <-> exists s, s ∈ sensors db /\ p = serialize_sensor s.
Proof.
  unfold listed, get_sensors. rewrite list_elem_of_fmap.
  split; intros (s & Hp & Hs); exists s; split; try done.
  - by rewrite merge_sort_Permutation in Hs.
  - by rewrite merge_sort_Permutation.
Qed.

Section Listing.

Context `{Builtins}.

Lemma ingest_data_keys ds :
  forall s s', ingest_data s ds = Ret s' ->
  forall d, d ∈ ds -> d_sensor_key d ∈ (s_key <$> sensors s').
Proof.
  induction ds as [|d0 ds IH]; intros s s' Hrun d Hd.
  - by apply elem_of_nil in Hd.
  - simpl in Hrun.
    destruct (get_or_create_sensor s d0) as [[sensor s1]|e] eqn:Hget; [|done].
    destruct (add_measurement s1 sensor d0) as [s2|e] eqn:Hadd; [|done].
    apply elem_of_cons in Hd as [->|Hd]; [|by apply (IH s2 s' Hrun)].
    apply get_or_create_sensor_grows in Hget as (_ & Hkey & Hin & _).
    apply add_measurement_sensors in Hadd. apply ingest_data_prefix in Hrun.
    rewrite <- Hkey. apply list_elem_of_fmap_2.
    eapply prefix_elem_of; [exact Hrun|]. by rewrite Hadd.
Qed.

(** X7: ingestion and the listing.  What was listed before a request is
    listed after it, unchanged, whatever the batch and the answer; and
    after a 200 the listing has a sensor for the key of every record of
    the batch. *)
Theorem listing_after_ingestion
    (clock : nat -> Z) (db : Store) (readings : option (list Reading)) :
  (forall p, p ∈ listed db -> p ∈ listed (post_measurements clock db readings).2)
  /\ (forall n r key,
        (post_measurements clock db readings).1 = Ok200 n ->
        r ∈ default [] readings -> r_sensor_key r = Some key ->
        exists p, p ∈ listed (post_measurements clock db readings).2
                  /\ sp_key p = key).
Proof.
  split.
  - intros p Hp. apply elem_of_listed in Hp as (s & Hs & ->).
    apply elem_of_listed. exists s. split; [|done].
    destruct (post_measurements_sensors clock db readings) as (added & -> & _).
    apply elem_of_app. by left.
  - intros n r key. unfold post_measurements, session_scope.
    destruct readings as [[|r0 rs]|]; [done| |done].
    change (default [] (Some (r0 :: rs))) with (r0 :: rs).
    destruct (ingest_loop clock 0 0 (r0 :: rs) db) as [out s'] eqn:Hloop.
    destruct out as [c|resp|e]; cbn [fst snd]; [| |done].
    2:{ apply ingest_loop_Return_inv in Hloop as [msg ->]. done. }
    intros _ Hr Hkey.
    apply ingest_loop_Next_inv in Hloop as (ds & Hnorm & Hrun & _).
    apply list_elem_of_lookup in Hr as [i Hi].
    pose proof (normalize_from_lookup clock (r0 :: rs) 0 i) as Hlook.
    rewrite Hnorm, list_lookup_fmap, Hi in Hlook. simpl in Hlook.
    destruct (ds !! i) as [d|] eqn:Hd; [|done]. simpl in Hlook.
    injection Hlook as Hr. symmetry in Hr.
    apply normalize_reading_Ret in Hr as (Hk & _).
    rewrite Hkey in Hk. injection Hk as ->.
    pose proof (ingest_data_keys ds db s' Hrun d) as Hin.
    apply list_elem_of_fmap in Hin as (s & Hs & Hin);
      [|by eapply list_elem_of_lookup_2].
    exists (serialize_sensor s). split; [|done].
    apply elem_of_listed. by exists s.
Qed.

End Listing.

(** ** Timestamps ([backend/utils.py]) *)

Lemma append_cons c a b : String c a +:+ b = String c (a +:+ b).
Proof. done. Qed.

Lemma append_assoc a b c : (a +:+ b) +:+ c = a +:+ (b +:+ c).
Proof.
  induction a as [|x a IH]; [done|]. by rewrite !append_cons, IH.
Qed.

Lemma append_not_empty a c b : a +:+ String c b <> "".
Proof. by destruct a. Qed.

Lemma replace_Z_append a b : replace_Z (a +:+ b) = replace_Z a +:+ replace_Z b.
Proof.
  induction a as [|x a IH]; [done|]. rewrite append_cons. simpl.
  destruct (Ascii.eqb x "Z"); rewrite IH.
  - by rewrite append_assoc.
  - by rewrite append_cons.
Qed.

Section Timestamps.

Context `{Builtins}.

(** X8: [parse_iso8601] reads a trailing ["Z"] as the offset ["+00:00"]:
    the two spellings of a timestamp give the same instant or the same
    error.  It raises ValueError -- on the empty string without calling
    [fromisoformat] -- or OverflowError, and that only for a timestamp
    with an offset other than zero whose instant in UTC is outside the
    years 1 to 9999. *)
Theorem parse_iso8601_zulu (s : string) :
  parse_iso8601 (s +:+ "Z") = parse_iso8601 (s +:+ "+00:00")
  /\ ((exists t, parse_iso8601 s = Ret t)
      \/ (exists msg, parse_iso8601 s = Exn (ValueError msg))
      \/ (parse_iso8601 s = Exn OverflowError
          /\ exists parsed offset,
               fromisoformat (replace_Z s) = Some parsed
               /\ dt_utcoffset parsed = Some offset
               /\ offset <> 0
               /\ in_datetime_range (dt_wall parsed - offset) = false))
  /\ parse_iso8601 "" = Exn (ValueError "Timestamp value is required").
Proof.
  split; [|split; [|done]].
  - unfold parse_iso8601.
    destruct (String.eqb_spec (s +:+ "Z") "") as [He|_];
      [by apply append_not_empty in He|].
    destruct (String.eqb_spec (s +:+ "+00:00") "") as [He|_];
      [by apply append_not_empty in He|].
    by rewrite !replace_Z_append.
  - unfold parse_iso8601, astimezone_utc.
    destruct (String.eqb s ""); [right; left; by eexists|].
    destruct (fromisoformat (replace_Z s)) as [parsed|] eqn:Hparsed;
      [|right; left; by eexists].
    destruct (dt_utcoffset parsed) as [offset|] eqn:Hoffset;
      [|left; by eexists].
    destruct (Z.eqb_spec offset 0) as [|Hne]; simpl; [left; by eexists|].
    destruct (in_datetime_range _) eqn:Hrange; [left; by eexists|].
    do 2 right. split; [done|]. by exists parsed, offset.
Qed.

End Timestamps.

(** ** The range query: answers and rows *)

Lemma elem_of_join_sensor db x :
  x ∈ join_sensor db <->
    x.1 ∈ measurements db /\ x.2 ∈ sensors db /\ s_id x.2 = m_sensor_id x.1.
Proof.
  unfold join_sensor. rewrite list_elem_of_bind. split.
  - intros (m & Hx & Hm). apply list_elem_of_fmap in Hx as (s & -> & Hs).
    apply list_elem_of_filter in Hs as [Hid Hs]. by simpl.
  - intros (Hm & Hs & Hid). exists x.1. split; [|done].
    apply list_elem_of_fmap. exists x.2. split; [by destruct x|].
    by apply list_elem_of_filter.
Qed.

Lemma limit_rows_elem_of {A} n (rows : list A) x : x ∈ limit_rows n rows -> x ∈ rows.
Proof.
  intros Hx. rewrite <- (limit_rows_rest n rows). apply elem_of_app. by left.
Qed.

Section RangeQuery.

Context `{Builtins}.

Lemma parse_optional_datetime_cases value :
  (exists t, parse_optional_datetime value = Ret t)
  \/ (exists msg, parse_optional_datetime value = Exn (ValueError msg))
  \/ parse_optional_datetime value = Exn OverflowError.
Proof.
  unfold parse_optional_datetime. destruct (truthy value); simpl; [|by left; eexists].
  destruct (parse_iso8601_cases (default "" value)) as [[t ->]|[[msg ->]| ->]];
    [left|right; left|right; right]; by eauto.
Qed.

Lemma int_arg_cases param default :
  (exists n, int_arg param default = Ret n)
  \/ (exists msg, int_arg param default = Exn (ValueError msg)).
Proof.
  unfold int_arg. destruct param as [text|]; [|left; by eexists].
  destruct (int_of_str text); [left|right]; by eexists.
Qed.

(** X9: the answers of the range query.  It answers 400 with
    ["sensor_key and metric are required"] when the sensor key or the
    metric is missing or empty, whatever the other parameters.  Else it
    answers 500 when the limit is no integer; else 400 with the
    ValueError of [start] or, when [start] parses, of [end], and 500
    when what one of them raises is an OverflowError; else 500 when the
    limit is below [-2^63]; and 200 in every other case. *)
Theorem get_measurements_answers
    (db : Store) (sensor_key metric start_param end_param : option string)
    (limit_param order_param : option string) :
  match get_measurements db sensor_key metric start_param end_param
          limit_param order_param with
  | Ok200 _ =>
      truthy sensor_key = true /\ truthy metric = true
      /\ (exists limit, int_arg limit_param 1440 = Ret limit /\ - 2 ^ 63 <= limit)
      /\ (exists lo, parse_optional_datetime start_param = Ret lo)
      /\ (exists hi, parse_optional_datetime end_param = Ret hi)
  | BadRequest400 msg =>
      ((truthy sensor_key = false \/ truthy metric = false)
       /\ msg = "sensor_key and metric are required")
      \/ (truthy sensor_key = true /\ truthy metric = true
          /\ (exists limit, int_arg limit_param 1440 = Ret limit)
          /\ (parse_optional_datetime start_param = Exn (ValueError msg)
              \/ ((exists lo, parse_optional_datetime start_param = Ret lo)
                  /\ parse_optional_datetime end_param = Exn (ValueError msg))))
  | ServerError500 =>
      truthy sensor_key = true /\ truthy metric = true
      /\ ((exists msg, int_arg limit_param 1440 = Exn (ValueError msg))
          \/ (exists limit,
                int_arg limit_param 1440 = Ret limit
                /\ (parse_optional_datetime start_param = Exn OverflowError
                    \/ ((exists lo, parse_optional_datetime start_param = Ret lo)
                        /\ (parse_optional_datetime end_param = Exn OverflowError
                            \/ ((exists hi, parse_optional_datetime end_param = Ret hi)
                                /\ limit < - 2 ^ 63))))))
  end.
Proof.
  unfold get_measurements.
  destruct (truthy sensor_key) eqn:Hk; simpl; [|left; auto].
  destruct (truthy metric) eqn:Hm; simpl; [|left; auto].
  destruct (int_arg_cases limit_param 1440) as [[limit Hlimit]|[msg Hlimit]];
    rewrite Hlimit; [|split; [done|split; [done|left; by eexists]]].
  destruct (parse_optional_datetime_cases start_param)
    as [[lo Hlo]|[[msg Hlo]|Hlo]]; rewrite Hlo.
  2:{ right. split; [done|]. split; [done|]. split; [by eexists|by left]. }
  2:{ split; [done|]. split; [done|]. right. exists limit. split; [done|by left]. }
  destruct (parse_optional_datetime_cases end_param)
    as [[hi Hhi]|[[msg Hhi]|Hhi]]; rewrite Hhi.
  2:{ right. split; [done|]. split; [done|]. split; [by eexists|].
      right. split; [by eexists|done]. }
  2:{ split; [done|]. split; [done|]. right. exists limit. split; [done|].
      right. split; [by eexists|by left]. }
  unfold sql_limit. rewrite sqlite_int_ok_min by lia.
  case_bool_decide as Hfits.
  - split; [done|]. split; [done|]. split; [by exists limit|].
    split; by eexists.
  - split; [done|]. split; [done|]. right. exists limit. split; [done|].
    right. split; [by eexists|]. right. split; [by eexists|lia].
Qed.

(** X10: no data is not an error.  For a sensor key the store does not
    have, the range query with bounds that parse and a limit that is an
    integer not below [-2^63] answers 200 with an empty list. *)
Theorem get_measurements_unknown_sensor
    (db : Store) (key metric : string) (start_param end_param : option string)
    (limit_param order_param : option string) (lo hi : option Z) (limit : Z) :
  key <> "" -> metric <> "" ->
  int_arg limit_param 1440 = Ret limit ->
  - 2 ^ 63 <= limit ->
  parse_optional_datetime start_param = Ret lo ->
  parse_optional_datetime end_param = Ret hi ->
  key ∉ (s_key <$> sensors db) ->
  get_measurements db (Some key) (Some metric) start_param end_param
    limit_param order_param = Ok200 [].
Proof.
  intros Hkey Hmetric Hlimit Hfits Hlo Hhi Hunknown. unfold get_measurements. simpl.
  destruct (String.eqb_spec key "") as [|_]; [done|].
  destruct (String.eqb_spec metric "") as [|_]; [done|]. simpl.
  rewrite Hlimit, Hlo, Hhi.
  assert (select_measurements db key metric lo hi = []) as ->.
  { apply elem_of_nil_inv. intros x Hx.
    apply elem_of_select_measurements in Hx as (Hjoin & Hk & _).
    apply elem_of_join_sensor in Hjoin as (_ & Hs & _).
    apply Hunknown. rewrite <- Hk. by apply list_elem_of_fmap_2. }
  assert (forall descending,
            order_by (fun x : MeasurementObj => m_recorded_at x.1) descending []
            = []) as Hsort by (by intros []).
  rewrite Hsort, sql_limit_Ret.
  - unfold limit_rows. destruct (_ <? 0); [done|]. by rewrite take_nil.
  - rewrite sqlite_int_ok_min by lia. by apply bool_decide_eq_true_2.
Qed.

(** X11: the range query answers with stored readings of the sensor and
    the metric asked for, and with nothing else: every element of a 200
    has the sensor key and the metric of the request and the value, the
    unit and the time of a row of the measurements table whose sensor has
    that key. *)
Theorem get_measurements_returns_stored_rows
    (db : Store) (key metric : string) (start_param end_param : option string)
    (limit_param : option string) (order_param : option string)
    (payload : list MeasurementPayload) (p : MeasurementPayload) :
  get_measurements db (Some key) (Some metric) start_param end_param
    limit_param order_param = Ok200 payload ->
  p ∈ payload ->
  p_sensor_key p = Some key /\ p_metric p = metric
  /\ exists m s,
       m ∈ measurements db /\ s ∈ sensors db
       /\ s_id s = m_sensor_id m /\ s_key s = key
       /\ m_metric m = metric
       /\ p_value p = m_value m /\ p_unit p = m_unit m
       /\ p_recorded_at p = m_recorded_at m.
Proof.
  unfold get_measurements.
  destruct (negb (truthy (Some key)) || negb (truthy (Some metric))); [done|].
  destruct (int_arg limit_param 1440) as [limit|]; [|done].
  destruct (parse_optional_datetime start_param) as [lo|[]]; try done.
  destruct (parse_optional_datetime end_param) as [hi|[]]; try done.
  destruct (sql_limit _ _) as [kept|] eqn:Hkept; [|done].
  apply sql_limit_inv in Hkept as [_ ->].
  intros [= <-] Hp. apply list_elem_of_fmap in Hp as (x & -> & Hx).
  apply limit_rows_elem_of in Hx. rewrite order_by_Permutation in Hx.
  simpl in Hx. apply elem_of_select_measurements in Hx as (Hjoin & Hk & Hm & _).
  apply elem_of_join_sensor in Hjoin as (Hrow & Hs & Hid).
  simpl. rewrite Hk. split; [done|]. split; [done|]. by exists x.1, x.2.
Qed.

End RangeQuery.

(** ** Alert rules ([post_alerts], [get_alerts]) *)

(** A row of [alert_rules], without [created_at] and [updated_at].  The
    id of an [AlertRule] object is [None] until the row is inserted. *)
Record AlertRule : Type := {
  a_id : option Z;
  a_metric : string;
  a_min_value : option pyfloat;
  a_max_value : option pyfloat;
  a_channel : string;
  a_target : string;
  a_enabled : bool
}.

(** The JSON object [post_alerts] gets, with the fields [normalize_alert]
    reads; [None] is a missing key or a null, and for [enabled] a missing
    key. *)
Record AlertPayload : Type := {
  ap_metric : option string;
  ap_min_value : jvalue;
  ap_max_value : jvalue;
  ap_channel : option string;
  ap_target : option string;
  ap_enabled : option bool
}.

Section Alerts.

Context `{Builtins}.

(** [coerce_optional_float] of [backend/api.py]. *)
Definition coerce_optional_float (value : jvalue) : result (option pyfloat) :=
  if value_is_None value then Ret None
  else
    match py_float value with
    | Ret f => Ret (Some f)
    | Exn TypeError | Exn (ValueError _) =>
        Exn (ValueError "min_value and max_value must be numbers")
    | Exn e => Exn e
    end.

(** [normalize_alert] of [backend/api.py]. *)
Definition normalize_alert (payload : AlertPayload) : result AlertRule :=
  let metric := ap_metric payload in
  let channel := ap_channel payload in
  let target := ap_target payload in
  if negb (truthy metric) || negb (truthy channel) || negb (truthy target)
  then Exn (ValueError "metric, channel, and target are required")
  else
    match coerce_optional_float (ap_min_value payload) with
    | Exn e => Exn e
    | Ret min_value =>
        match coerce_optional_float (ap_max_value payload) with
        | Exn e => Exn e
        | Ret max_value =>
            Ret {| a_id := None;
                   a_metric := default "" metric;
                   a_min_value := min_value;
                   a_max_value := max_value;
                   a_channel := default "" channel;
                   a_target := default "" target;
                   a_enabled := default true (ap_enabled payload) |}
        end
    end.

(** What the INSERT of an alert rule writes: the next id, and NULL for a
    threshold that is NaN (the two columns are nullable). *)
Definition nan_to_null (value : option pyfloat) : option pyfloat :=
  match value with
  | Some f => if is_nan f then None else Some f
  | None => None
  end.

Definition insert_alert (alerts : list AlertRule) (alert : AlertRule) : list AlertRule :=
  alerts ++
    [ {| a_id := Some (next_id (omap a_id alerts));
         a_metric := a_metric alert;
         a_min_value := nan_to_null (a_min_value alert);
         a_max_value := nan_to_null (a_max_value alert);
         a_channel := a_channel alert;
         a_target := a_target alert;
         a_enabled := a_enabled alert |} ].

(** [post_alerts] of [backend/api.py], on the table [alert_rules]; the
    payload of a 200 is the value of ["created"]. *)
Definition post_alerts (alerts : list AlertRule) (payload : AlertPayload)
  : response bool * list AlertRule :=
  match normalize_alert payload with
  | Exn (ValueError msg) => (BadRequest400 msg, alerts)
  | Exn _ => (ServerError500, alerts)
  | Ret alert => (Ok200 true, insert_alert alerts alert)
  end.

End Alerts.

(** The dictionary [serialize_alert] builds. *)
Record AlertRulePayload : Type := {
  arp_id : option Z;
  arp_metric : string;
  arp_min_value : option pyfloat;
  arp_max_value : option pyfloat;
  arp_channel : string;
  arp_target : string;
  arp_enabled : bool
}.

(** [serialize_alert] of [backend/api.py]. *)
Definition serialize_alert (alert : AlertRule) : AlertRulePayload :=
  {| arp_id := a_id alert;
     arp_metric := a_metric alert;
     arp_min_value := a_min_value alert;
     arp_max_value := a_max_value alert;
     arp_channel := a_channel alert;
     arp_target := a_target alert;
     arp_enabled := a_enabled alert |}.

(** [get_alerts] of [backend/api.py]. *)
Definition get_alerts (alerts : list AlertRule) : response (list AlertRulePayload) :=
  let alerts := merge_sort (text_le a_metric) alerts in
  Ok200 (serialize_alert <$> alerts).

Section AlertsProperties.

Context `{Builtins}.

Lemma coerce_optional_float_cases value :
  (value = JNull /\ coerce_optional_float value = Ret None)
  \/ (exists f, py_float value = Ret f /\ coerce_optional_float value = Ret (Some f))
  \/ (value <> JNull
      /\ ((exists msg, py_float value = Exn (ValueError msg)) \/ py_float value = Exn TypeError)
      /\ coerce_optional_float value
         = Exn (ValueError "min_value and max_value must be numbers"))
  \/ (py_float value = Exn OverflowError
      /\ coerce_optional_float value = Exn OverflowError).
Proof.
  unfold coerce_optional_float.
  destruct value as [|b|n|f|str|]; simpl; auto.
  - right. left. by eexists.
  - destruct (float_of_int n); [right; left; by eexists|]. right. right. by right.
  - right. left. by eexists.
  - destruct (float_of_str str); [right; left; by eexists|].
    right. right. left. split; [done|]. split; [left; by eexists|done].
  - right. right. left. split; [done|]. split; [by right|done].
Qed.

(** The thresholds of a payload are acceptable: each is missing or
    converts with [float]. *)
Definition threshold_ok (value : jvalue) : Prop :=
  value = JNull \/ exists f, py_float value = Ret f.

(** The threshold the table holds for a value of the payload. *)
Definition stored_threshold (value : jvalue) : option pyfloat :=
  match py_float value with
  | Ret f => nan_to_null (Some f)
  | Exn _ => None
  end.

(** X12: what [post_alerts] accepts.  It answers 200 and appends one
    rule exactly when metric, channel and target are there and not empty
    and each threshold is missing or converts with [float]; the table is
    left as it was by every other answer.  The 400 for the three required
    fields comes before the one for the thresholds. *)
Theorem post_alerts_accepts (alerts : list AlertRule) (payload : AlertPayload) :
  let required :=
    truthy (ap_metric payload) && truthy (ap_channel payload)
    && truthy (ap_target payload) in
  match (post_alerts alerts payload).1 with
  | Ok200 created =>
      created = true /\ required = true
      /\ threshold_ok (ap_min_value payload) /\ threshold_ok (ap_max_value payload)
      /\ exists rule, (post_alerts alerts payload).2 = alerts ++ [rule]
  | BadRequest400 msg =>
      (post_alerts alerts payload).2 = alerts
      /\ ((required = false /\ msg = "metric, channel, and target are required")
          \/ (required = true
              /\ (~ threshold_ok (ap_min_value payload)
                  \/ ~ threshold_ok (ap_max_value payload))
              /\ msg = "min_value and max_value must be numbers"))
  | ServerError500 =>
      (post_alerts alerts payload).2 = alerts /\ required = true
      /\ (~ threshold_ok (ap_min_value payload)
          \/ ~ threshold_ok (ap_max_value payload))
  end.
Proof.
  unfold post_alerts, normalize_alert, threshold_ok.
  destruct (truthy (ap_metric payload)); simpl; [|by split; [|left]].
  destruct (truthy (ap_channel payload)); simpl; [|by split; [|left]].
  destruct (truthy (ap_target payload)); simpl; [|by split; [|left]].
  destruct (coerce_optional_float_cases (ap_min_value payload))
    as [[Hmin ->]|[(f & Hmin & ->)|[(Hnn & Hmin & ->)|[Hmin ->]]]].
  3:{ simpl. split; [done|]. right. split; [done|]. split; [|done]. left.
      intros [?|[f Hf]]; [done|]. destruct Hmin as [[msg ?]|?]; congruence. }
  3:{ simpl. split; [done|]. split; [done|]. left.
      intros [Hnull|[f Hf]]; [|congruence]. by rewrite Hnull in Hmin. }
  all: destruct (coerce_optional_float_cases (ap_max_value payload))
    as [[Hmax ->]|[(g & Hmax & ->)|[(Hnn & Hmax & ->)|[Hmax ->]]]]; simpl.
  all: try (split; [done|]; split; [done|];
            split; [first [by left|right; by eexists]|];
            split; [first [by left|right; by eexists]|]; by eexists).
  all: try (split; [done|]; right; split; [done|]; split; [|done]; right;
            intros [?|[g Hg]]; [done|]; destruct Hmax as [[msg ?]|?]; congruence).
  all: split; [done|]; split; [done|]; right;
    intros [Hnull|[g Hg]]; [|congruence]; by rewrite Hnull in Hmax.
Qed.

(** X13: a rule that [post_alerts] accepted is listed.  After a 200 the
    listing of [get_alerts] has what it had, and one more rule: with the
    metric, the channel and the target of the payload, its thresholds as
    floats (nothing for a missing one, and nothing for NaN), [enabled]
    true unless the payload says otherwise, and an id no listed rule
    had.  The listing is in ascending order of the metrics. *)
Theorem posted_alert_is_listed
    (alerts alerts' : list AlertRule) (payload : AlertPayload) :
  post_alerts alerts payload = (Ok200 true, alerts') ->
  exists rule listing,
    get_alerts alerts' = Ok200 listing
    /\ Sorted (text_le arp_metric) listing
    /\ listing ≡ₚ (serialize_alert <$> alerts) ++ [serialize_alert rule]
    /\ ap_metric payload = Some (a_metric rule)
    /\ ap_channel payload = Some (a_channel rule)
    /\ ap_target payload = Some (a_target rule)
    /\ a_min_value rule = stored_threshold (ap_min_value payload)
    /\ a_max_value rule = stored_threshold (ap_max_value payload)
    /\ a_enabled rule = default true (ap_enabled payload)
    /\ (exists id, a_id rule = Some id
                   /\ forall old, old ∈ alerts -> a_id old <> Some id).
Proof.
  unfold post_alerts, normalize_alert.
  destruct (ap_metric payload) as [metric|]; [|done].
  destruct (ap_channel payload) as [channel|];
    [|by destruct (negb (truthy (Some metric)))].
  destruct (ap_target payload) as [target|];
    [|by destruct (negb (truthy (Some metric))), (negb (truthy (Some channel)))].
  destruct (negb _ || negb _ || negb _); [done|].
  assert (forall value o, coerce_optional_float value = Ret o ->
            nan_to_null o = stored_threshold value) as Hstored.
  { intros value o. unfold coerce_optional_float, stored_threshold.
    destruct value as [|b|n|f|str|]; simpl; try by intros [= <-].
    - destruct (float_of_int n); by intros [= <-].
    - destruct (float_of_str str); by intros [= <-]. }
  destruct (coerce_optional_float (ap_min_value payload)) as [lo|[]] eqn:Hlo;
    try done.
  destruct (coerce_optional_float (ap_max_value payload)) as [hi|[]] eqn:Hhi;
    try done.
  intros [= <-]. unfold insert_alert. simpl.
  set (rule := {| a_id := Some (next_id (omap a_id alerts));
                  a_metric := metric;
                  a_min_value := nan_to_null lo;
                  a_max_value := nan_to_null hi;
                  a_channel := channel;
                  a_target := target;
                  a_enabled := default true (ap_enabled payload) |}).
  exists rule, (serialize_alert <$> merge_sort (text_le a_metric) (alerts ++ [rule])).
  split; [done|].
  split.
  { apply (Sorted_fmap serialize_alert (text_le a_metric)); [done|].
    apply Sorted_merge_sort; apply _. }
  split; [by rewrite merge_sort_Permutation, fmap_app|]. simpl.
  split; [done|]. split; [done|]. split; [done|].
  split; [by apply Hstored|]. split; [by apply Hstored|]. split; [done|].
  eexists. split; [done|]. intros old Hold Hid.
  assert (next_id (omap a_id alerts) ∈ omap a_id alerts) as Hin.
  { apply list_elem_of_omap. by exists old. }
  by apply next_id_fresh in Hin.
Qed.

End AlertsProperties.

(** ** The summary: entries and the full window *)

(** The distinct elements of a list, in the order of their first
    occurrences. *)
Fixpoint first_occurrences (l : list string) : list string :=
  match l with
  | [] => []
  | k :: rest => k :: filter (fun k' => k' <> k) (first_occurrences rest)
  end.

Lemma elem_of_first_occurrences l k : k ∈ first_occurrences l <-> k ∈ l.
Proof.
  induction l as [|a l IH]; simpl; [done|].
  rewrite !elem_of_cons, list_elem_of_filter, IH.
  destruct (decide (k = a)) as [->|Hne]; split.
  - by left.
  - by left.
  - intros [?|[_ ?]]; [done|by right].
  - intros [?|?]; [done|by right].
Qed.

Lemma first_occurrences_snoc l k :
  first_occurrences (l ++ [k]) =
    if decide (k ∈ l) then first_occurrences l else first_occurrences l ++ [k].
Proof.
  induction l as [|a l IH]; simpl.
  - by destruct (decide (k ∈ [])) as [?%elem_of_nil|].
  - rewrite IH. destruct (decide (k ∈ l)) as [Hin|Hnotin].
    + destruct (decide (k ∈ a :: l)) as [|Hn]; [done|].
      exfalso. apply Hn. by right.
    + destruct (decide (k = a)) as [->|Hne].
      * destruct (decide (a ∈ a :: l)) as [|Hn]; [|exfalso; apply Hn; by left].
        rewrite filter_app.
        rewrite (filter_cons_False _ a) by (by intros ?).
        by rewrite filter_nil, app_nil_r.
      * destruct (decide (k ∈ a :: l)) as [[?|?]%elem_of_cons|]; [done..|].
        rewrite filter_app. by rewrite (filter_cons_True _ k) by done.
Qed.

(** The other half of what the two dictionaries of
    [build_summary_payload] hold after the measurements [done]: the keys
    are in the order of their first measurements, and the entry of a key
    has a metric and the name, the model and the location of the sensor
    of the first measurement of that key. *)
Definition summary_entries_inv (done : list MeasurementObj)
    (st : list (string * SummaryEntry) * gmap string (gset string)) : Prop :=
  st.1.*1 = first_occurrences ((fun x : MeasurementObj => s_key x.2) <$> done)
  /\ forall k e, (k, e) ∈ st.1 ->
       e_metrics e <> []
       /\ exists x, find_first (fun x : MeasurementObj => s_key x.2 = k) done = Some x
                    /\ e_name e = s_name x.2
                    /\ e_model e = s_model x.2
                    /\ e_location e = s_location x.2.

Lemma summary_entries_inv_fold (measurements : list MeasurementObj) :
  summary_entries_inv measurements (foldl summary_step ([], ∅) measurements).
Proof.
  induction measurements as [|x done IH] using rev_ind.
  - split; [done|]. intros k e Hke. by apply elem_of_nil in Hke.
  - rewrite foldl_app. simpl.
    pose proof (summary_inv_fold done) as (_ & Hkeys & Hnone & _).
    destruct (foldl summary_step ([], ∅) done) as [sm sd].
    destruct IH as [Horder Hentries]. simpl in *.
    unfold summary_step. simpl.
    set (kx := s_key x.2). set (p := serialize_measurement x false).
    assert (forall k y, find_first (fun x : MeasurementObj => s_key x.2 = k) done = Some y ->
              find_first (fun x : MeasurementObj => s_key x.2 = k) (done ++ [x]) = Some y)
      as Hkeep.
    { intros k y Hy. by rewrite find_first_app, Hy. }
    assert (kx ∈ sm.*1 <-> kx ∈ (fun x : MeasurementObj => s_key x.2) <$> done) as Hkx.
    { rewrite Hkeys. unfold has_key. rewrite list_elem_of_fmap. split.
      - intros (y & Hy & Hk). by exists y.
      - intros (y & Hk & Hy). by exists y. }
    destruct (decide (kx ∈ sm.*1)) as [Hin|Hnotin].
    + rewrite setdefault_present by done.
      assert (first_occurrences ((fun x : MeasurementObj => s_key x.2) <$> done ++ [x])
              = sm.*1) as Horder'.
      { rewrite fmap_app. simpl. rewrite first_occurrences_snoc.
        by rewrite decide_True by (by apply Hkx). }
      destruct (decide (m_metric x.1 ∈ default ∅ (sd !! kx))) as [Hseen|Hnew];
        simpl.
      * split; [done|]. intros k e Hke.
        destruct (Hentries k e Hke) as (Hne & y & Hy & Hmeta).
        split; [done|]. exists y. split; [by apply Hkeep|done].
      * split; cbn [fst snd]; [by rewrite update_entry_keys|]. intros k e' Hke'.
        apply elem_of_update_entry in Hke' as (e & Hke & ->).
        destruct (Hentries k e Hke) as (Hne & y & Hy & Hmeta).
        destruct (decide (k = kx)) as [Hk|Hk]; simpl.
        -- split; [by intros [_ ?]%app_eq_nil|]. exists y.
           split; [by apply Hkeep|done].
        -- split; [done|]. exists y. split; [by apply Hkeep|done].
    + rewrite setdefault_absent by done.
      rewrite (Hnone kx Hnotin). simpl.
      rewrite decide_False by apply not_elem_of_empty.
      split; cbn [fst snd].
      * rewrite update_entry_keys, !fmap_app. simpl.
        change (s_key x.2) with kx. rewrite first_occurrences_snoc.
        destruct (decide _) as [Hd|_]; [by apply Hkx in Hd|by rewrite Horder].
      * intros k e' Hke'.
        apply elem_of_update_entry in Hke' as (e & Hke & ->).
        apply elem_of_app in Hke as [Hke|Hke].
        -- assert (k <> kx) as Hne.
           { intros ->. apply Hnotin. apply list_elem_of_fmap. by exists (kx, e). }
           rewrite decide_False by done.
           destruct (Hentries k e Hke) as (Hnil & y & Hy & Hmeta).
           split; [done|]. exists y. split; [by apply Hkeep|done].
        -- apply list_elem_of_singleton in Hke. injection Hke as -> ->.
           rewrite decide_True by done. simpl. split; [done|]. exists x.
           split; [|done]. rewrite find_first_app.
           replace (find_first (fun x0 : MeasurementObj => s_key x0.2 = kx) done)
             with (@None MeasurementObj).
           ++ simpl. by rewrite decide_True.
           ++ symmetry. apply find_first_None. intros y Hy Hk.
              apply Hnotin, Hkx. rewrite <- Hk.
              by apply (list_elem_of_fmap_2 (fun x : MeasurementObj => s_key x.2)).
Qed.

Lemma load_all_Ret db rows objs :
  load_all db rows = Ret objs ->
  objs.*1 = rows
  /\ Forall (fun x : MeasurementObj =>
               x.2 ∈ sensors db /\ s_id x.2 = m_sensor_id x.1) objs.
Proof.
  revert objs. induction rows as [|m rows IH]; intros objs; simpl.
  - by intros [= <-].
  - unfold load_sensor.
    destruct (list_find _ (sensors db)) as [[i s]|] eqn:Hfind; simpl; [|done].
    destruct (load_all db rows) as [objs'|e]; [|done]. intros [= <-].
    destruct (IH objs' eq_refl) as [Hfst Hobjs]. simpl.
    split; [by f_equal|]. constructor; [|done]. simpl.
    apply list_find_Some in Hfind as (Hi & Hid & _).
    split; [by eapply list_elem_of_lookup_2|done].
Qed.

Section SummaryEntries.

Context `{Builtins}.

(** X14: the entries of the summary.  A 200 of [get_summary] has its
    entries in the order in which their sensors first come up in the
    scan; no entry is without a metric; and every entry has the key, the
    name, the model and the location of a row of the sensors table. *)
Theorem get_summary_entries
    (db : Store) (limit_param : option string) (entries : list SummaryEntry) :
  get_summary db limit_param = Ok200 entries ->
  exists rows objs,
    summary_scan db limit_param = Ret rows
    /\ load_all db rows = Ret objs
    /\ e_key <$> entries
       = first_occurrences ((fun x : MeasurementObj => s_key x.2) <$> objs)
    /\ forall e, e ∈ entries ->
         e_metrics e <> []
         /\ exists s, s ∈ sensors db /\ e_key e = s_key s /\ e_name e = s_name s
                      /\ e_model e = s_model s /\ e_location e = s_location s.
Proof.
  unfold get_summary.
  destruct (summary_scan db limit_param) as [rows|e] eqn:Hscan; [|done].
  destruct (load_all db rows) as [objs|e] eqn:Hload; [|done].
  intros [= <-]. exists rows, objs. split; [done|]. split; [done|].
  apply load_all_Ret in Hload as [_ Hobjs].
  unfold build_summary_payload.
  pose proof (summary_entries_inv_fold objs) as [Horder Hentries].
  pose proof (summary_inv_fold objs) as (_ & _ & _ & Hold).
  set (d := (foldl summary_step ([], ∅) objs).1) in *.
  split.
  - rewrite <- Horder. apply entries_keys. intros k e Hke.
    by destruct (Hold k e Hke).
  - intros e He. apply list_elem_of_fmap in He as ([k e'] & -> & Hin). simpl.
    destruct (Hentries k e' Hin) as (Hne & x & Hx & Hname & Hmodel & Hloc).
    destruct (Hold k e' Hin) as (Hk & _).
    split; [done|]. exists x.2.
    apply find_first_Some in Hx as [Hx Hkx].
    rewrite Forall_forall in Hobjs. destruct (Hobjs x Hx) as [Hs _].
    split; [done|]. split; [congruence|done].
Qed.



End SummaryEntries.

(** ** The scheduler: the sleep and the trace of an iteration *)



(** The batches posted and the exceptions logged in a trace, with the
    positions of their tasks. *)
Definition posts_of (events : list event) : list (nat * list SensorReading) :=
  omap (fun e => match e with Post i batch => Some (i, batch) | _ => None end) events.

Definition logged_of (events : list event) : list (nat * pyexn) :=
  omap (fun e => match e with Logged i exc => Some (i, exc) | _ => None end) events.

(** What the world makes of a task at position [i] that iteration [n]
    gets to: the batch it has posted, and the exception it has logged. *)
Definition posted (w : World) (n i : nat) : option (nat * list SensorReading) :=
  match read w n i with
  | Ret (r :: rs) => Some (i, r :: rs)
  | _ => None
  end.

Definition failure (w : World) (n i : nat) : option (nat * pyexn) :=
  match read w n i with
  | Exn e => Some (i, e)
  | Ret [] => None
  | Ret (r :: rs) =>
      match post w n i (r :: rs) with
      | Exn e => Some (i, e)
      | Ret _ => None
      end
  end.

Lemma posts_of_app e1 e2 : posts_of (e1 ++ e2) = posts_of e1 ++ posts_of e2.
Proof. unfold posts_of. apply omap_app. Qed.

Lemma logged_of_app e1 e2 : logged_of (e1 ++ e2) = logged_of e1 ++ logged_of e2.
Proof. unfold logged_of. apply omap_app. Qed.

Lemma try_read_and_post_trace w n i :
  posts_of (try_read_and_post w n i) = option_list (posted w n i)
  /\ logged_of (try_read_and_post w n i) = option_list (failure w n i).
Proof.
  unfold try_read_and_post, read_and_post, posted, failure.
  destruct (read w n i) as [[|r rs]|e]; simpl; try done.
  destruct (post w n i (r :: rs)); done.
Qed.

Section SchedulerTrace.

Context `{FloatOps}.



Lemma poll_tasks_trace w n now tasks :
  forall i,
    posts_of (poll_tasks w n now i tasks).2
      = omap (posted w n) (attempted now i tasks)
    /\ logged_of (poll_tasks w n now i tasks).2
      = omap (failure w n) (attempted now i tasks).
Proof.
  induction tasks as [|task rest IH]; intros i; simpl; [done|].
  unfold poll_task. specialize (IH (S i)).
  destruct (try_read_and_post_trace w n i) as [Hp Hl].
  destruct (due now task); simpl.
  - destruct (float_add now _); simpl.
    + destruct (poll_tasks w n now (S i) rest) as [[rest'|e] events'];
        destruct IH as [IHp IHl]; simpl in *;
        rewrite posts_of_app, logged_of_app, Hp, Hl, IHp, IHl;
        by destruct (posted w n i), (failure w n i).
    + rewrite Hp, Hl. by destruct (posted w n i), (failure w n i).
  - by destruct (poll_tasks w n now (S i) rest) as [[rest'|e] events'].
Qed.

Lemma attempted_are_due now tasks :
  forall k i, i ∈ attempted now k tasks -> i ∈ due_positions now k tasks.
Proof.
  induction tasks as [|task rest IH]; intros k i; simpl; [done|].
  destruct (due now task); [|apply IH].
  rewrite !elem_of_cons. intros [->|Hi]; [by left|right].
  destruct (float_add now _); [by apply IH|]. by apply elem_of_nil in Hi.
Qed.

(** X17: what an iteration of [poll_loop] posts and logs.  A batch is
    posted for the tasks the iteration gets to -- the due ones, all of
    them when the new [next_run] of each can be computed -- whose read
    returned a list that is not empty, once each and in the order of the
    tasks, and it is the list the read returned; an empty list is not
    posted.  An exception is logged for those whose read or post raised,
    once each, and it is that exception.  Nothing is posted or logged
    for a task that is not due. *)
Theorem poll_once_posts_and_logs (w : World) (n : nat) (tasks : list SensorTask) :
  let now := time_at_start w n in
  posts_of (poll_once w n tasks).2 = omap (posted w n) (attempted now 0 tasks)
  /\ logged_of (poll_once w n tasks).2 = omap (failure w n) (attempted now 0 tasks)
  /\ (forall i, i ∈ attempted now 0 tasks -> i ∈ due_positions now 0 tasks)
  /\ (Forall (convertible now) tasks ->
        attempted now 0 tasks = due_positions now 0 tasks).
Proof.
  intros now. rewrite poll_once_run. simpl. fold now.
  destruct (poll_tasks_trace w n now tasks 0%nat) as [Hp Hl].
  split; [|split; [|split]].
  - destruct (reschedule_all now tasks); [|done].
    simpl. destruct (sleep_overflows _); simpl; [done|].
    rewrite posts_of_app, Hp. simpl. by rewrite app_nil_r.
  - destruct (reschedule_all now tasks); [|done].
    simpl. destruct (sleep_overflows _); simpl; [done|].
    rewrite logged_of_app, Hl. simpl. by rewrite app_nil_r.
  - apply attempted_are_due.
  - intros Hconv. by apply attempted_due.
Qed.

End SchedulerTrace.

(** ** The sensor adapters ([agent/agent.py]) *)

(** A key of a configuration dictionary whose default is not [None]: the
    key is missing, it holds a null, or it holds a value. *)
Inductive entry (A : Type) : Type :=
| Missing
| Null
| Present (a : A).
Arguments Missing {A}.
Arguments Null {A}.
Arguments Present {A} a.

(** An element of ["sensors"] of the configuration file, with the keys
    [build_sensor] and [SensorBase.__init__] read and the types the
    adapters expect: text, a whole number of seconds, a list of names.
    For the keys read with [config.get(k)], [None] is a missing key or a
    null. *)
Record SensorConfig : Type := {
  c_type : option string;
  c_key : option string;
  c_name : option string;
  c_model : option string;
  c_location : option string;
  c_interval_sec : entry Z;
  c_metrics : entry (list string)
}.

Inductive adapter_class : Type :=
| Bme280Sensor
| Ltr390Sensor
| Ds18b20Sensor
| Bh1750Sensor.

(** An adapter after [__init__]: its class and the attributes of
    [SensorBase], of which [base] holds the two the scheduler uses. *)
Record Adapter : Type := {
  kind : adapter_class;
  base : SensorBase;
  name : string;
  model : option string;
  location : option string;
  metrics : list string
}.

(** [str(x)] of an optional string. *)
Definition py_str (o : option string) : string :=
  match o with
  | Some s => s
  | None => "None"
  end.

(** [SensorBase.__init__], for an adapter of class [cls]: [int(None)] and
    [list(None)] raise TypeError. *)
Definition SensorBase_init `{Builtins} (cls : adapter_class) (config : SensorConfig)
  : result Adapter :=
  let key := py_str (c_key config) in
  let name := if truthy (c_name config) then default "" (c_name config)
              else title (replace_char "_" " " key) in
  let model := if truthy (c_model config) then c_model config
               else c_type config in
  let location := c_location config in
  match c_interval_sec config with
  | Null => Exn TypeError
  | interval =>
      let interval_sec := match interval with Present z => z | _ => 60 end in
      match c_metrics config with
      | Null => Exn TypeError
      | names =>
          let metrics := match names with Present l => l | _ => [] end in
          Ret {| kind := cls;
                 base := {| key := key; interval_sec := interval_sec |};
                 name := name; model := model; location := location;
                 metrics := metrics |}
      end
  end.

Section Adapters.

(** The hardware during one call of [read]: what reading an attribute of
    [self._sensor] and converting it with [float] gives, and the text of
    the [k]-th [datetime.now(timezone.utc).isoformat()] of the call. *)
Variable hw : string -> result pyfloat.
Variable stamps : nat -> string.

(** [SensorBase._reading], with the time stamp it takes. *)
Definition _reading (self : Adapter) (stamp : string)
    (metric : string) (value : pyfloat) (unit : string) : SensorReading :=
  {| sr_sensor_key := key (base self);
     sr_metric := metric;
     sr_value := value;
     sr_unit := unit;
     sr_recorded_at := stamp;
     sr_sensor_name := Some (name self);
     sr_sensor_model := model self;
     sr_sensor_location := location self;
     sr_poll_interval_sec := Some (interval_sec (base self)) |}.

(** [readings.append(self._reading(metric, float(self._sensor.attribute),
    unit))]: the attribute is read first, then the time stamp is taken. *)
Definition append_reading (self : Adapter) (attribute metric unit : string)
    (readings : list SensorReading) : result (list SensorReading) :=
  match hw attribute with
  | Exn e => Exn e
  | Ret value =>
      Ret (readings ++ [_reading self (stamps (length readings)) metric value unit])
  end.

(** [not self.metrics or name in self.metrics]. *)
Definition wanted (self : Adapter) (name : string) : bool :=
  bool_decide (metrics self = []) || bool_decide (name ∈ metrics self).

Definition Bme280Sensor_read (self : Adapter) : result (list SensorReading) :=
  let readings := [] in
  match (if wanted self "temperature_c"
         then append_reading self "temperature" "temperature" "c" readings
         else Ret readings) with
  | Exn e => Exn e
  | Ret readings =>
      match (if wanted self "humidity_pct"
             then append_reading self "humidity" "humidity" "pct" readings
             else Ret readings) with
      | Exn e => Exn e
      | Ret readings =>
          if wanted self "pressure_hpa"
          then append_reading self "pressure" "pressure" "hpa" readings
          else Ret readings
      end
  end.

Definition Ltr390Sensor_read (self : Adapter) : result (list SensorReading) :=
  let readings := [] in
  match (if wanted self "uv_index"
         then append_reading self "uvi" "uv_index" "uv_index" readings
         else Ret readings) with
  | Exn e => Exn e
  | Ret readings =>
      if wanted self "ambient_light"
      then append_reading self "light" "ambient_light" "als" readings
      else Ret readings
  end.

Definition Ds18b20Sensor_read (self : Adapter) : result (list SensorReading) :=
  if negb (bool_decide (metrics self = []))
     && negb (bool_decide ("temperature_c" ∈ metrics self))
  then Ret []
  else
    match hw "get_temperature" with
    | Exn e => Exn e
    | Ret temperature => Ret [_reading self (stamps 0) "temperature" temperature "c"]
    end.

Definition Bh1750Sensor_read (self : Adapter) : result (list SensorReading) :=
  if negb (bool_decide (metrics self = []))
     && negb (bool_decide ("illuminance" ∈ metrics self))
  then Ret []
  else
    match hw "lux" with
    | Exn e => Exn e
    | Ret lux => Ret [_reading self (stamps 0) "illuminance" lux "lux"]
    end.

(** [self.read()], by the class of [self]. *)
Definition adapter_read (self : Adapter) : result (list SensorReading) :=
  match kind self with
  | Bme280Sensor => Bme280Sensor_read self
  | Ltr390Sensor => Ltr390Sensor_read self
  | Ds18b20Sensor => Ds18b20Sensor_read self
  | Bh1750Sensor => Bh1750Sensor_read self
  end.

(** What a class measures: the name that selects it in ["metrics"], the
    attribute of the device, and the metric and the unit of the
    reading. *)
Record Channel : Type := {
  ch_config_name : string;
  ch_attribute : string;
  ch_metric : string;
  ch_unit : string
}.

Definition channels (cls : adapter_class) : list Channel :=
  match cls with
  | Bme280Sensor =>
      [ {| ch_config_name := "temperature_c"; ch_attribute := "temperature";
           ch_metric := "temperature"; ch_unit := "c" |};
        {| ch_config_name := "humidity_pct"; ch_attribute := "humidity";
           ch_metric := "humidity"; ch_unit := "pct" |};
        {| ch_config_name := "pressure_hpa"; ch_attribute := "pressure";
           ch_metric := "pressure"; ch_unit := "hpa" |} ]
  | Ltr390Sensor =>
      [ {| ch_config_name := "uv_index"; ch_attribute := "uvi";
           ch_metric := "uv_index"; ch_unit := "uv_index" |};
        {| ch_config_name := "ambient_light"; ch_attribute := "light";
           ch_metric := "ambient_light"; ch_unit := "als" |} ]
  | Ds18b20Sensor =>
      [ {| ch_config_name := "temperature_c"; ch_attribute := "get_temperature";
           ch_metric := "temperature"; ch_unit := "c" |} ]
  | Bh1750Sensor =>
      [ {| ch_config_name := "illuminance"; ch_attribute := "lux";
           ch_metric := "illuminance"; ch_unit := "lux" |} ]
  end.

(** The channels of an adapter that its ["metrics"] select: all of them
    when the list is empty, those it names otherwise. *)
Definition selected (self : Adapter) : list Channel :=
  List.filter (fun ch => wanted self (ch_config_name ch)) (channels (kind self)).

(** X18: what a call of [read] of an adapter gives.  When it returns, it
    returns one reading for each selected channel of the adapter's class,
    in the order of the class, with the value the device gave, the
    metric and the unit of the channel, and the key, the name, the
    model, the location and the interval of the adapter; a name in
    ["metrics"] that is no channel of the class selects nothing.  When
    it raises, the device raised that exception for a selected channel,
    and the readings taken before it are lost. *)
Theorem adapter_read_selected_channels (self : Adapter) :
  match adapter_read self with
  | Ret readings =>
      length readings = length (selected self)
      /\ forall k ch, selected self !! k = Some ch ->
           exists value,
             hw (ch_attribute ch) = Ret value
             /\ readings !! k
                = Some (_reading self (stamps k) (ch_metric ch) value (ch_unit ch))
  | Exn e =>
      exists ch, ch ∈ selected self /\ hw (ch_attribute ch) = Exn e
  end.
Proof.
  unfold adapter_read, selected.
  destruct (kind self); simpl;
    unfold Bme280Sensor_read, Ltr390Sensor_read, Ds18b20Sensor_read,
      Bh1750Sensor_read, append_reading, wanted.
  all: destruct (bool_decide (metrics self = [])); simpl.
  all: repeat match goal with
         | |- context [bool_decide (?s ∈ ?l)] =>
             destruct (bool_decide (s ∈ l)); simpl
         end.
  all: repeat match goal with
         | |- context [hw ?a] =>
             let Hhw := fresh "Hhw" in
             destruct (hw a) eqn:Hhw; simpl
         end.
  all: try (split; [done|];
            intros [|[|[|k]]] ch Hk; simplify_eq/=; eauto; fail).
  all: match goal with
       | |- exists ch, ch ∈ ?l /\ _ =>
           let rec pick l' :=
             lazymatch l' with
             | ?c :: ?rest =>
                 first [ exists c; split;
                           [repeat first [by left | right] | simpl; assumption]
                       | pick rest ]
             end in
           pick l
       end.
Qed.

End Adapters.

Section BuildTasks.

Context `{Builtins} `{FloatOps}.

(** What the rest of an adapter's [__init__] does after
    [super().__init__(config)]: parsing the address, importing the driver
    and opening the device, any of which can raise; and the value of the
    [k]-th [time.time()] of [build_tasks]. *)
Variable connect : adapter_class -> SensorConfig -> result unit.
Variable time : nat -> Q.

(** [Bme280Sensor(config)] and the like. *)
Definition new_adapter (cls : adapter_class) (config : SensorConfig)
  : result Adapter :=
  match SensorBase_init cls config with
  | Exn e => Exn e
  | Ret self =>
      match connect cls config with
      | Exn e => Exn e
      | Ret _ => Ret self
      end
  end.

Definition build_sensor (config : SensorConfig) : result Adapter :=
  let sensor_type := c_type config in
  if bool_decide (sensor_type = Some "bme280") then new_adapter Bme280Sensor config
  else if bool_decide (sensor_type = Some "ltr390") then new_adapter Ltr390Sensor config
  else if bool_decide (sensor_type = Some "ds18b20") then new_adapter Ds18b20Sensor config
  else if bool_decide (sensor_type = Some "bh1750") then new_adapter Bh1750Sensor config
  else Exn (ValueError ("Unknown sensor type: " +:+ py_str sensor_type)).

(** [build_tasks], from the [k]-th element of the configuration on: each
    task with the adapter that is its [sensor]. *)
Fixpoint build_tasks_from (k : nat) (sensor_configs : list SensorConfig)
  : result (list (Adapter * SensorTask)) :=
  match sensor_configs with
  | [] => Ret []
  | config :: rest =>
      match build_sensor config with
      | Exn e => Exn e
      | Ret sensor =>
          let task := {| sensor := base sensor; next_run := time k |} in
          match build_tasks_from (S k) rest with
          | Exn e => Exn e
          | Ret tasks => Ret ((sensor, task) :: tasks)
          end
      end
  end.

Definition build_tasks (sensor_configs : list SensorConfig)
  : result (list (Adapter * SensorTask)) :=
  build_tasks_from 0 sensor_configs.

(** The value of ["type"] that selects a class. *)
Definition type_name (cls : adapter_class) : string :=
  match cls with
  | Bme280Sensor => "bme280"
  | Ltr390Sensor => "ltr390"
  | Ds18b20Sensor => "ds18b20"
  | Bh1750Sensor => "bh1750"
  end.

(** What a configuration makes of an adapter. *)
Definition configured (config : SensorConfig) (self : Adapter) : Prop :=
  c_type config = Some (type_name (kind self))
  /\ key (base self) = py_str (c_key config)
  /\ interval_sec (base self)
     = match c_interval_sec config with Present z => z | _ => 60 end
  /\ metrics self = match c_metrics config with Present l => l | _ => [] end
  /\ name self = (if truthy (c_name config) then default "" (c_name config)
                  else title (replace_char "_" " " (py_str (c_key config))))
  /\ model self = (if truthy (c_model config) then c_model config
                   else c_type config)
  /\ location self = c_location config.

Lemma SensorBase_init_Ret cls config self :
  SensorBase_init cls config = Ret self ->
  kind self = cls
  /\ key (base self) = py_str (c_key config)
  /\ interval_sec (base self)
     = match c_interval_sec config with Present z => z | _ => 60 end
  /\ metrics self = match c_metrics config with Present l => l | _ => [] end
  /\ name self = (if truthy (c_name config) then default "" (c_name config)
                  else title (replace_char "_" " " (py_str (c_key config))))
  /\ model self = (if truthy (c_model config) then c_model config
                   else c_type config)
  /\ location self = c_location config.
Proof.
  unfold SensorBase_init.
  destruct (c_interval_sec config), (c_metrics config); intros [= <-]; done.
Qed.

Lemma build_sensor_Ret config self :
  build_sensor config = Ret self -> configured config self.
Proof.
  unfold build_sensor, new_adapter, configured.
  repeat case_bool_decide; [| | | |done].
  all: destruct (SensorBase_init _ config) as [self'|] eqn:Hinit; [|done].
  all: destruct (connect _ config); [|done].
  all: intros [= ->].
  all: apply SensorBase_init_Ret in Hinit as (-> & Hrest).
  all: done.
Qed.

Lemma build_sensor_unknown config :
  c_type config ∉ (Some ∘ type_name <$>
                     [Bme280Sensor; Ltr390Sensor; Ds18b20Sensor; Bh1750Sensor]) ->
  build_sensor config
  = Exn (ValueError ("Unknown sensor type: " +:+ py_str (c_type config))).
Proof.
  intros Hunknown. unfold build_sensor.
  repeat case_bool_decide; try done.
  all: exfalso; apply Hunknown; simpl.
  all: match goal with Heq : c_type _ = _ |- _ => rewrite Heq end.
  all: repeat first [by left | right].
Qed.

Lemma build_tasks_from_Ret sensor_configs :
  forall k tasks,
    build_tasks_from k sensor_configs = Ret tasks ->
    Forall2 (fun config t => configured config t.1 /\ sensor t.2 = base t.1)
      sensor_configs tasks
    /\ forall j t, tasks !! j = Some t -> next_run t.2 = time (k + j).
Proof.
  induction sensor_configs as [|config rest IH]; intros k tasks; simpl.
  - intros [= <-]. split; [constructor|]. intros j t Hj. done.
  - destruct (build_sensor config) as [self|] eqn:Hbuild; [|done].
    destruct (build_tasks_from (S k) rest) as [tasks'|] eqn:Hrest; [|done].
    intros [= <-]. destruct (IH (S k) tasks' Hrest) as [Hall Htimes].
    split.
    + constructor; [|done]. split; [by apply build_sensor_Ret|done].
    + intros [|j] t Hj; simpl in Hj.
      * injection Hj as <-. simpl. by rewrite Nat.add_0_r.
      * rewrite (Htimes j t Hj). f_equal. lia.
Qed.

Lemma build_tasks_from_Exn sensor_configs :
  forall k e,
    build_tasks_from k sensor_configs = Exn e ->
    exists j config,
      sensor_configs !! j = Some config
      /\ build_sensor config = Exn e
      /\ forall i earlier, (i < j)%nat -> sensor_configs !! i = Some earlier ->
           exists self, build_sensor earlier = Ret self.
Proof.
  induction sensor_configs as [|config rest IH]; intros k e; simpl; [done|].
  destruct (build_sensor config) as [self|e'] eqn:Hbuild.
  - destruct (build_tasks_from (S k) rest) as [tasks'|e'] eqn:Hrest; [done|].
    intros [= ->]. destruct (IH (S k) e Hrest) as (j & config' & Hj & He & Hbefore).
    exists (S j), config'. split; [done|]. split; [done|].
    intros [|i] earlier Hi Hearlier; simpl in Hearlier.
    + injection Hearlier as <-. by exists self.
    + apply (Hbefore i); [lia|done].
  - intros [= ->]. exists 0%nat, config. split; [done|]. split; [done|].
    intros i earlier Hi. lia.
Qed.

(** X19: what [build_tasks] makes of the configuration.  When it returns,
    there is one task per configured sensor, in the order of the
    configuration; the adapter of each has the class its ["type"]
    names, the text of its ["key"] (["None"] without one), an interval
    of 60 seconds unless the configuration gives one, the listed
    metrics, the given name or else the key in title case, the given
    model or else the type; and the task's first run is the clock
    reading taken after the adapter was built.  When it raises, it is
    the exception of the first sensor that could not be built, and there
    are no tasks at all; a sensor whose type is none of the four makes
    it raise. *)
Theorem build_tasks_outcome (sensor_configs : list SensorConfig) :
  match build_tasks sensor_configs with
  | Ret tasks =>
      Forall2 (fun config t => configured config t.1 /\ sensor t.2 = base t.1)
        sensor_configs tasks
      /\ forall j t, tasks !! j = Some t -> next_run t.2 = time j
  | Exn e =>
      exists j config,
        sensor_configs !! j = Some config
        /\ build_sensor config = Exn e
        /\ (forall i earlier, (i < j)%nat -> sensor_configs !! i = Some earlier ->
              exists self, build_sensor earlier = Ret self)
        /\ (c_type config ∉ (Some ∘ type_name <$>
                               [Bme280Sensor; Ltr390Sensor; Ds18b20Sensor; Bh1750Sensor]) ->
              e = ValueError ("Unknown sensor type: " +:+ py_str (c_type config)))
  end.
Proof.
  unfold build_tasks.
  destruct (build_tasks_from 0 sensor_configs) as [tasks|e] eqn:Hbuild.
  - apply build_tasks_from_Ret in Hbuild as [Hall Htimes]. split; [done|].
    intros j t Hj. by rewrite (Htimes j t Hj).
  - apply build_tasks_from_Exn in Hbuild as (j & config & Hj & He & Hbefore).
    exists j, config. split; [done|]. split; [done|]. split; [done|].
    intros Hunknown. rewrite (build_sensor_unknown config Hunknown) in He.
    by injection He.
Qed.

Lemma due_positions_all now tasks :
  Forall (fun task => due now task = true) tasks ->
  forall i, due_positions now i tasks = seq i (length tasks).
Proof.
  induction 1 as [|task rest Hdue _ IH]; intros i; simpl; [done|].
  by rewrite Hdue, IH.
Qed.

(** The interval a configuration gives its sensor. *)
Definition configured_interval (config : SensorConfig) : Z :=
  match c_interval_sec config with
  | Present z => z
  | _ => 60
  end.

(** X20: the first iteration reads every configured sensor.  When
    [build_tasks] returned, the clock does not run backwards between its
    readings and the first one of [poll_loop], and the float sum of that
    reading and the interval of each sensor can be computed, the first
    iteration of the loop reads all the sensors, in the order of the
    configuration, and gives every task that sum as its [next_run]. *)
Theorem first_iteration_reads_every_sensor
    (w : World) (sensor_configs : list SensorConfig)
    (tasks : list (Adapter * SensorTask)) :
  let now := time_at_start w 0 in
  build_tasks sensor_configs = Ret tasks ->
  (forall k, (k < length sensor_configs)%nat -> (time k <= now)%Q) ->
  Forall (fun config => is_Some (float_add now (configured_interval config)))
    sensor_configs ->
  reads_of (poll_once w 0 tasks.*2).2 = seq 0 (length sensor_configs)
  /\ exists tasks' events,
       poll_tasks w 0 now 0 tasks.*2 = (Ret tasks', events)
       /\ Forall2 (fun config task' =>
                     key (sensor task') = py_str (c_key config)
                     /\ float_add now (configured_interval config)
                        = Some (next_run task'))
            sensor_configs tasks'.
Proof.
  intros now. unfold build_tasks. intros Hbuild Hclock Hsums.
  apply build_tasks_from_Ret in Hbuild as [Hall Htimes].
  pose proof (Forall2_length _ _ _ Hall) as Hlen.
  assert (Forall (fun task => due now task = true) tasks.*2) as Hdue.
  { apply Forall_forall. intros task Htask.
    apply list_elem_of_fmap in Htask as (t & -> & Ht).
    apply list_elem_of_lookup in Ht as [j Hj].
    unfold due. rewrite (Htimes j t Hj). apply Qle_bool_iff. apply Hclock.
    rewrite Hlen. by eapply lookup_lt_Some. }
  assert (Forall2 (fun config task =>
                     due now task = true
                     /\ key (sensor task) = py_str (c_key config)
                     /\ interval_sec (sensor task) = configured_interval config)
            sensor_configs tasks.*2) as Htasks.
  { clear Htimes Hlen Hclock Hsums.
    induction Hall as [|config t configs ts Ht _ IH]; [constructor|].
    rewrite fmap_cons in Hdue. apply Forall_cons in Hdue as [Hdue_t Hdue].
    rewrite fmap_cons. constructor; [|by apply IH].
    destruct Ht as [(_ & Hkey & Hinterval & _) Hbase].
    split; [done|]. by rewrite Hbase. }
  assert (Forall (convertible now) tasks.*2) as Hconv.
  { clear Hall Htimes Hlen Hclock Hdue.
    induction Htasks as [|config task configs ts (_ & _ & Hinterval) _ IH];
      [constructor|].
    apply Forall_cons in Hsums as [Hsum Hsums].
    constructor; [|by apply IH]. intros _. by rewrite Hinterval. }
  split.
  - rewrite poll_once_reads. fold now. rewrite (attempted_due _ _ Hconv).
    rewrite (due_positions_all _ _ Hdue). by rewrite length_fmap, Hlen.
  - destruct (reschedule_all_Ret now tasks.*2 Hconv) as (tasks' & Hresched & Heach).
    pose proof (poll_tasks_fst w 0%nat now tasks.*2 0%nat) as Hfst.
    destruct (poll_tasks w 0 now 0 tasks.*2) as [r events]. simpl in Hfst.
    rewrite Hresched in Hfst. subst r. exists tasks', events. split; [done|].
    clear Hall Htimes Hlen Hclock Hdue Hconv Hsums Hresched.
    revert tasks' Heach.
    induction Htasks as [|config task configs ts (Hdue_t & Hkey & Hinterval) _ IH];
      intros tasks' Heach.
    + apply Forall2_nil_inv_l in Heach as ->. constructor.
    + apply Forall2_cons_inv_l in Heach as (task' & rest' & Htask' & Hrest & ->).
      constructor; [|by apply IH].
      unfold reschedule in Htask'. rewrite Hdue_t, Hinterval in Htask'.
      destruct (float_add now (configured_interval config)) as [next|]; [|done].
      injection Htask' as <-. by split.
Qed.

End BuildTasks.

(** * The sample data script ([scripts/seed_sample_data.py]) *)

(** [min(a, b)] of Python on two numbers: the first of the smallest. *)
Definition py_min2 (a b : Q) : Q := if Qlt_le_dec b a then b else a.

(** [clamp], on finite floats. *)
Definition clamp (value min_value max_value : Q) : Q :=
  py_max min_value (py_min2 max_value value).

(** X21: [clamp] keeps a value in its range.  The result is never below
    the lower bound; with bounds in order it is not above the upper one;
    and a value within the bounds comes back as it is. *)
Theorem clamp_in_range (value min_value max_value : Q) :
  (min_value <= clamp value min_value max_value)%Q
  /\ ((min_value <= max_value)%Q -> (clamp value min_value max_value <= max_value)%Q)
  /\ ((min_value <= value)%Q -> (value <= max_value)%Q ->
        (clamp value min_value max_value == value)%Q).
Proof.
  unfold clamp, py_max, py_min2.
  destruct (Qlt_le_dec value max_value) as [Hlt|Hge];
    destruct (Qlt_le_dec min_value _) as [Hlow|Hhigh].
  - split; [by apply Qlt_le_weak|].
    split; [intros _; by apply Qlt_le_weak|]. intros _ _. apply Qeq_refl.
  - split; [apply Qle_refl|]. split; [done|]. intros Hmin _.
    by apply Qle_antisym.
  - split; [by apply Qlt_le_weak|]. split; [intros _; apply Qle_refl|].
    intros _ Hmax. by apply Qle_antisym.
  - split; [apply Qle_refl|]. split; [done|]. intros Hmin Hmax.
    apply Qle_antisym; [done|]. by eapply Qle_trans.
Qed.

(** [SENSOR_KEYS], in the order of the dictionary. *)
Definition SENSOR_KEYS : list string :=
  [ "ambient_bme280"; "uv_ltr390"; "probe_ds18b20"; "ambient_bh1750" ].

(** An element of the series [build_series] yields; its values are
    finite floats. *)
Record SeriesEntry : Type := {
  se_timestamp : Z;
  se_ambient_temp : Q;
  se_hide_temp : Q;
  se_humidity : Q;
  se_pressure : Q;
  se_uv_index : Q;
  se_als : Q;
  se_illuminance : Q
}.

(** A [Measurement(...)] before the session has sent it: it has no id. *)
Record NewMeasurement : Type := {
  n_sensor_id : Z;
  n_metric : string;
  n_value : pyfloat;
  n_unit : string;
  n_recorded_at : Z
}.

(** [sensors[key]] on the dictionary [{sensor.key: sensor for sensor in
    sensors}]: the last row with the key, KeyError without one. *)
Definition sensors_get (sensors : list Sensor) (key : string) : result Sensor :=
  match last (filter (fun s => s_key s = key) sensors) with
  | Some s => Ret s
  | None => Exn (OtherException "KeyError")
  end.

(** The list one turn of the loop of [build_measurements] builds. *)
Definition entry_measurements (sensors : list Sensor) (entry : SeriesEntry)
  : result (list NewMeasurement) :=
  let recorded_at := se_timestamp entry in
  match sensors_get sensors "ambient_bme280" with
  | Exn e => Exn e
  | Ret ambient_bme280 =>
      match sensors_get sensors "uv_ltr390" with
      | Exn e => Exn e
      | Ret uv_ltr390 =>
          match sensors_get sensors "probe_ds18b20" with
          | Exn e => Exn e
          | Ret probe_ds18b20 =>
              match sensors_get sensors "ambient_bh1750" with
              | Exn e => Exn e
              | Ret ambient_bh1750 =>
                  Ret [ {| n_sensor_id := s_id ambient_bme280;
                           n_metric := "temperature";
                           n_value := FNum (se_ambient_temp entry);
                           n_unit := "c"; n_recorded_at := recorded_at |};
                        {| n_sensor_id := s_id ambient_bme280;
                           n_metric := "humidity";
                           n_value := FNum (se_humidity entry);
                           n_unit := "pct"; n_recorded_at := recorded_at |};
                        {| n_sensor_id := s_id ambient_bme280;
                           n_metric := "pressure";
                           n_value := FNum (se_pressure entry);
                           n_unit := "hpa"; n_recorded_at := recorded_at |};
                        {| n_sensor_id := s_id uv_ltr390;
                           n_metric := "uv_index";
                           n_value := FNum (se_uv_index entry);
                           n_unit := "uv_index"; n_recorded_at := recorded_at |};
                        {| n_sensor_id := s_id uv_ltr390;
                           n_metric := "ambient_light";
                           n_value := FNum (se_als entry);
                           n_unit := "als"; n_recorded_at := recorded_at |};
                        {| n_sensor_id := s_id probe_ds18b20;
                           n_metric := "temperature";
                           n_value := FNum (se_hide_temp entry);
                           n_unit := "c"; n_recorded_at := recorded_at |};
                        {| n_sensor_id := s_id ambient_bh1750;
                           n_metric := "illuminance";
                           n_value := FNum (se_illuminance entry);
                           n_unit := "lux"; n_recorded_at := recorded_at |} ]
              end
          end
      end
  end.

Fixpoint build_measurements (series : list SeriesEntry) (sensors : list Sensor)
  : result (list NewMeasurement) :=
  match series with
  | [] => Ret []
  | entry :: rest =>
      match entry_measurements sensors entry with
      | Exn e => Exn e
      | Ret rows =>
          match build_measurements rest sensors with
          | Exn e => Exn e
          | Ret measurements => Ret (rows ++ measurements)
          end
      end
  end.

(** [load_sensors]: the rows behind the dictionary, and the session. *)
Definition load_sensors (session : Store) : list Sensor * Store :=
  let session := seed_default_sensors session in
  (sensors session, session).

Definition clear_measurements (session : Store) : Store :=
  {| sensors := sensors session; measurements := [] |}.

(** [session.add_all(rows)], as the commit sends it: the rows get their
    ids in the order of the list. *)
Definition add_new (session : Store) (row : NewMeasurement) : Store :=
  {| sensors := sensors session;
     measurements :=
       measurements session ++
         [ {| m_id := next_id (m_id <$> measurements session);
              m_sensor_id := n_sensor_id row;
              m_metric := n_metric row;
              m_value := n_value row;
              m_unit := n_unit row;
              m_recorded_at := n_recorded_at row |} ] |}.

Definition add_all (session : Store) (rows : list NewMeasurement) : Store :=
  foldl add_new session rows.

(** The [with] block of [main], for the value of [--clear] and the
    series. *)
Definition main_block (clear : bool) (series : list SeriesEntry) (db : Store)
  : flow unit unit * Store :=
  session_scope db (fun session =>
    let '(sensors, session) := load_sensors session in
    let missing :=
      filter (fun key => key ∉ (s_key <$> sensors)) SENSOR_KEYS in
    match missing with
    | _ :: _ => (Raise (OtherException "RuntimeError"), session)
    | [] =>
        let session := if clear then clear_measurements session else session in
        match build_measurements series sensors with
        | Exn e => (Raise e, session)
        | Ret rows => (Next (), add_all session rows)
        end
    end).

(** What the script stores for an element of the series: the key of the
    sensor, the metric, the unit and the value. *)
Definition entry_channels (entry : SeriesEntry)
  : list (string * string * string * pyfloat) :=
  [ ("ambient_bme280", "temperature", "c", FNum (se_ambient_temp entry));
    ("ambient_bme280", "humidity", "pct", FNum (se_humidity entry));
    ("ambient_bme280", "pressure", "hpa", FNum (se_pressure entry));
    ("uv_ltr390", "uv_index", "uv_index", FNum (se_uv_index entry));
    ("uv_ltr390", "ambient_light", "als", FNum (se_als entry));
    ("probe_ds18b20", "temperature", "c", FNum (se_hide_temp entry));
    ("ambient_bh1750", "illuminance", "lux", FNum (se_illuminance entry)) ].

(** The id the script finds for a key, and the row it builds for a
    channel of an element of the series. *)
Definition sensor_id_of (sensors : list Sensor) (key : string) : Z :=
  match sensors_get sensors key with
  | Ret s => s_id s
  | Exn _ => 0
  end.

Definition new_row (sensors : list Sensor) (entry : SeriesEntry)
    (channel : string * string * string * pyfloat) : NewMeasurement :=
  let '(key, metric, unit, value) := channel in
  {| n_sensor_id := sensor_id_of sensors key; n_metric := metric;
     n_value := value; n_unit := unit; n_recorded_at := se_timestamp entry |}.

(** A stored row without its id. *)
Definition unsent (m : Measurement) : NewMeasurement :=
  {| n_sensor_id := m_sensor_id m; n_metric := m_metric m; n_value := m_value m;
     n_unit := m_unit m; n_recorded_at := m_recorded_at m |}.

Lemma sensors_get_Ret sensors key :
  key ∈ (s_key <$> sensors) ->
  exists s, sensors_get sensors key = Ret s /\ s ∈ sensors /\ s_key s = key.
Proof.
  intros Hkey. apply list_elem_of_fmap in Hkey as (s0 & -> & Hs0).
  unfold sensors_get.
  destruct (last (filter (fun s => s_key s = s_key s0) sensors)) as [s|] eqn:Hlast.
  - exists s. split; [done|].
    apply last_Some in Hlast as [l' Hl'].
    assert (s ∈ filter (fun s => s_key s = s_key s0) sensors) as Hs.
    { rewrite Hl'. apply elem_of_app. right. left. }
    by apply list_elem_of_filter in Hs as [? ?].
  - apply last_None in Hlast.
    assert (s0 ∈ filter (fun s => s_key s = s_key s0) sensors) as Hs
      by (by apply list_elem_of_filter).
    rewrite Hlast in Hs. by apply elem_of_nil in Hs.
Qed.

Lemma build_measurements_Ret series sensors :
  (forall key, key ∈ SENSOR_KEYS -> key ∈ (s_key <$> sensors)) ->
  build_measurements series sensors
  = Ret (series ≫= fun entry => new_row sensors entry <$> entry_channels entry).
Proof.
  intros Hkeys.
  destruct (sensors_get_Ret sensors "ambient_bme280") as (s1 & Hs1 & _);
    [apply Hkeys; by left|].
  destruct (sensors_get_Ret sensors "uv_ltr390") as (s2 & Hs2 & _);
    [apply Hkeys; right; by left|].
  destruct (sensors_get_Ret sensors "probe_ds18b20") as (s3 & Hs3 & _);
    [apply Hkeys; do 2 right; by left|].
  destruct (sensors_get_Ret sensors "ambient_bh1750") as (s4 & Hs4 & _);
    [apply Hkeys; do 3 right; by left|].
  induction series as [|entry rest IH]; [done|].
  cbn [build_measurements]. rewrite IH, bind_cons.
  unfold entry_measurements. rewrite Hs1, Hs2, Hs3, Hs4.
  do 2 f_equal. unfold entry_channels, new_row, sensor_id_of. simpl.
  by rewrite Hs1, Hs2, Hs3, Hs4.
Qed.

Lemma add_all_app session rows1 rows2 :
  add_all session (rows1 ++ rows2) = add_all (add_all session rows1) rows2.
Proof. unfold add_all. apply foldl_app. Qed.

Lemma add_all_stores rows :
  forall session,
    sensors (add_all session rows) = sensors session
    /\ (exists stored,
          measurements (add_all session rows) = measurements session ++ stored
          /\ unsent <$> stored = rows)
    /\ (store_ok session ->
        Forall (fun r => n_sensor_id r ∈ (s_id <$> sensors session)) rows ->
        store_ok (add_all session rows)).
Proof.
  induction rows as [|r rows IH]; intros session.
  - split; [done|]. split; [|done]. exists []. by rewrite app_nil_r.
  - change (add_all session (r :: rows)) with (add_all (add_new session r) rows).
    destruct (IH (add_new session r)) as (Hsensors & (stored & Hstored & Hall) & Hok).
    split; [done|]. split.
    + eexists (_ :: stored). split.
      * rewrite Hstored. simpl. by rewrite <- app_assoc.
      * rewrite fmap_cons, Hall. by destruct r.
    + intros [(Hids & Hkeys & Hfk) Hmids] Hrows.
      apply Forall_cons in Hrows as [Hr Hrows].
      apply Hok; [|done].
      split; [split; [done|split; [done|]]|]; simpl.
      * apply Forall_app. split; [done|]. by apply Forall_singleton.
      * rewrite fmap_app. apply NoDup_app. split; [done|].
        split; [|apply NoDup_singleton].
        intros x Hx Hx'. apply list_elem_of_singleton in Hx'. subst x.
        by apply next_id_fresh in Hx.
Qed.

Lemma seed_default_sensors_store_ok db :
  store_ok db -> store_ok (seed_default_sensors db).
Proof.
  intros Hdb. unfold seed_default_sensors. destruct (sensors db) eqn:Hs; [|done].
  destruct Hdb as [(_ & _ & Hfk) Hmids]. rewrite Hs in Hfk.
  split; [split; [|split]|done]; simpl.
  - apply (bool_decide_unpack _). by vm_compute.
  - apply (bool_decide_unpack _). by vm_compute.
  - eapply Forall_impl; [exact Hfk|]. intros m Hm. by apply elem_of_nil in Hm.
Qed.

Lemma seed_default_sensors_keys db :
  sensors db = [] ->
  s_key <$> sensors (seed_default_sensors db) = SENSOR_KEYS.
Proof. unfold seed_default_sensors. by intros ->. Qed.

(** X22: the sample data script stores all of its rows or nothing.  The
    [with] block of [main] raises only its RuntimeError, which it does
    when the sensors table has rows but not all of the four default
    keys, and then the database is as it was.  Otherwise it ends
    normally: the sensors are those of the seeding; the measurements are
    the earlier ones -- none of them with [--clear] -- followed by the
    seven rows of each element of the series, in the order of the
    series, each with the id of the sensor of its key; and the
    constraints of the schema are kept. *)
Theorem sample_data_all_or_nothing
    (clear : bool) (series : list SeriesEntry) (db : Store) :
  match main_block clear series db with
  | (Raise e, db') =>
      e = OtherException "RuntimeError"
      /\ db' = db
      /\ sensors db <> []
      /\ exists key, key ∈ SENSOR_KEYS /\ key ∉ (s_key <$> sensors db)
  | (Next _, db') =>
      sensors db' = sensors (seed_default_sensors db)
      /\ (forall key, key ∈ SENSOR_KEYS ->
            exists s, s ∈ sensors db' /\ s_key s = key
                      /\ s_id s = sensor_id_of (sensors db') key)
      /\ (exists stored,
            measurements db'
            = (if clear then [] else measurements db) ++ stored
            /\ unsent <$> stored
               = (series ≫= fun entry =>
                    new_row (sensors db') entry <$> entry_channels entry)
            /\ length stored = (7 * length series)%nat)
      /\ (store_ok db -> store_ok db')
  | (Return _, _) => False
  end.
Proof.
  unfold main_block, session_scope, load_sensors.
  set (seeded := seed_default_sensors db).
  destruct (filter (fun key => key ∉ (s_key <$> sensors seeded)) SENSOR_KEYS)
    as [|key missing] eqn:Hmissing.
  - assert (forall key, key ∈ SENSOR_KEYS -> key ∈ (s_key <$> sensors seeded))
      as Hkeys.
    { intros key Hkey. destruct (decide (key ∈ (s_key <$> sensors seeded)))
        as [|Hnot]; [done|].
      assert (key ∈ filter (fun key => key ∉ (s_key <$> sensors seeded)) SENSOR_KEYS)
        as Hin by (by apply list_elem_of_filter).
      rewrite Hmissing in Hin. by apply elem_of_nil in Hin. }
    rewrite (build_measurements_Ret series _ Hkeys).
    set (rows := series ≫= _).
    set (session := if clear then clear_measurements seeded else seeded).
    assert (sensors session = sensors seeded) as Hsession
      by (unfold session; by destruct clear).
    destruct (add_all_stores rows session) as (Hsensors & (stored & Hstored & Hrows) & Hok).
    rewrite Hsession in Hsensors.
    split; [done|]. rewrite Hsensors. split; [|split].
    + intros key Hkey.
      destruct (sensors_get_Ret _ key (Hkeys key Hkey)) as (s & Hget & Hs & Hk).
      exists s. split; [done|]. split; [done|].
      unfold sensor_id_of. by rewrite Hget.
    + exists stored. split.
      * rewrite Hstored. unfold session, seeded.
        destruct clear; [done|]. f_equal.
        unfold seed_default_sensors. by destruct (sensors db).
      * split; [done|].
        rewrite <- (length_fmap unsent), Hrows. unfold rows.
        clear. induction series as [|entry rest IH]; [done|].
        rewrite bind_cons, length_app, IH. simpl. lia.
    + intros Hdb. apply Hok.
      * apply seed_default_sensors_store_ok in Hdb. fold seeded in Hdb.
        unfold session. destruct clear; [|done].
        destruct Hdb as [(Hids & Hk & _) _].
        split; [split; [done|split; [done|constructor]]|constructor].
      * rewrite Hsession. unfold rows. apply Forall_forall. intros r Hr.
        apply list_elem_of_bind in Hr as (entry & Hr & _).
        apply list_elem_of_fmap in Hr as (channel & -> & Hchannel).
        assert (channel.1.1.1 ∈ SENSOR_KEYS) as Hkey.
        { unfold entry_channels in Hchannel.
          repeat (apply elem_of_cons in Hchannel as [->|Hchannel];
                  [simpl; repeat first [by left | right]|]).
          by apply elem_of_nil in Hchannel. }
        destruct channel as [[[key metric] unit] value]. simpl in *.
        destruct (sensors_get_Ret _ key (Hkeys key Hkey)) as (s & Hget & Hs & Hk).
        unfold sensor_id_of. rewrite Hget. by apply list_elem_of_fmap_2.
  - simpl. split; [done|].
    destruct (sensors db) as [|s0 l] eqn:Hs.
    + exfalso.
      assert (key ∈ filter (fun key => key ∉ (s_key <$> sensors seeded)) SENSOR_KEYS)
        as Hin by (rewrite Hmissing; left).
      apply list_elem_of_filter in Hin as [Hnot Hin]. apply Hnot.
      unfold seeded. by rewrite (seed_default_sensors_keys db Hs).
    + assert (seeded = db) as Hsame.
      { unfold seeded, seed_default_sensors. by rewrite Hs. }
      split; [done|]. split; [done|]. exists key.
      assert (key ∈ filter (fun key => key ∉ (s_key <$> sensors seeded)) SENSOR_KEYS)
        as Hin by (rewrite Hmissing; left).
      apply list_elem_of_filter in Hin as [Hnot Hin].
      rewrite Hsame, Hs in Hnot. done.
Qed.

(** * Further concrete runs *)

Lemma store_ok_seeded : store_ok seeded_store.
Proof. split; [exact schema_ok_seeded|constructor]. Qed.

Lemma post_measurements_count_witness :
  exists rows,
    measurements store_with_three = measurements seeded_store ++ rows
    /\ length rows = 4%nat.
Proof.
  destruct (post_measurements_count (H := example_builtins) example_clock
              seeded_store store_with_three (Some three_readings) 4)
    as (batch & ds & rows & _ & _ & _ & _ & Hrows & Hlen).
  - reflexivity.
  - by exists rows.
Defined.

Lemma store_constraints_kept_witness :
  store_ok store_with_three /\ store_ok (seed_default_sensors seeded_store).
Proof.
  apply (store_constraints_kept (H := example_builtins) example_clock
           seeded_store (Some three_readings)).
  split; [split; [|split]|]; simpl.
  - apply (bool_decide_unpack _). by vm_compute.
  - apply (bool_decide_unpack _). by vm_compute.
  - constructor.
  - constructor.
Defined.

Lemma get_measurements_unknown_sensor_witness :
  get_measurements (H := example_builtins) store_with_three
    (Some "probe_under_the_log") (Some "temperature")
    (Some "1970-01-01T00:00:01+00:00") None None None
  = Ok200 [].
Proof.
  apply (get_measurements_unknown_sensor (H := example_builtins)
           store_with_three "probe_under_the_log" "temperature"
           (Some "1970-01-01T00:00:01+00:00") None None None
           (Some 1000000) None 1440).
  - done.
  - done.
  - reflexivity.
  - lia.
  - reflexivity.
  - reflexivity.
  - apply (bool_decide_unpack _). by vm_compute.
Defined.

Lemma get_measurements_returns_stored_rows_witness :
  exists m, m ∈ measurements store_with_three
            /\ m_metric m = "temperature" /\ m_value m = FNum 24.
Proof.
  pose (p := {| p_metric := "temperature"; p_value := FNum 24; p_unit := "c";
                p_recorded_at := 2000000;
                p_sensor_key := Some "ambient_bme280" |}).
  destruct (get_measurements_returns_stored_rows (H := example_builtins)
              store_with_three "ambient_bme280" "temperature"
              (Some "1970-01-01T00:00:02Z") (Some "1970-01-01T00:00:02+00:00")
              (Some "10") (Some "desc") [p] p)
    as (_ & _ & m & s & Hm & _ & _ & _ & Hmetric & Hvalue & _).
  - reflexivity.
  - left.
  - exists m. split; [exact Hm|]. split; [exact Hmetric|]. by rewrite <- Hvalue.
Defined.

(** A rule for temperatures below 20 degrees. *)
Definition cold_alert : AlertPayload :=
  {| ap_metric := Some "temperature"; ap_min_value := JInt 20;
     ap_max_value := JNull; ap_channel := Some "email";
     ap_target := Some "keeper@example.org"; ap_enabled := None |}.

Lemma posted_alert_is_listed_witness :
  exists rule,
    a_metric rule = "temperature"
    /\ a_min_value rule = Some (FNum (inject_Z 20))
    /\ a_max_value rule = None
    /\ a_enabled rule = true.
Proof.
  destruct (posted_alert_is_listed (H := example_builtins) []
              (post_alerts (H := example_builtins) [] cold_alert).2 cold_alert)
    as (rule & listing & _ & _ & _ & Hmetric & _ & _ & Hmin & Hmax & Henabled & _).
  - reflexivity.
  - exists rule. simpl in Hmetric. injection Hmetric as Hmetric.
    split; [by symmetry|]. split; [exact Hmin|]. split; [exact Hmax|].
    exact Henabled.
Defined.

Lemma get_summary_entries_witness :
  exists entries,
    get_summary (H := example_builtins) store_with_three (Some "3") = Ok200 entries
    /\ e_key <$> entries = ["ambient_bme280"].
Proof.
  assert (exists entries,
            get_summary (H := example_builtins) store_with_three (Some "3")
            = Ok200 entries) as [entries Hget] by (eexists; reflexivity).
  destruct (get_summary_entries (H := example_builtins) store_with_three
              (Some "3") entries Hget)
    as (rows & objs & Hscan & Hload & Horder & _).
  exists entries. split; [exact Hget|]. rewrite Horder.
  vm_compute in Hscan. injection Hscan as <-.
  vm_compute in Hload. by injection Hload as <-.
Defined.


(** A configuration of two sensors: the second one without a key and
    with an interval of its own. *)
Definition two_configs : list SensorConfig :=
  [ {| c_type := Some "bme280"; c_key := Some "ambient_bme280";
       c_name := None; c_model := None; c_location := Some "Upper canopy";
       c_interval_sec := Missing; c_metrics := Missing |};
    {| c_type := Some "ds18b20"; c_key := None;
       c_name := Some "Probe"; c_model := Some "DS18B20"; c_location := None;
       c_interval_sec := Present 30; c_metrics := Present ["temperature_c"] |} ].

Lemma first_iteration_reads_every_sensor_witness :
  exists tasks,
    build_tasks (H := example_builtins) (fun _ _ => Ret ()) (fun _ => 0%Q)
      two_configs = Ret tasks
    /\ key ∘ sensor <$> tasks.*2 = ["ambient_bme280"; "None"]
    /\ reads_of (poll_once (H := example_floats) failing_world 0 tasks.*2).2
       = [0; 1]%nat.
Proof.
  assert (exists tasks,
            build_tasks (H := example_builtins) (fun _ _ => Ret ())
              (fun _ => 0%Q) two_configs = Ret tasks)
    as [tasks Hbuild] by (eexists; reflexivity).
  destruct (first_iteration_reads_every_sensor (H := example_builtins)
              (H0 := example_floats) (fun _ _ => Ret ()) (fun _ => 0%Q)
              failing_world two_configs tasks Hbuild)
    as (Hreads & _).
  - intros k _. by vm_compute.
  - repeat (constructor; [by eexists|]). constructor.
  - exists tasks. split; [exact Hbuild|]. split; [|exact Hreads].
    vm_compute in Hbuild. by injection Hbuild as <-.
Defined.
